(** * University chatbot backend: the document store and its endpoints

    A shallow embedding of [main.py] and [data/config.py]: the JSON values the
    store holds, Python's [dict] as an insertion-ordered association list,
    [json.dumps] / [json.load] as a printer and a parser over texts, the
    process state (the global [data] and the file system) threaded through a
    state-and-exception monad, and the request handlers written in it.

    The data model.  A Python [str] is kept as the text that writes it in
    UTF-8, a surrogate written like any other code point (the encoding that
    Python calls "surrogatepass"), so a [string] is a [str] and its characters
    are the code points that [characters] reads off it.  A JSON number is an
    [int] or a [float]; the program never computes with a float, it reads one
    from a literal and writes it back, so a float is kept as its [repr].
    What the interpreter brings and the program only calls is a parameter of
    the development, the class [Python]: reading a float literal, and the two
    tables of the Unicode database that [str.lower] and [repr] consult.  The
    limits of the interpreter (the depth of its recursion, the digits of an
    [int] it converts) are not modelled. *)

From Stdlib Require Import String Ascii List ZArith NArith Lia Bool Arith.
From Stdlib Require Import Decimal DecimalString DecimalPos DecimalZ.
Import ListNotations.

Local Open Scope list_scope.
Local Open Scope string_scope.

(* ================================================================== *)
(** ** JSON values *)

Unset Elimination Schemes.
Inductive json : Type :=
| JNull
| JBool (b : bool)
| JInt (n : Z)
| JFloat (repr : string)
| JStr (s : string)
| JArray (items : list json)
| JObject (members : list (string * json)).
Set Elimination Schemes.

(** The induction principle that reaches below arrays and objects. *)
Definition json_ind (P : json -> Prop)
    (Hnull : P JNull)
    (Hbool : forall b, P (JBool b))
    (Hint : forall n, P (JInt n))
    (Hfloat : forall r, P (JFloat r))
    (Hstr : forall s, P (JStr s))
    (Harr : forall l, Forall P l -> P (JArray l))
    (Hobj : forall m, Forall (fun kv => P (snd kv)) m -> P (JObject m)) :
  forall v, P v :=
  fix go (v : json) : P v :=
    match v with
    | JNull => Hnull
    | JBool b => Hbool b
    | JInt n => Hint n
    | JFloat r => Hfloat r
    | JStr s => Hstr s
    | JArray l =>
        Harr l ((fix gol (l : list json) : Forall P l :=
                   match l with
                   | [] => Forall_nil _
                   | x :: r => Forall_cons x (go x) (gol r)
                   end) l)
    | JObject m =>
        Hobj m ((fix gom (m : list (string * json)) :
                   Forall (fun kv => P (snd kv)) m :=
                   match m with
                   | [] => Forall_nil _
                   | kv :: r => Forall_cons kv (go (snd kv)) (gom r)
                   end) m)
    end.

(** [isinstance(v, dict)] and [isinstance(v, list)]. *)
Definition isinstance_dict (v : json) : bool :=
  match v with JObject _ => true | _ => false end.

Definition isinstance_list (v : json) : bool :=
  match v with JArray _ => true | _ => false end.

Definition isinstance_str (v : json) : bool :=
  match v with JStr _ => true | _ => false end.

(* ================================================================== *)
(** ** The interpreter

    [parse_float text] is [repr(float(text))] for a float literal of JSON:
    the float that [json] makes of the literal, as [repr] writes it.
    [unicode_lower s] is [s.lower()] for a [str] that is not ASCII (for one
    that is, CPython lowers the letters A to Z itself), and
    [unicode_isprintable c] tells whether [repr] writes the code point [c],
    above 127, as it is or escapes it. *)

Class Python : Type := {
  parse_float : string -> string;
  unicode_lower : string -> string;
  unicode_isprintable : N -> bool
}.

(* ================================================================== *)
(** ** Python dictionaries

    A [dict] keeps its keys in insertion order and holds each key once:
    assigning to a key that is present replaces its value in place, assigning
    to a new key appends the entry. *)

Definition pydict (V : Type) : Type := list (string * V).

Section Dict.
Context {V : Type}.

Fixpoint dict_get (k : string) (d : pydict V) : option V :=
  match d with
  | [] => None
  | (k', v) :: r => if String.eqb k k' then Some v else dict_get k r
  end.

(** [k in d] *)
Definition dict_contains (k : string) (d : pydict V) : bool :=
  match dict_get k d with Some _ => true | None => false end.

(** [d[k] = v] *)
Fixpoint dict_set (k : string) (v : V) (d : pydict V) : pydict V :=
  match d with
  | [] => [(k, v)]
  | (k', v') :: r =>
      if String.eqb k k' then (k', v) :: r else (k', v') :: dict_set k v r
  end.

(** [d.update(p)]: the entries of [p] are assigned in order. *)
Definition dict_update (d p : pydict V) : pydict V :=
  fold_left (fun acc kv => dict_set (fst kv) (snd kv) acc) p d.

(** [list(d.keys())] *)
Definition dict_keys (d : pydict V) : list string := map fst d.

(** [dict(pairs)] *)
Definition dict_of_pairs (pairs : list (string * V)) : pydict V :=
  dict_update [] pairs.
End Dict.

(** No key twice: the invariant of a Python [dict]. *)
Fixpoint no_dup_keys (ks : list string) : bool :=
  match ks with
  | [] => true
  | k :: r => negb (existsb (String.eqb k) r) && no_dup_keys r
  end.

(** A bound on the nesting work of decoding a value. *)
Fixpoint json_size (v : json) : nat :=
  match v with
  | JArray l => S (list_sum (map (fun x => S (json_size x)) l))
  | JObject m => S (list_sum (map (fun kv => S (json_size (snd kv))) m))
  | _ => 1
  end.

(* ================================================================== *)
(** ** Texts *)

Definition LF : ascii := "010"%char.
Definition DQUOTE : ascii := "034"%char.
Definition newline : string := String LF "".

Fixpoint spaces (n : nat) : string :=
  match n with
  | 0 => ""
  | S n' => String " " (spaces n')
  end.

(** [s] occurs somewhere in [t]: Python's [s in t]. *)
Fixpoint str_contains (s t : string) : bool :=
  String.prefix s t ||
  match t with
  | EmptyString => false
  | String _ t' => str_contains s t'
  end.

(** A [str] without a character above 127. *)
Fixpoint is_ascii (s : string) : bool :=
  match s with
  | EmptyString => true
  | String c r => (N_of_ascii c <? 128)%N && is_ascii r
  end.

Definition ascii_lower_char (c : ascii) : ascii :=
  let n := N_of_ascii c in
  if ((65 <=? n) && (n <=? 90))%N then ascii_of_N (n + 32) else c.

Fixpoint ascii_lower (s : string) : string :=
  match s with
  | EmptyString => EmptyString
  | String c r => String (ascii_lower_char c) (ascii_lower r)
  end.

(** [str.lower()]: CPython lowers an ASCII [str] letter by letter and hands
    any other to the case tables of the Unicode database. *)
Definition str_lower {py : Python} (s : string) : string :=
  if is_ascii s then ascii_lower s else unicode_lower s.

(** [s.replace(a, b)] for single characters. *)
Fixpoint str_replace_char (a b : ascii) (s : string) : string :=
  match s with
  | EmptyString => EmptyString
  | String c r =>
      String (if Ascii.eqb c a then b else c) (str_replace_char a b r)
  end.

(** [str(n)] of an [int]. *)
Definition str_of_int (n : Z) : string := NilZero.string_of_int (Z.to_int n).

(** [posixpath.join(a, b)] *)
Definition ends_with_slash (a : string) : bool :=
  match String.get (String.length a - 1) a with
  | Some c => Ascii.eqb c "/"
  | None => false
  end.

Definition path_join (a b : string) : string :=
  match b with
  | String "/" _ => b
  | _ =>
      match a with
      | EmptyString => b
      | _ => if ends_with_slash a then a ++ b else a ++ "/" ++ b
      end
  end.

(* ================================================================== *)
(** ** The characters of a text

    A code point is written in one to four bytes; [utf8_head] reads the one
    at the head of a text, [utf8_encode] writes one.  A byte that starts no
    code point belongs to no [str]; it is kept as it is. *)

Definition continuation (s : string) : option (N * string) :=
  match s with
  | String b r =>
      let n := N_of_ascii b in
      if ((128 <=? n) && (n <? 192))%N then Some ((n - 128)%N, r) else None
  | EmptyString => None
  end.

Definition utf8_head (s : string) : option (N * string) :=
  match s with
  | EmptyString => None
  | String b r =>
      let n := N_of_ascii b in
      if (n <? 128)%N then Some (n, r)
      else if (n <? 194)%N then None
      else if (n <? 224)%N then
        match continuation r with
        | Some (x, r1) => Some (((n - 192) * 64 + x)%N, r1)
        | None => None
        end
      else if (n <? 240)%N then
        match continuation r with
        | Some (x, r1) =>
            match continuation r1 with
            | Some (y, r2) =>
                let cp := ((n - 224) * 4096 + x * 64 + y)%N in
                if (2048 <=? cp)%N then Some (cp, r2) else None
            | None => None
            end
        | None => None
        end
      else if (n <? 245)%N then
        match continuation r with
        | Some (x, r1) =>
            match continuation r1 with
            | Some (y, r2) =>
                match continuation r2 with
                | Some (z, r3) =>
                    let cp := ((n - 240) * 262144 + x * 4096 + y * 64 + z)%N in
                    if ((65536 <=? cp) && (cp <? 1114112))%N
                    then Some (cp, r3) else None
                | None => None
                end
            | None => None
            end
        | None => None
        end
      else None
  end.

(** [chr(cp).encode("utf-8", "surrogatepass")] *)
Definition utf8_encode (cp : N) : string :=
  if (cp <? 128)%N then String (ascii_of_N cp) ""
  else if (cp <? 2048)%N then
    String (ascii_of_N (192 + cp / 64))
      (String (ascii_of_N (128 + cp mod 64)) "")
  else if (cp <? 65536)%N then
    String (ascii_of_N (224 + cp / 4096))
      (String (ascii_of_N (128 + (cp / 64) mod 64))
         (String (ascii_of_N (128 + cp mod 64)) ""))
  else
    String (ascii_of_N (240 + cp / 262144))
      (String (ascii_of_N (128 + (cp / 4096) mod 64))
         (String (ascii_of_N (128 + (cp / 64) mod 64))
            (String (ascii_of_N (128 + cp mod 64)) ""))).

Inductive character : Type :=
| Chr (code : N)
| Stray (b : ascii).

Fixpoint characters_at (fuel : nat) (s : string) : list character :=
  match fuel, s with
  | S fuel', String b r =>
      match utf8_head s with
      | Some (cp, rest) => Chr cp :: characters_at fuel' rest
      | None => Stray b :: characters_at fuel' r
      end
  | _, _ => []
  end.

(** The characters of a text, in order. *)
Definition characters (s : string) : list character :=
  characters_at (String.length s) s.

Definition is_high_surrogate (cp : N) : bool :=
  ((55296 <=? cp) && (cp <=? 56319))%N.

Definition is_low_surrogate (cp : N) : bool :=
  ((56320 <=? cp) && (cp <=? 57343))%N.

Definition is_surrogate (c : character) : bool :=
  match c with
  | Chr cp => is_high_surrogate cp || is_low_surrogate cp
  | Stray _ => false
  end.

(** [s.encode("utf-8")] goes through: no character of [s] is a surrogate. *)
Definition encodable (s : string) : bool :=
  forallb (fun c => negb (is_surrogate c)) (characters s).

Definition hex_digit (n : N) : ascii :=
  match n with
  | 0 => "0" | 1 => "1" | 2 => "2" | 3 => "3" | 4 => "4"
  | 5 => "5" | 6 => "6" | 7 => "7" | 8 => "8" | 9 => "9"
  | 10 => "a" | 11 => "b" | 12 => "c" | 13 => "d" | 14 => "e"
  | _ => "f"
  end%N%char.

(** ['{0:02x}'.format(n)] for [n] below 256, ['{0:04x}'.format(n)] for [n]
    below 65536. *)
Definition hex2 (n : N) : string :=
  String (hex_digit (n / 16)) (String (hex_digit (n mod 16)) "").

Definition hex4 (n : N) : string := hex2 (n / 256) ++ hex2 (n mod 256).

(* ================================================================== *)
(** ** [json.dumps(obj, indent=n)]

    The encoder with [ensure_ascii] and [allow_nan] (the defaults): a string
    is written between double quotes, every character outside [' '..'~'], the
    quote and the backslash escaped, a character above 65535 as the two
    surrogates of UTF-16; a float is written as its [repr], or as [NaN],
    [Infinity] or [-Infinity].  With an indent the item separator is [","]
    followed by a newline and the indentation of the level, and the key
    separator is [": "]. *)

Definition escape_code_point (cp : N) : string :=
  if (cp =? 34)%N then String "\" (String DQUOTE "")
  else if (cp =? 92)%N then "\\"
  else if (cp =? 10)%N then "\n"
  else if (cp =? 13)%N then "\r"
  else if (cp =? 9)%N then "\t"
  else if (cp =? 8)%N then "\b"
  else if (cp =? 12)%N then "\f"
  else if ((32 <=? cp) && (cp <=? 126))%N then String (ascii_of_N cp) ""
  else if (cp <? 65536)%N then "\u" ++ hex4 cp
  else
    "\u" ++ hex4 (55296 + (cp - 65536) / 1024) ++
    "\u" ++ hex4 (56320 + (cp - 65536) mod 1024).

Definition escape_character (c : character) : string :=
  match c with
  | Chr cp => escape_code_point cp
  | Stray b => String b ""
  end.

Fixpoint escape_all (l : list character) : string :=
  match l with
  | [] => ""
  | c :: r => escape_character c ++ escape_all r
  end.

Definition escape_chars (s : string) : string := escape_all (characters s).

Definition encode_basestring_ascii (s : string) : string :=
  String DQUOTE (escape_chars s ++ String DQUOTE "").

(** [floatstr]: the three floats that JSON has no literal for are written
    as JavaScript names them, any other as its [repr]. *)
Definition floatstr (repr : string) : string :=
  if String.eqb repr "nan" then "NaN"
  else if String.eqb repr "inf" then "Infinity"
  else if String.eqb repr "-inf" then "-Infinity"
  else repr.

Definition newline_indent (indent level : nat) : string :=
  String LF (spaces (indent * level)).

(** The separator between the items of a level: [item_separator] and
    [newline_indent]. *)
Definition separator (indent level : nat) : string :=
  String "," (newline_indent indent level).

Fixpoint json_dumps_at (indent level : nat) (v : json) : string :=
  match v with
  | JNull => "null"
  | JBool true => "true"
  | JBool false => "false"
  | JInt n => str_of_int n
  | JFloat r => floatstr r
  | JStr s => encode_basestring_ascii s
  | JArray [] => "[]"
  | JArray l =>
      "[" ++ newline_indent indent (S level) ++
      String.concat (separator indent (S level))
        (map (json_dumps_at indent (S level)) l) ++
      newline_indent indent level ++ "]"
  | JObject [] => "{}"
  | JObject m =>
      "{" ++ newline_indent indent (S level) ++
      String.concat (separator indent (S level))
        (map (fun kv => encode_basestring_ascii (fst kv) ++ ": " ++
                        json_dumps_at indent (S level) (snd kv)) m) ++
      newline_indent indent level ++ "}"
  end.

Definition json_dumps (indent : nat) (v : json) : string :=
  json_dumps_at indent 0 v.

(* ================================================================== *)
(** ** [json.loads(text)]

    The decoder of Python's [json] module: whitespace is skipped before the
    value, after it, and around the delimiters of arrays and objects; a string
    ends at the first unescaped quote and holds no raw control character; a
    number with a fraction or an exponent is a float, any other an [int];
    [NaN], [Infinity] and [-Infinity] are read as the floats they name; an
    object is built from its pairs with [dict(pairs)], so of a repeated key
    the last value stays.  Anything but whitespace after the value is an
    error.  The recursion on nested values is bounded by a fuel that the
    length of the text supplies. *)

Definition is_ws (c : ascii) : bool :=
  match c with
  | " " | "009" | "010" | "013" => true
  | _ => false
  end%char.

Fixpoint skip_ws (s : string) : string :=
  match s with
  | String c r => if is_ws c then skip_ws r else s
  | EmptyString => s
  end.

Definition is_digit (c : ascii) : bool :=
  ((48 <=? N_of_ascii c) && (N_of_ascii c <=? 57))%N.

(** The digits at the head of a text, and what follows them. *)
Fixpoint span_digits (s : string) : string * string :=
  match s with
  | String c r =>
      if is_digit c then let (d, r') := span_digits r in (String c d, r')
      else ("", s)
  | EmptyString => ("", s)
  end.

Definition prepend (p : string) (r : option (string * string)) :
  option (string * string) :=
  match r with
  | Some (s, rest) => Some (p ++ s, rest)
  | None => None
  end.

(** A lone zero, or a digit that is not zero and the digits after it. *)
Definition match_natural (s : string) : option (string * string) :=
  match s with
  | String c r =>
      if Ascii.eqb c "0" then Some ("0", r)
      else if is_digit c then Some (span_digits s)
      else None
  | EmptyString => None
  end.

(** The integer part of a number: an optional minus sign and a natural. *)
Definition match_integer (s : string) : option (string * string) :=
  match s with
  | String c r =>
      if Ascii.eqb c "-" then prepend "-" (match_natural r)
      else match_natural s
  | EmptyString => None
  end.

(** The fraction, when there is one: a point and at least one digit. *)
Definition match_fraction (s : string) : string * string :=
  match s with
  | String c r =>
      if Ascii.eqb c "." then
        match span_digits r with
        | (EmptyString, _) => ("", s)
        | (d, r') => (String c d, r')
        end
      else ("", s)
  | EmptyString => ("", s)
  end.

(** The exponent, when there is one: [e] or [E], an optional sign and at
    least one digit. *)
Definition match_exponent (s : string) : string * string :=
  match s with
  | String c r =>
      if Ascii.eqb c "e" || Ascii.eqb c "E" then
        let (sign, r1) :=
          match r with
          | String x r' =>
              if Ascii.eqb x "-" || Ascii.eqb x "+" then (String x "", r')
              else ("", r)
          | EmptyString => ("", r)
          end in
        match span_digits r1 with
        | (EmptyString, _) => ("", s)
        | (d, r') => (String c (sign ++ d), r')
        end
      else ("", s)
  | EmptyString => ("", s)
  end.

(** [int(text)] for a text of digits, with or without a minus sign. *)
Definition int_of_str (text : string) : Z :=
  match NilZero.int_of_string text with
  | Some d => Z.of_int d
  | None => 0
  end.

(** The number at the head of the text: [parse_float] of its writing when
    it has a fraction or an exponent, [int] of it otherwise. *)
Definition scan_number {py : Python} (s : string) : option (json * string) :=
  match match_integer s with
  | Some (integer, r) =>
      let (frac, r1) := match_fraction r in
      let (exp, r2) := match_exponent r1 in
      match frac ++ exp with
      | EmptyString => Some (JInt (int_of_str integer), r2)
      | tail => Some (JFloat (parse_float (integer ++ tail)), r2)
      end
  | None => None
  end.

Definition hex_value (c : ascii) : option N :=
  let n := N_of_ascii c in
  if ((48 <=? n) && (n <=? 57))%N then Some (n - 48)%N
  else if ((97 <=? n) && (n <=? 102))%N then Some (n - 87)%N
  else if ((65 <=? n) && (n <=? 70))%N then Some (n - 55)%N
  else None.

(** The four hexadecimal digits of a [\u] escape. *)
Definition decode_uXXXX (h1 h2 h3 h4 : ascii) : option N :=
  match hex_value h1, hex_value h2, hex_value h3, hex_value h4 with
  | Some a, Some b, Some c, Some d => Some (((a * 16 + b) * 16 + c) * 16 + d)%N
  | _, _, _, _ => None
  end.

Definition unescape (c : ascii) : option ascii :=
  match c with
  | "034" => Some "034"
  | "\" => Some "\"
  | "/" => Some "/"
  | "b" => Some "008"
  | "f" => Some "012"
  | "n" => Some "010"
  | "r" => Some "013"
  | "t" => Some "009"
  | _ => None
  end%char.

Definition join_surrogates (high low : N) : N :=
  (65536 + (high - 55296) * 1024 + (low - 56320))%N.

(** [scanstring], from the character after the opening quote.  The escape
    of a high surrogate followed by the escape of a low one is one code
    point; any other escape is the code point it names, a surrogate
    included. *)
Fixpoint scan_string (s : string) : option (string * string) :=
  match s with
  | EmptyString => None
  | String c r =>
      if Ascii.eqb c DQUOTE then Some ("", r)
      else if Ascii.eqb c "\" then
        match r with
        | String e r' =>
            if Ascii.eqb e "u" then
              match r' with
              | String h1 (String h2 (String h3 (String h4 r''))) =>
                  match decode_uXXXX h1 h2 h3 h4 with
                  | Some uni =>
                      match r'' with
                      | String a (String b (String k1 (String k2
                          (String k3 (String k4 r3))))) =>
                          if is_high_surrogate uni && Ascii.eqb a "\" &&
                             Ascii.eqb b "u"
                          then
                            match decode_uXXXX k1 k2 k3 k4 with
                            | Some uni2 =>
                                if is_low_surrogate uni2
                                then prepend
                                       (utf8_encode (join_surrogates uni uni2))
                                       (scan_string r3)
                                else prepend (utf8_encode uni) (scan_string r'')
                            | None => None
                            end
                          else prepend (utf8_encode uni) (scan_string r'')
                      | _ => prepend (utf8_encode uni) (scan_string r'')
                      end
                  | None => None
                  end
              | _ => None
              end
            else
              match unescape e with
              | Some x => prepend (String x "") (scan_string r')
              | None => None
              end
        | EmptyString => None
        end
      else if (N_of_ascii c <? 32)%N then None
      else prepend (String c "") (scan_string r)
  end.

(** A fixed word at the head of the text. *)
Fixpoint expect (word s : string) : option string :=
  match word with
  | EmptyString => Some s
  | String w word' =>
      match s with
      | String c r => if Ascii.eqb c w then expect word' r else None
      | EmptyString => None
      end
  end.

Definition scan_literal (word : string) (v : json) (s : string) :
  option (json * string) :=
  match expect word s with
  | Some r => Some (v, r)
  | None => None
  end.

Definition head_is (c : ascii) (s : string) : bool :=
  match s with
  | String c' _ => Ascii.eqb c' c
  | EmptyString => false
  end.

Definition tail (s : string) : string :=
  match s with
  | String _ r => r
  | EmptyString => EmptyString
  end.

Fixpoint scan_once {py : Python} (fuel : nat) (s : string) :
  option (json * string) :=
  match fuel with
  | 0 => None
  | S fuel' =>
      if head_is DQUOTE s then
        match scan_string (tail s) with
        | Some (x, r) => Some (JStr x, r)
        | None => None
        end
      else if head_is "{" s then
        let r := skip_ws (tail s) in
        if head_is "}" r then Some (JObject [], tail r)
        else
          match scan_pairs fuel' r with
          | Some (pairs, r') => Some (JObject (dict_of_pairs pairs), r')
          | None => None
          end
      else if head_is "[" s then
        let r := skip_ws (tail s) in
        if head_is "]" r then Some (JArray [], tail r)
        else
          match scan_items fuel' r with
          | Some (items, r') => Some (JArray items, r')
          | None => None
          end
      else if head_is "n" s then scan_literal "null" JNull s
      else if head_is "t" s then scan_literal "true" (JBool true) s
      else if head_is "f" s then scan_literal "false" (JBool false) s
      else
        match scan_number s with
        | Some found => Some found
        | None =>
            if head_is "N" s then scan_literal "NaN" (JFloat "nan") s
            else if head_is "I" s then scan_literal "Infinity" (JFloat "inf") s
            else if head_is "-" s
            then scan_literal "-Infinity" (JFloat "-inf") s
            else None
        end
  end

(** The items of an array, from the first character of an item to past the
    closing bracket. *)
with scan_items {py : Python} (fuel : nat) (s : string) :
  option (list json * string) :=
  match fuel with
  | 0 => None
  | S fuel' =>
      match scan_once fuel' s with
      | Some (v, r) =>
          let r1 := skip_ws r in
          if head_is "]" r1 then Some ([v], tail r1)
          else if head_is "," r1 then
            match scan_items fuel' (skip_ws (tail r1)) with
            | Some (vs, r') => Some (v :: vs, r')
            | None => None
            end
          else None
      | None => None
      end
  end

(** The pairs of an object, from the quote that opens a key to past the
    closing brace. *)
with scan_pairs {py : Python} (fuel : nat) (s : string) :
  option (list (string * json) * string) :=
  match fuel with
  | 0 => None
  | S fuel' =>
      if head_is DQUOTE s then
        match scan_string (tail s) with
        | Some (k, r1) =>
            let r2 := skip_ws r1 in
            if head_is ":" r2 then
              match scan_once fuel' (skip_ws (tail r2)) with
              | Some (v, r3) =>
                  let r4 := skip_ws r3 in
                  if head_is "}" r4 then Some ([(k, v)], tail r4)
                  else if head_is "," r4 then
                    match scan_pairs fuel' (skip_ws (tail r4)) with
                    | Some (kvs, r5) => Some ((k, v) :: kvs, r5)
                    | None => None
                    end
                  else None
              | None => None
              end
            else None
        | None => None
        end
      else None
  end.

(** [json.loads]: one value, whitespace around it, nothing after it. *)
Definition json_loads {py : Python} (text : string) : option json :=
  match scan_once (S (String.length text)) (skip_ws text) with
  | Some (v, r) =>
      match skip_ws r with
      | EmptyString => Some v
      | _ => None
      end
  | None => None
  end.

(** A text that is a number with a fraction or an exponent, all of it. *)
Definition is_float_literal (s : string) : bool :=
  match match_integer s with
  | Some (integer, r) =>
      let (frac, r1) := match_fraction r in
      let (exp, r2) := match_exponent r1 in
      negb (String.eqb (frac ++ exp) "") && String.eqb r2 ""
  | None => false
  end.

(** The [repr] of a float as the decoder makes them: one of the three that
    have no literal, or a literal that is read as the float it writes. *)
Definition float_canonical {py : Python} (repr : string) : bool :=
  String.eqb repr "nan" || String.eqb repr "inf" || String.eqb repr "-inf" ||
  (is_float_literal repr && String.eqb (parse_float repr) repr).

(** The invariant of a decoded value: no object holds a key twice, and every
    float is written as the decoder would read it. *)
Fixpoint wf_json {py : Python} (v : json) : bool :=
  match v with
  | JFloat r => float_canonical r
  | JArray l => forallb wf_json l
  | JObject m =>
      no_dup_keys (map fst m) && forallb (fun kv => wf_json (snd kv)) m
  | _ => true
  end.

(** A float that is a number: not [nan], [inf] or [-inf]. *)
Definition is_finite (repr : string) : bool :=
  negb (String.eqb repr "nan" || String.eqb repr "inf" ||
        String.eqb repr "-inf").

(** What [json.dumps(content, allow_nan=False)] asks of the content, and
    what encoding the text it returns as UTF-8 asks of it. *)
Fixpoint floats_finite (v : json) : bool :=
  match v with
  | JFloat r => is_finite r
  | JArray l => forallb floats_finite l
  | JObject m => forallb (fun kv => floats_finite (snd kv)) m
  | _ => true
  end.

Fixpoint strings_encodable (v : json) : bool :=
  match v with
  | JStr s => encodable s
  | JArray l => forallb strings_encodable l
  | JObject m =>
      forallb (fun kv => encodable (fst kv) && strings_encodable (snd kv)) m
  | _ => true
  end.

(* ================================================================== *)
(** ** Exceptions *)

Inductive exn : Type :=
| HTTPException (status_code : Z) (detail : string)
| RequestValidationError
| KeyError (key : string)
| FileNotFoundError (msg : string)
| JSONDecodeError
| OSError (msg : string)
| TypeError (msg : string)
| AttributeError (msg : string)
| ValueError (msg : string)
| UnicodeEncodeError
| APIError (msg : string).

(** [repr(s)] of a [str]: single quotes unless the text holds one and no
    double quote; the quote in use, the backslash and what does not print
    are escaped. *)
Definition repr_code_point {py : Python} (quote : ascii) (cp : N) : string :=
  if (cp =? N_of_ascii quote)%N || (cp =? 92)%N
  then String "\" (String (ascii_of_N cp) "")
  else if (cp =? 9)%N then "\t"
  else if (cp =? 10)%N then "\n"
  else if (cp =? 13)%N then "\r"
  else if ((cp <? 32) || (cp =? 127))%N then "\x" ++ hex2 cp
  else if (cp <? 127)%N then String (ascii_of_N cp) ""
  else if unicode_isprintable cp then utf8_encode cp
  else if (cp <=? 255)%N then "\x" ++ hex2 cp
  else if (cp <=? 65535)%N then "\u" ++ hex4 cp
  else "\U" ++ hex4 (cp / 65536) ++ hex4 (cp mod 65536).

Definition repr_character {py : Python} (quote : ascii) (c : character) :
  string :=
  match c with
  | Chr cp => repr_code_point quote cp
  | Stray b => String b ""
  end.

Definition repr_str {py : Python} (s : string) : string :=
  let quote : ascii :=
    if str_contains "'" s && negb (str_contains (String DQUOTE "") s)
    then DQUOTE else "'"%char in
  String quote
    (String.concat "" (map (repr_character quote) (characters s)) ++
     String quote "").

(** [str(e)].  A [JSONDecodeError] is raised while loading only, where its
    text is printed and not kept, and nothing catches the error of an
    encoding. *)
Definition str_exn {py : Python} (e : exn) : string :=
  match e with
  | HTTPException status_code detail => str_of_int status_code ++ ": " ++ detail
  | RequestValidationError => ""
  | KeyError key => repr_str key
  | FileNotFoundError msg => msg
  | JSONDecodeError => ""
  | OSError msg => msg
  | TypeError msg => msg
  | AttributeError msg => msg
  | ValueError msg => msg
  | UnicodeEncodeError => ""
  | APIError msg => msg
  end.

(** [type(v).__name__] *)
Definition type_name (v : json) : string :=
  match v with
  | JNull => "NoneType"
  | JBool _ => "bool"
  | JInt _ => "int"
  | JFloat _ => "float"
  | JStr _ => "str"
  | JArray _ => "list"
  | JObject _ => "dict"
  end.

(* ================================================================== *)
(** ** The file system and the process state *)

(** What the environment does with a write to a path: it goes through,
    [open] fails, or the write fails after [written] characters. *)
Inductive io_condition : Type :=
| Writable
| OpenFails (msg : string)
| WriteFails (written : nat) (msg : string).

(** [files] gives the text of each file that is there, as reading it gives
    it.  A file that cannot be read, or whose bytes are no text, behaves as
    one whose text is no JSON: [load_data] catches the one error as the
    other. *)
Record filesystem : Type := {
  files : pydict string;
  condition : string -> io_condition
}.

(** The module-level [data] and the disk. *)
Record state : Type := {
  data : pydict json;
  fs : filesystem
}.

Inductive outcome (A : Type) : Type :=
| Return (a : A)
| Raise (e : exn).
Arguments Return {A} a.
Arguments Raise {A} e.

(** A computation reads and writes the state and returns or raises; what it
    did to the state before raising stays done. *)
Definition M (A : Type) : Type := state -> outcome A * state.

Definition ret {A} (a : A) : M A := fun st => (Return a, st).

Definition bind {A B} (c : M A) (k : A -> M B) : M B :=
  fun st =>
    match c st with
    | (Return a, st') => k a st'
    | (Raise e, st') => (Raise e, st')
    end.

Definition raise {A} (e : exn) : M A := fun st => (Raise e, st).

(** [try: body except Exception as e: handler(e)] *)
Definition try_except {A} (body : M A) (handler : exn -> M A) : M A :=
  fun st =>
    match body st with
    | (Return a, st') => (Return a, st')
    | (Raise e, st') => handler e st'
    end.

Notation "x <- c ;; k" := (bind c (fun x => k))
  (at level 61, c at next level, right associativity).
Notation "c ;;; k" := (bind c (fun _ => k))
  (at level 61, right associativity).

Fixpoint for_each {A B} (l : list A) (body : B -> A -> M B) (acc : B) : M B :=
  match l with
  | [] => ret acc
  | x :: r => acc' <- body acc x ;; for_each r body acc'
  end.

Fixpoint map_m {A B} (f : A -> M B) (l : list A) : M (list B) :=
  match l with
  | [] => ret []
  | x :: r => y <- f x ;; ys <- map_m f r ;; ret (y :: ys)
  end.

(** The global [data]. *)
Definition read_data : M (pydict json) := fun st => (Return (data st), st).

(** [data[key]] *)
Definition data_getitem (key : string) : M json :=
  fun st =>
    match dict_get key (data st) with
    | Some v => (Return v, st)
    | None => (Raise (KeyError key), st)
    end.

(** The object bound to [data[key]] becomes [v]: an in-place mutation. *)
Definition data_mutate (key : string) (v : json) : M unit :=
  fun st => (Return tt, {| data := dict_set key v (data st); fs := fs st |}).

(** [os.path.exists(path)] *)
Definition os_path_exists (path : string) : M bool :=
  fun st => (Return (dict_contains path (files (fs st))), st).

(** [open(path, 'r')] and reading the whole file. *)
Definition read_text {py : Python} (path : string) : M string :=
  fun st =>
    match dict_get path (files (fs st)) with
    | Some text => (Return text, st)
    | None =>
        (Raise (FileNotFoundError
                  ("[Errno 2] No such file or directory: " ++ repr_str path)),
         st)
    end.

Definition put_file (path text : string) (f : filesystem) : filesystem :=
  {| files := dict_set path text (files f); condition := condition f |}.

(** [with open(path, 'w') as f:] and writing [text] to [f]: opening truncates
    the file, and a write that fails leaves what was written before. *)
Definition write_text (path text : string) : M unit :=
  fun st =>
    match condition (fs st) path with
    | Writable =>
        (Return tt, {| data := data st; fs := put_file path text (fs st) |})
    | OpenFails msg => (Raise (OSError msg), st)
    | WriteFails written msg =>
        (Raise (OSError msg),
         {| data := data st;
            fs := put_file path (String.substring 0 written text) (fs st) |})
    end.

(** [json.load(f)] on the text of a file. *)
Definition json_load {py : Python} (text : string) : M json :=
  match json_loads text with
  | Some v => ret v
  | None => raise JSONDecodeError
  end.

(** The status of the HTTP response: an [HTTPException] carries its own, a
    body that does not validate is answered 422, any other exception leaves
    the application as a server error. *)
Definition http_status {A} (r : outcome A) : Z :=
  match r with
  | Return _ => 200
  | Raise (HTTPException status_code _) => status_code
  | Raise RequestValidationError => 422
  | Raise _ => 500
  end.

(* ================================================================== *)
(** ** The application: [data/config.py] and [main.py] *)

Record UpdateRequest : Type := {
  file_name : string;
  new_data : pydict json
}.

Record ChatRequest : Type := {
  message : string
}.

(** What the validation of a request body gives: the request, or the
    values that the errors quote. *)
Inductive validation (A : Type) : Type :=
| Valid (a : A)
| Invalid (inputs : list json).
Arguments Valid {A} a.
Arguments Invalid {A} inputs.

(** The error of one field of a model: none, the value of the field when it
    is of another type, the body when it lacks the field. *)
Definition field_error (accepts : json -> bool) (name : string)
    (m : pydict json) : list json :=
  match dict_get name m with
  | Some v => if accepts v then [] else [v]
  | None => [JObject m]
  end.

(** What FastAPI makes of a request body for a handler that takes an
    [UpdateRequest]: the body must be an object whose [file_name] is a string
    and whose [new_data] is an object.  This is pydantic 2: a value of
    another type is not converted, and the error quotes it. *)
Definition validate_UpdateRequest (body : json) : validation UpdateRequest :=
  match body with
  | JObject m =>
      match dict_get "file_name" m, dict_get "new_data" m with
      | Some (JStr f), Some (JObject d) =>
          Valid {| file_name := f; new_data := d |}
      | _, _ =>
          Invalid (field_error isinstance_str "file_name" m ++
                   field_error isinstance_dict "new_data" m)%list
      end
  | other => Invalid [other]
  end.

Definition validate_ChatRequest (body : json) : validation ChatRequest :=
  match body with
  | JObject m =>
      match dict_get "message" m with
      | Some (JStr s) => Valid {| message := s |}
      | _ => Invalid (field_error isinstance_str "message" m)
      end
  | other => Invalid [other]
  end.

(** [JSONResponse(content)]: the content is written with
    [json.dumps(content, allow_nan=False, ensure_ascii=False)] and the text
    encoded as UTF-8. *)
Definition render (content : json) : M json :=
  if negb (floats_finite content)
  then raise (ValueError "Out of range float values are not JSON compliant")
  else if negb (strings_encodable content) then raise UnicodeEncodeError
  else ret content.

(** What a handler returns is rendered as the response. *)
Definition respond (handler : M json) : M json :=
  content <- handler ;; render content.

(** A body that does not validate: the 422 that answers it quotes the values
    that were refused, and is rendered as any response is. *)
Definition refuse (inputs : list json) : M json :=
  render (JArray inputs) ;;; raise RequestValidationError.

Section App.
Context {py : Python}.
(** The directory above [data/], and the environment variables the
    handlers read. *)
Variable BASE_DIR : string.
Variable XAI_API_KEY : option string.
Variable APP_NAME : string.
Variable APP_VERSION : string.

Definition JSON_DIR : string := path_join (path_join BASE_DIR "data") "json".

Definition DATA_FILES : pydict string :=
  [ ("academic_deadlines", path_join JSON_DIR "academic_deadlines.json");
    ("course_information", path_join JSON_DIR "course_information.json");
    ("student_service_support", path_join JSON_DIR "student_support.json");
    ("library_books_list", path_join JSON_DIR "library_books.json");
    ("transport_service", path_join JSON_DIR "transport_service.json");
    ("paper_recheck", path_join JSON_DIR "paper_recheck.json") ].

(** [DATA_FILES[key]] *)
Definition DATA_FILES_getitem (key : string) : M string :=
  match dict_get key DATA_FILES with
  | Some path => ret path
  | None => raise (KeyError key)
  end.

(** One round of the loop of [load_data]; [acc] is its local [data]. *)
Definition load_entry (acc : pydict json) (entry : string * string) :
  M (pydict json) :=
  let key := fst entry in
  let filepath := snd entry in
  try_except
    (present <- os_path_exists filepath ;;
     if negb present
     then raise (FileNotFoundError ("Data file not found: " ++ filepath))
     else
       text <- read_text filepath ;;
       v <- json_load text ;;
       ret (dict_set key v acc))
    (fun _ => ret (dict_set key (JObject []) acc)).

Definition load_data : M (pydict json) :=
  for_each DATA_FILES load_entry [].

(** The module is imported: [data = load_data()]. *)
Definition startup (disk : filesystem) : outcome state :=
  match load_data {| data := []; fs := disk |} with
  | (Return d, st) => Return {| data := d; fs := fs st |}
  | (Raise e, _) => Raise e
  end.

Definition data_sections_keys : list (string * string) :=
  [ ("Academic Deadlines", "academic_deadlines");
    ("Course Information", "course_information");
    ("Student Support", "student_service_support");
    ("Library Books", "library_books_list");
    ("Transport Services", "transport_service");
    ("Paper Recheck", "paper_recheck") ].

Definition context_intro : string :=
  "You are an AI assistant for our university. Use ONLY the following information to answer queries:".

Definition context_rules : string :=
  newline ++ "Rules:" ++ newline ++
  "1. Use ONLY above data" ++ newline ++
  "2. If you don't have the information, say 'Please Contact with your Academic Advisor'" ++ newline ++
  "3. Quote exact dates/times" ++ newline ++
  "4. Be direct and precise".

Definition context_section (section : string * json) : string :=
  newline ++ fst section ++ ":" ++ newline ++ json_dumps 2 (snd section).

Definition create_context_message : M string :=
  data_sections <-
    map_m (fun tk => content <- data_getitem (snd tk) ;; ret (fst tk, content))
          data_sections_keys ;;
  let context_parts :=
    ([context_intro] ++ map context_section data_sections ++ [context_rules])%list in
  ret (String.concat newline context_parts).

Definition root : M json :=
  ret (JObject
    [ ("name", JStr APP_NAME);
      ("version", JStr APP_VERSION);
      ("status", JStr "online");
      ("endpoints", JObject
        [ ("/api/chat", JStr "Chat with the AI assistant");
          ("/api/data/{file_name}", JStr "Get specific data");
          ("/api/admin/update", JStr "Update data (Admin)");
          ("/api/admin/files", JStr "List available files") ]) ]).

Definition get_data (file_name : string) : M json :=
  d <- read_data ;;
  if negb (dict_contains file_name d)
  then raise (HTTPException 404 "File not found")
  else
    v <- data_getitem file_name ;;
    ret (JObject [("data", v)]).

(** [if isinstance(new_data, list): l.extend(new_data)
     else: l.append(new_data)] *)
Definition extend_or_append (l : list json) (new_data : json) : list json :=
  match new_data with
  | JArray p => (l ++ p)%list
  | _ => (l ++ [new_data])%list
  end.

(** The branches of [update_data] on the type of [data[file_name]]. *)
Definition update_in_memory (file_name : string) (current : json)
    (new_data : pydict json) : M unit :=
  match current with
  | JObject m => data_mutate file_name (JObject (dict_update m new_data))
  | JArray l =>
      data_mutate file_name (JArray (extend_or_append l (JObject new_data)))
  | _ => ret tt
  end.

Definition update_data (request : UpdateRequest) : M json :=
  try_except
    (let file_name := request.(file_name) in
     let new_data := request.(new_data) in
     d <- read_data ;;
     if negb (dict_contains file_name d)
     then raise (HTTPException 404 "File not found")
     else
       current <- data_getitem file_name ;;
       update_in_memory file_name current new_data ;;;
       file_path <- DATA_FILES_getitem file_name ;;
       current <- data_getitem file_name ;;
       write_text file_path (json_dumps 4 current) ;;;
       current <- data_getitem file_name ;;
       ret (JObject
         [ ("status", JStr "success");
           ("message", JStr ("Data updated successfully in " ++ file_name));
           ("updated_data", current) ]))
    (fun e => raise (HTTPException 500 ("Error updating data: " ++ str_exn e))).

Definition get_available_files : M json :=
  ret (JObject [("files", JArray (map JStr (dict_keys DATA_FILES)))]).

(** The text the stream of the completion API adds up to. *)
Fixpoint drain (chunks : list (option string)) : string :=
  match chunks with
  | [] => ""
  | Some content :: r => content ++ drain r
  | None :: r => drain r
  end.

(** One round of the loop of [chat] over the academic deadlines. *)
Definition quote_deadline (lowered : string) (response : string)
    (item : string * json) : M string :=
  let key := fst item in
  if str_contains key lowered then
    match snd item with
    | JStr value =>
        if negb (str_contains value response)
        then ret ("According to our academic calendar, the " ++
                  str_replace_char "_" " " key ++ " is " ++ value ++ ". " ++
                  response)
        else ret response
    | other =>
        raise (TypeError ("'in <string>' requires string as left operand, not "
                          ++ type_name other))
    end
  else ret response.

(** [chat]; what the completion API answers is the environment's to say:
    an error of the client, or the contents of the chunks of the stream. *)
Definition chat (request : ChatRequest)
    (upstream : outcome (list (option string))) : M json :=
  try_except
    (match XAI_API_KEY with
     | None | Some EmptyString =>
         raise (HTTPException 500 "API key not configured")
     | Some _ =>
         system_message <- create_context_message ;;
         stream <- (fun st => (upstream, st)) ;;
         let response := drain stream in
         let lowered := str_lower request.(message) in
         response <-
           (if existsb (fun keyword => str_contains keyword lowered)
                       ["exam"; "deadline"; "date"]
            then
              relevant_data <- data_getitem "academic_deadlines" ;;
              match relevant_data with
              | JObject items => for_each items (quote_deadline lowered) response
              | other =>
                  raise (AttributeError ("'" ++ type_name other ++
                                         "' object has no attribute 'items'"))
              end
            else ret response) ;;
         ret (JObject
           [ ("response", JStr response);
             ("status", JStr "success");
             ("source", JStr APP_NAME) ])
     end)
    (fun e => raise (HTTPException 500 ("Error processing request: " ++ str_exn e))).

(** A request as it reaches the router; a body is the text that was sent,
    as [json.loads] decodes the bytes of it. *)
Inductive request : Type :=
| GET_root
| GET_data (file_name : string)
| POST_chat (body : string) (upstream : outcome (list (option string)))
| POST_admin_update (body : string)
| GET_admin_files.

(** FastAPI decodes the body and validates it against the model the
    handler takes before it calls the handler, and renders what the handler
    returns. *)
Definition post_admin_update (body : string) : M json :=
  match json_loads body with
  | Some decoded =>
      match validate_UpdateRequest decoded with
      | Valid request => respond (update_data request)
      | Invalid inputs => refuse inputs
      end
  | None => raise RequestValidationError
  end.

Definition post_chat (body : string)
    (upstream : outcome (list (option string))) : M json :=
  match json_loads body with
  | Some decoded =>
      match validate_ChatRequest decoded with
      | Valid request => respond (chat request upstream)
      | Invalid inputs => refuse inputs
      end
  | None => raise RequestValidationError
  end.

Definition serve (r : request) : M json :=
  match r with
  | GET_root => respond root
  | GET_data file_name => respond (get_data file_name)
  | POST_chat body upstream => post_chat body upstream
  | POST_admin_update body => post_admin_update body
  | GET_admin_files => respond get_available_files
  end.

(** What happens to the process: a request is served, or the disk changes
    under it. *)
Inductive event : Type :=
| Request (r : request)
| Disk (disk : filesystem).

Definition step (st : state) (ev : event) : state :=
  match ev with
  | Request r => snd (serve r st)
  | Disk disk => {| data := data st; fs := disk |}
  end.

Definition run (events : list event) (st : state) : state :=
  fold_left step events st.

(** The states the process goes through: started on some disk, then any
    events. *)
Definition reachable (st : state) : Prop :=
  exists disk st0 events, startup disk = Return st0 /\ run events st0 = st.

(** What [load_data] binds a name to, given the disk and the path of its
    file. *)
Definition loaded (disk : filesystem) (path : string) : json :=
  match dict_get path (files disk) with
  | Some text =>
      match json_loads text with
      | Some v => v
      | None => JObject []
      end
  | None => JObject []
  end.

(** What an update leaves bound to the name, given what was bound to it. *)
Definition merged (current : json) (patch : pydict json) : json :=
  match current with
  | JObject m => JObject (dict_update m patch)
  | JArray l => JArray (l ++ [JObject patch])%list
  | _ => current
  end.

(** [t] occurs in [s], and [s] ends with [t]. *)
Definition occurs_in (t s : string) : Prop := exists a b, s = a ++ t ++ b.
Definition ends_with (s t : string) : Prop := exists a, s = a ++ t.

(** A computation that only reads the state. *)
Definition read_only {A} (c : M A) : Prop := forall st, snd (c st) = st.

(** The body of the answer to an update that went through. *)
Definition update_success (file_name : string) (v : json) : json :=
  JObject
    [ ("status", JStr "success");
      ("message", JStr ("Data updated successfully in " ++ file_name));
      ("updated_data", v) ].

(** What follows a printed value: the end of the text, a comma, or the
    newline before the closing bracket. *)
Definition delimited (rest : string) : bool :=
  match rest with
  | EmptyString => true
  | String c _ => Ascii.eqb c LF || Ascii.eqb c ","
  end.

(** A text that starts with a digit. *)
Definition digit_head (s : string) : bool :=
  match s with
  | String c _ => is_digit c
  | EmptyString => false
  end.

(** What a scanner returns, with [rest] after the text it left. *)
Definition then_rest (rest : string) (r : option (string * string)) :
  option (string * string) :=
  match r with
  | Some (t, r') => Some (t, r' ++ rest)
  | None => None
  end.

(** [t'] is [t], or starts with [sep]. *)
Definition delimited_or (sep t t' : string) : Prop :=
  t' = t \/ exists u, t' = sep ++ u.

(** The first character of a printed number: a digit or the minus sign. *)
Definition number_head (s : string) : bool :=
  match s with
  | String c _ => is_digit c || Ascii.eqb c "-"
  | EmptyString => false
  end.

(** The first character of a printed value: not whitespace, and not the
    bracket that closes an array. *)
Definition value_head (s : string) : bool :=
  match s with
  | String c _ => negb (is_ws c) && negb (Ascii.eqb c "]")
  | EmptyString => false
  end.

(** The decoder reads a printed value back and stops right after it. *)
Definition parses_back (indent : nat) (v : json) : Prop :=
  forall fuel level rest,
    json_size v <= fuel -> delimited rest = true ->
    scan_once fuel (json_dumps_at indent level v ++ rest) = Some (v, rest).

(** Every value of a dictionary is as the decoder makes them. *)
Definition values_wf (d : pydict json) : bool :=
  forallb (fun kv => wf_json (snd kv)) d.

(** What the development takes for granted of [float] and [repr]: the
    [repr] of the float that a literal is read as is [inf], [-inf], or a
    literal that is read as the same float ([repr] writes the shortest text
    that [float] reads back). *)
Definition float_repr_law : Prop :=
  forall text, is_float_literal text = true ->
    float_canonical (parse_float text) = true.

(** And of the case tables: a text that occurs in a lowered text is its own
    lowering. *)
Definition lower_law : Prop :=
  forall s t, str_contains s (unicode_lower t) = true -> str_lower s = s.

(** A dataset that only grew: a mapping kept its keys, a sequence its
    elements in front, anything else its value. *)
Definition grows (old new : json) : Prop :=
  match old, new with
  | JObject m, JObject m' =>
      forall k, dict_contains k m = true -> dict_contains k m' = true
  | JArray l, JArray l' => exists added, l' = (l ++ added)%list
  | _, _ => old = new
  end.

(** What [chat] does after the key was found, the context built and the
    stream drained. *)
Definition chat_postprocess (request : ChatRequest) (response : string) : M json :=
  try_except
    (response <-
       (if existsb (fun keyword => str_contains keyword (str_lower (message request)))
                   ["exam"; "deadline"; "date"]
        then
          relevant_data <- data_getitem "academic_deadlines" ;;
          match relevant_data with
          | JObject items =>
              for_each items (quote_deadline (str_lower (message request))) response
          | other =>
              raise (AttributeError ("'" ++ type_name other ++
                                     "' object has no attribute 'items'"))
          end
        else ret response) ;;
     ret (JObject
       [ ("response", JStr response);
         ("status", JStr "success");
         ("source", JStr APP_NAME) ]))
    (fun e => raise (HTTPException 500 ("Error processing request: " ++ str_exn e))).

End App.

(* ================================================================== *)
(** ** A sample deployment *)

(** An interpreter for the examples, which hold no float and no character
    above 127, so that none of its three functions is ever called by them:
    it keeps a float literal as it is written, lowers the letters A to Z
    only, and calls every character printable. *)
Definition sample_python : Python :=
  {| parse_float := fun text => text;
     unicode_lower := ascii_lower;
     unicode_isprintable := fun _ => true |}.

Definition sample_base : string := "/srv/app".

Definition sample_path (file : string) : string :=
  path_join (JSON_DIR sample_base) file.

(** Three of the six files are on the disk: a mapping, a sequence and a bare
    number. *)
Definition sample_files : pydict string :=
  [ (sample_path "academic_deadlines.json",
     json_dumps 4 (JObject [("midterm", JStr "Oct 10")]));
    (sample_path "library_books.json", json_dumps 4 (JArray [JStr "Dune"]));
    (sample_path "paper_recheck.json", "42") ].

Definition sample_disk : filesystem :=
  {| files := sample_files; condition := fun _ => Writable |}.

(** The same files on a disk that refuses every write. *)
Definition sample_locked_disk : filesystem :=
  {| files := sample_files;
     condition := fun _ => OpenFails "[Errno 13] Permission denied" |}.

Definition sample_data : pydict json :=
  [ ("academic_deadlines", JObject [("midterm", JStr "Oct 10")]);
    ("course_information", JObject []);
    ("student_service_support", JObject []);
    ("library_books_list", JArray [JStr "Dune"]);
    ("transport_service", JObject []);
    ("paper_recheck", JInt 42) ].

Definition sample_state : state := {| data := sample_data; fs := sample_disk |}.

Definition sample_locked_state : state :=
  {| data := sample_data; fs := sample_locked_disk |}.

Definition sample_update (name : string) (patch : json) : string :=
  json_dumps 2 (JObject [("file_name", JStr name); ("new_data", patch)]).

Definition sample_events : list event :=
  [ Request (POST_admin_update
               (sample_update "academic_deadlines"
                  (JObject [("final", JStr "Dec 15")])));
    Request (GET_data "academic_deadlines");
    Request (POST_admin_update
               (sample_update "library_books_list" (JArray [JInt 1; JInt 2])));
    Request GET_admin_files ].

Definition sample_run : state :=
  run (py := sample_python) sample_base None "University Assistant API" "1.0.0"
      sample_events sample_state.

(** The sample store with a list for the academic deadlines. *)
Definition sample_list_state : state :=
  {| data := dict_set "academic_deadlines" (JArray [JStr "Oct 10"]) sample_data;
     fs := sample_disk |}.

Definition sample_key : option string := Some "xai-key".

Definition sample_stream : list (option string) :=
  [Some "Soon."; None; Some " Ask your advisor."].

Definition sample_patch : UpdateRequest :=
  {| file_name := "academic_deadlines"; new_data := [("final", JStr "Dec 15")] |}.

(* ================================================================== *)
(** * Properties *)

Section Properties.
Context {py : Python}.
Variable BASE_DIR : string.
Variable XAI_API_KEY : option string.
Variable APP_NAME : string.
Variable APP_VERSION : string.

Local Abbreviation JSON_DIR := (JSON_DIR BASE_DIR).
Local Abbreviation DATA_FILES := (DATA_FILES BASE_DIR).
Local Abbreviation DATA_FILES_getitem := (DATA_FILES_getitem BASE_DIR).
Local Abbreviation load_data := (load_data BASE_DIR).
Local Abbreviation startup := (startup BASE_DIR).
Local Abbreviation update_data := (update_data BASE_DIR).
Local Abbreviation get_available_files := (get_available_files BASE_DIR).
Local Abbreviation root := (root APP_NAME APP_VERSION).
Local Abbreviation chat := (chat XAI_API_KEY APP_NAME).
Local Abbreviation chat_postprocess := (chat_postprocess APP_NAME).
Local Abbreviation post_admin_update := (post_admin_update BASE_DIR).
Local Abbreviation post_chat := (post_chat XAI_API_KEY APP_NAME).
Local Abbreviation serve := (serve BASE_DIR XAI_API_KEY APP_NAME APP_VERSION).
Local Abbreviation step := (step BASE_DIR XAI_API_KEY APP_NAME APP_VERSION).
Local Abbreviation run := (run BASE_DIR XAI_API_KEY APP_NAME APP_VERSION).
Local Abbreviation reachable :=
  (reachable BASE_DIR XAI_API_KEY APP_NAME APP_VERSION).


(* ================================================================ *)
(** ** Dictionaries *)

Lemma dict_get_set_same {V} (k : string) (v : V) (d : pydict V) :
  dict_get k (dict_set k v d) = Some v.
Proof.
  induction d as [|[k' v'] d IH]; simpl.
  - now rewrite String.eqb_refl.
  - destruct (String.eqb k k') eqn:E; simpl; rewrite E; auto.
Qed.

Lemma dict_get_set_other {V} (k k' : string) (v : V) (d : pydict V) :
  k <> k' -> dict_get k' (dict_set k v d) = dict_get k' d.
Proof.
  intros Hne. induction d as [|[k0 v0] d IH]; simpl.
  - destruct (String.eqb_spec k' k); congruence.
  - destruct (String.eqb_spec k k0) as [->|Hk]; simpl.
    + destruct (String.eqb_spec k' k0); congruence.
    + now rewrite IH.
Qed.

Lemma dict_keys_set_present {V} (k : string) (v v' : V) (d : pydict V) :
  dict_get k d = Some v' -> dict_keys (dict_set k v d) = dict_keys d.
Proof.
  unfold dict_keys. induction d as [|[k0 v0] d IH]; simpl; [discriminate|].
  destruct (String.eqb k k0) eqn:E; simpl; intros H; auto.
  now rewrite IH.
Qed.

Lemma dict_set_same_value {V} (k : string) (v : V) (d : pydict V) :
  dict_get k d = Some v -> dict_set k v d = d.
Proof.
  induction d as [|[k0 v0] d IH]; simpl; [discriminate|].
  destruct (String.eqb k k0) eqn:E; intros H.
  - now inversion H.
  - now rewrite IH.
Qed.

Lemma dict_contains_get {V} (k : string) (d : pydict V) :
  dict_contains k d = true <-> exists v, dict_get k d = Some v.
Proof.
  unfold dict_contains. destruct (dict_get k d).
  - split; eauto.
  - split; [discriminate | intros [v H]; discriminate].
Qed.

Lemma dict_get_in_keys {V} (k : string) (d : pydict V) :
  In k (dict_keys d) <-> exists v, dict_get k d = Some v.
Proof.
  unfold dict_keys. induction d as [|[k0 v0] d IH]; simpl.
  - split; [tauto | intros [v H]; discriminate].
  - destruct (String.eqb_spec k k0) as [->|Hne].
    + split; eauto.
    + rewrite <- IH. split; [intros [H|H]; congruence || auto | auto].
Qed.

Lemma dict_get_not_in_keys {V} (k : string) (d : pydict V) :
  ~ In k (dict_keys d) -> dict_get k d = None.
Proof.
  intros H. destruct (dict_get k d) eqn:E; auto.
  exfalso. apply H, dict_get_in_keys. eauto.
Qed.

(** After [d.update(p)] a key is bound to what [p] binds it to last, and
    to what [d] bound it to when [p] does not hold it. *)
Lemma dict_get_update {V} (k : string) (p d : pydict V) :
  dict_get k (dict_update d p) =
  match dict_get k (List.rev p) with
  | Some v => Some v
  | None => dict_get k d
  end.
Proof.
  unfold dict_update. revert d.
  induction p as [|[k0 v0] p IH]; intros d; simpl; auto.
  rewrite IH. clear IH.
  assert (Happ : forall (a b : pydict V),
             dict_get k (a ++ b)%list =
             match dict_get k a with Some v => Some v | None => dict_get k b end).
  { induction a as [|[ka va] a IHa]; intros b; simpl; auto.
    destruct (String.eqb k ka); auto. }
  rewrite Happ. destruct (dict_get k (List.rev p)); auto. simpl.
  destruct (String.eqb_spec k k0) as [->|Hne].
  - apply dict_get_set_same.
  - apply dict_get_set_other. congruence.
Qed.

Lemma existsb_eqb_in (k : string) (l : list string) :
  existsb (String.eqb k) l = true <-> In k l.
Proof.
  rewrite existsb_exists. split.
  - intros [x [Hin Heq]]. apply String.eqb_eq in Heq. now subst.
  - intros H. exists k. split; auto. apply String.eqb_refl.
Qed.

Lemma no_dup_keys_NoDup (l : list string) :
  no_dup_keys l = true <-> NoDup l.
Proof.
  induction l as [|k l IH]; simpl.
  - split; auto using NoDup_nil.
  - rewrite andb_true_iff, negb_true_iff, IH. split.
    + intros [H1 H2]. constructor; auto.
      intros Hin. apply existsb_eqb_in in Hin. congruence.
    + intros H. inversion H; subst. split; auto.
      destruct (existsb (String.eqb k) l) eqn:E; auto.
      apply existsb_eqb_in in E. contradiction.
Qed.

(** In a dictionary that holds no key twice, the last binding of a key is
    its only one. *)
Lemma dict_get_rev {V} (k : string) (p : pydict V) :
  no_dup_keys (dict_keys p) = true -> dict_get k (List.rev p) = dict_get k p.
Proof.
  intros H. apply no_dup_keys_NoDup in H.
  assert (Happ : forall (a b : pydict V),
             dict_get k (a ++ b)%list =
             match dict_get k a with Some v => Some v | None => dict_get k b end).
  { induction a as [|[ka va] a IHa]; intros b; simpl; auto.
    destruct (String.eqb k ka); auto. }
  induction p as [|[k0 v0] p IH]; simpl in *; auto.
  inversion H; subst. rewrite Happ, IH by assumption. simpl.
  destruct (String.eqb_spec k k0) as [->|Hne]; auto.
  - rewrite dict_get_not_in_keys; auto.
  - destruct (dict_get k p); auto.
Qed.

Lemma dict_keys_set {V} (k : string) (v : V) (d : pydict V) :
  dict_keys (dict_set k v d) =
  if dict_contains k d then dict_keys d else (dict_keys d ++ [k])%list.
Proof.
  unfold dict_contains, dict_keys.
  induction d as [|[k0 v0] d IH]; simpl; auto.
  destruct (String.eqb k k0) eqn:E; simpl; auto.
  rewrite IH. destruct (dict_get k d); auto.
Qed.

Lemma dict_set_no_dup {V} (k : string) (v : V) (d : pydict V) :
  no_dup_keys (dict_keys d) = true ->
  no_dup_keys (dict_keys (dict_set k v d)) = true.
Proof.
  rewrite dict_keys_set. intros H.
  destruct (dict_contains k d) eqn:E; auto.
  apply no_dup_keys_NoDup. apply no_dup_keys_NoDup in H.
  apply NoDup_app; auto.
  - constructor; [intros []|constructor].
  - intros x Hx [<-|[]].
    apply dict_get_in_keys, dict_contains_get in Hx. congruence.
Qed.

Lemma dict_update_no_dup {V} (d p : pydict V) :
  no_dup_keys (dict_keys d) = true ->
  no_dup_keys (dict_keys (dict_update d p)) = true.
Proof.
  unfold dict_update. revert d.
  induction p as [|[k v] p IH]; intros d H; simpl; auto.
  apply IH. now apply dict_set_no_dup.
Qed.

(* ================================================================ *)
(** ** Computations that only read the state *)

Lemma read_only_ret {A} (a : A) : read_only (ret a).
Proof. intros st. reflexivity. Qed.

Lemma read_only_raise {A} (e : exn) : read_only (@raise A e).
Proof. intros st. reflexivity. Qed.

Lemma read_only_bind {A B} (c : M A) (k : A -> M B) :
  read_only c -> (forall a, read_only (k a)) -> read_only (bind c k).
Proof.
  intros Hc Hk st. unfold bind. specialize (Hc st).
  destruct (c st) as [[a|e] st']; simpl in *; subst; auto. apply Hk.
Qed.

Lemma read_only_try_except {A} (body : M A) (handler : exn -> M A) :
  read_only body -> (forall e, read_only (handler e)) ->
  read_only (try_except body handler).
Proof.
  intros Hb Hh st. unfold try_except. specialize (Hb st).
  destruct (body st) as [[a|e] st']; simpl in *; subst; auto. apply Hh.
Qed.

Lemma read_only_for_each {A B} (l : list A) (body : B -> A -> M B) (acc : B) :
  (forall b a, read_only (body b a)) -> read_only (for_each l body acc).
Proof.
  intros Hb. revert acc. induction l as [|x l IH]; intros acc; simpl.
  - apply read_only_ret.
  - apply read_only_bind; auto.
Qed.

Lemma read_only_map_m {A B} (f : A -> M B) (l : list A) :
  (forall a, read_only (f a)) -> read_only (map_m f l).
Proof.
  intros Hf. induction l as [|x l IH]; simpl.
  - apply read_only_ret.
  - apply read_only_bind; auto. intros y.
    apply read_only_bind; auto. intros ys. apply read_only_ret.
Qed.

Lemma read_only_read_data : read_only read_data.
Proof. intros st. reflexivity. Qed.

Lemma read_only_data_getitem (key : string) : read_only (data_getitem key).
Proof. intros st. unfold data_getitem. now destruct (dict_get key (data st)). Qed.

Lemma read_only_os_path_exists (path : string) : read_only (os_path_exists path).
Proof. intros st. reflexivity. Qed.

Lemma read_only_read_text (path : string) : read_only (read_text path).
Proof.
  intros st. unfold read_text. now destruct (dict_get path (files (fs st))).
Qed.

Lemma read_only_json_load (text : string) : read_only (json_load text).
Proof.
  unfold json_load. destruct (json_loads text);
    [apply read_only_ret | apply read_only_raise].
Qed.

Lemma read_only_oracle {A} (r : outcome A) : read_only (fun st => (r, st)).
Proof. intros st. reflexivity. Qed.

Lemma read_only_render (content : json) : read_only (render content).
Proof.
  unfold render. destruct (negb (floats_finite content));
    [apply read_only_raise|].
  destruct (negb (strings_encodable content));
    [apply read_only_raise|apply read_only_ret].
Qed.

Lemma read_only_respond (handler : M json) :
  read_only handler -> read_only (respond handler).
Proof.
  intros H. unfold respond. apply read_only_bind; auto.
  apply read_only_render.
Qed.

Lemma read_only_refuse (inputs : list json) : read_only (refuse inputs).
Proof.
  unfold refuse. apply read_only_bind; [apply read_only_render|].
  intros _. apply read_only_raise.
Qed.

(** Rendering the response changes nothing of what the handler did to the
    state. *)
Lemma respond_state (handler : M json) (st : state) :
  snd (respond handler st) = snd (handler st).
Proof.
  unfold respond, bind. destruct (handler st) as [[content|e] st']; auto.
  apply read_only_render.
Qed.

Create HintDb read_only.
#[local] Hint Resolve
  read_only_ret read_only_raise read_only_read_data read_only_data_getitem
  read_only_os_path_exists read_only_read_text read_only_json_load
  read_only_oracle read_only_render read_only_refuse : read_only.

(** Breaks a computation into its binds, handlers and loops. *)
Ltac read_only_step :=
  match goal with
  | |- read_only (bind _ _) => apply read_only_bind; [|intros ?]
  | |- read_only (try_except _ _) => apply read_only_try_except; [|intros ?]
  | |- read_only (for_each _ _ _) => apply read_only_for_each; intros ? ?
  | |- read_only (map_m _ _) => apply read_only_map_m; intros ?
  | |- read_only (respond _) => apply read_only_respond
  | |- read_only (if ?b then _ else _) => destruct b
  | |- read_only (match ?x with _ => _ end) => destruct x
  | |- read_only _ => solve [auto with read_only]
  end.

Ltac read_only_tac := repeat read_only_step.

Lemma read_only_create_context_message : read_only create_context_message.
Proof. unfold create_context_message. read_only_tac. Qed.

Lemma read_only_root : read_only root.
Proof. unfold root. read_only_tac. Qed.

Lemma read_only_get_data (name : string) : read_only (get_data name).
Proof. unfold get_data. read_only_tac. Qed.

Lemma read_only_get_available_files : read_only get_available_files.
Proof. unfold get_available_files. read_only_tac. Qed.

Lemma read_only_quote_deadline (lowered response : string) (item : string * json) :
  read_only (quote_deadline lowered response item).
Proof. unfold quote_deadline. read_only_tac. Qed.

Lemma read_only_chat (req : ChatRequest) (upstream : outcome (list (option string))) :
  read_only (chat req upstream).
Proof.
  unfold chat.
  pose proof read_only_create_context_message.
  pose proof read_only_quote_deadline.
  read_only_tac.
Qed.

Lemma read_only_post_chat (body : string) (upstream : outcome (list (option string))) :
  read_only (post_chat body upstream).
Proof.
  unfold post_chat. pose proof read_only_chat. read_only_tac.
Qed.

Lemma read_only_load_entry (acc : pydict json) (entry : string * string) :
  read_only (load_entry acc entry).
Proof. unfold load_entry. read_only_tac. Qed.

(* ================================================================ *)
(** ** What [update_data] does, case by case *)

Lemma update_in_memory_run (name : string) (current : json)
    (patch : pydict json) (st : state) :
  dict_get name (data st) = Some current ->
  update_in_memory name current patch st =
  (Return tt, {| data := dict_set name (merged current patch) (data st);
                 fs := fs st |}).
Proof.
  intros H. destruct st as [d f]. simpl in *.
  destruct current; simpl; unfold ret, data_mutate; simpl;
    try rewrite (dict_set_same_value _ _ _ H); reflexivity.
Qed.

(** The name is not in the store: the 404 raised in the [try] is caught by
    the handler's own [except Exception] and leaves as a 500. *)
Lemma update_data_unknown (req : UpdateRequest) (st : state) :
  dict_get (file_name req) (data st) = None ->
  update_data req st =
  (Raise (HTTPException 500 "Error updating data: 404: File not found"), st).
Proof.
  intros H. unfold update_data, try_except, bind, read_data, dict_contains.
  rewrite H. reflexivity.
Qed.

(** The name is in the store and configured: the value is merged in memory,
    then written; the write decides the outcome. *)
Lemma update_data_known (req : UpdateRequest) (st : state)
    (current : json) (path : string) :
  dict_get (file_name req) (data st) = Some current ->
  dict_get (file_name req) DATA_FILES = Some path ->
  let v := merged current (new_data req) in
  let d' := dict_set (file_name req) v (data st) in
  update_data req st =
  match condition (fs st) path with
  | Writable =>
      (Return (update_success (file_name req) v),
       {| data := d'; fs := put_file path (json_dumps 4 v) (fs st) |})
  | OpenFails msg =>
      (Raise (HTTPException 500 ("Error updating data: " ++ msg)),
       {| data := d'; fs := fs st |})
  | WriteFails written msg =>
      (Raise (HTTPException 500 ("Error updating data: " ++ msg)),
       {| data := d';
          fs := put_file path (String.substring 0 written (json_dumps 4 v))
                  (fs st) |})
  end.
Proof.
  intros Hcur Hpath v d'.
  unfold update_data, try_except, bind at 1, read_data, dict_contains.
  rewrite Hcur. cbn [negb].
  unfold bind at 1, data_getitem at 1. rewrite Hcur.
  unfold bind at 1. rewrite (update_in_memory_run _ _ _ _ Hcur).
  fold v. fold d'.
  unfold bind at 1, DATA_FILES_getitem. rewrite Hpath. unfold ret at 1.
  unfold bind at 1, data_getitem at 1. cbn [data fs].
  unfold d' at 1. rewrite dict_get_set_same. fold d'.
  unfold bind at 1, write_text. cbn [data fs].
  destruct (condition (fs st) path); try reflexivity.
  unfold bind, data_getitem, ret. cbn [data fs].
  unfold d' at 1. rewrite dict_get_set_same. reflexivity.
Qed.

(** The name is in the store but has no configured file: [DATA_FILES[name]]
    raises after the value was merged. *)
Lemma update_data_unconfigured (req : UpdateRequest) (st : state)
    (current : json) :
  dict_get (file_name req) (data st) = Some current ->
  dict_get (file_name req) DATA_FILES = None ->
  update_data req st =
  (Raise (HTTPException 500
            ("Error updating data: " ++ repr_str (file_name req))),
   {| data := dict_set (file_name req) (merged current (new_data req)) (data st);
      fs := fs st |}).
Proof.
  intros Hcur Hpath.
  unfold update_data, try_except, bind at 1, read_data, dict_contains.
  rewrite Hcur. cbn [negb].
  unfold bind at 1, data_getitem at 1. rewrite Hcur.
  unfold bind at 1. rewrite (update_in_memory_run _ _ _ _ Hcur).
  unfold bind at 1, DATA_FILES_getitem. rewrite Hpath. reflexivity.
Qed.

(** No update adds or removes a name. *)
Lemma update_data_keys (req : UpdateRequest) (st : state) :
  dict_keys (data (snd (update_data req st))) = dict_keys (data st).
Proof.
  destruct (dict_get (file_name req) (data st)) as [current|] eqn:Hcur.
  - destruct (dict_get (file_name req) DATA_FILES) as [path|] eqn:Hpath.
    + rewrite (update_data_known _ _ _ _ Hcur Hpath).
      destruct (condition (fs st) path); simpl;
        apply (dict_keys_set_present _ _ _ _ Hcur).
    + rewrite (update_data_unconfigured _ _ _ Hcur Hpath). simpl.
      apply (dict_keys_set_present _ _ _ _ Hcur).
  - now rewrite (update_data_unknown _ _ Hcur).
Qed.

(* ================================================================ *)
(** ** Startup *)

Lemma load_entry_run (acc : pydict json) (key path : string) (st : state) :
  load_entry acc (key, path) st =
  (Return (dict_set key (loaded (fs st) path) acc), st).
Proof.
  unfold load_entry, try_except, bind, os_path_exists, read_text, json_load,
    loaded, dict_contains.
  cbn [fst snd].
  destruct (dict_get path (files (fs st))) as [text|] eqn:E; cbn [negb];
    [rewrite E|reflexivity].
  destruct (json_loads text); reflexivity.
Qed.

Lemma load_data_run (st : state) :
  load_data st =
  (Return (map (fun entry => (fst entry, loaded (fs st) (snd entry))) DATA_FILES),
   st).
Proof.
  unfold load_data, DATA_FILES. cbn [for_each map fst snd].
  repeat (unfold bind at 1; rewrite load_entry_run).
  reflexivity.
Qed.

Lemma startup_run (disk : filesystem) :
  startup disk =
  Return {| data := map (fun entry => (fst entry, loaded disk (snd entry)))
                        DATA_FILES;
            fs := disk |}.
Proof. unfold startup. now rewrite load_data_run. Qed.

(* ================================================================ *)
(** ** The names of the store never change *)

(** The state after a request to update: the state before it when the body
    was refused, the state the handler left when it was called. *)
Lemma post_admin_update_state (body : string) (st : state) :
  snd (post_admin_update body st) = st \/
  exists decoded req,
    json_loads body = Some decoded /\
    validate_UpdateRequest decoded = Valid req /\
    snd (post_admin_update body st) = snd (update_data req st).
Proof.
  unfold post_admin_update.
  destruct (json_loads body) as [decoded|]; [|now left].
  destruct (validate_UpdateRequest decoded) as [req|inputs] eqn:E.
  - right. exists decoded, req. rewrite respond_state. auto.
  - left. apply read_only_refuse.
Qed.

Lemma post_admin_update_keys (body : string) (st : state) :
  dict_keys (data (snd (post_admin_update body st))) = dict_keys (data st).
Proof.
  destruct (post_admin_update_state body st) as [->|(decoded & req & _ & _ & ->)];
    auto.
  apply update_data_keys.
Qed.

(** The requests that only read. *)
Lemma serve_reads (r : request) (st : state) :
  (forall body, r <> POST_admin_update body) -> snd (serve r st) = st.
Proof.
  intros Hr. destruct r as [ |name|body upstream|body| ]; cbn [serve].
  - apply read_only_respond, read_only_root.
  - apply read_only_respond, read_only_get_data.
  - apply read_only_post_chat.
  - now destruct (Hr body).
  - apply read_only_respond, read_only_get_available_files.
Qed.

Lemma step_keys (st : state) (ev : event) :
  dict_keys (data (step st ev)) = dict_keys (data st).
Proof.
  destruct ev as [[ |name|body upstream|body| ]|disk]; cbn [step]; auto;
    try (rewrite serve_reads by discriminate; reflexivity).
  apply post_admin_update_keys.
Qed.

Lemma run_keys (events : list event) (st : state) :
  dict_keys (data (run events st)) = dict_keys (data st).
Proof.
  unfold run. revert st. induction events as [|ev events IH]; intros st; simpl; auto.
  now rewrite IH, step_keys.
Qed.

Lemma startup_keys (disk : filesystem) (st0 : state) :
  startup disk = Return st0 -> dict_keys (data st0) = dict_keys DATA_FILES.
Proof.
  rewrite startup_run. intros H. inversion H. reflexivity.
Qed.

Lemma reachable_keys (st : state) :
  reachable st -> dict_keys (data st) = dict_keys DATA_FILES.
Proof.
  intros (disk & st0 & events & Hstart & <-).
  rewrite run_keys. eapply startup_keys; eauto.
Qed.

(* ================================================================ *)
(** ** Texts: appending and joining *)

Lemma append_assoc (a b c : string) : (a ++ b) ++ c = a ++ (b ++ c).
Proof. induction a as [|x a IH]; simpl; congruence. Qed.

Lemma append_nil_r (a : string) : a ++ "" = a.
Proof. induction a as [|x a IH]; simpl; congruence. Qed.

Lemma length_append (a b : string) :
  String.length (a ++ b) = String.length a + String.length b.
Proof. induction a as [|x a IH]; simpl; congruence. Qed.

Lemma occurs_in_concat (sep x : string) (l : list string) :
  In x l -> occurs_in x (String.concat sep l).
Proof.
  induction l as [|y l IH]; simpl; [tauto|].
  intros [->|Hin].
  - destruct l as [|z l].
    + exists "", "". now rewrite append_nil_r.
    + exists "", (sep ++ String.concat sep (z :: l)). reflexivity.
  - destruct l as [|z l]; [destruct Hin|].
    destruct (IH Hin) as (a & b & Hab).
    exists (y ++ sep ++ a), b. rewrite Hab.
    now rewrite !append_assoc.
Qed.

Lemma ends_with_concat (sep x : string) (l : list string) :
  ends_with (String.concat sep (l ++ [x])%list) x.
Proof.
  induction l as [|y l IH]; simpl.
  - now exists "".
  - destruct (l ++ [x])%list as [|z r] eqn:E.
    + now destruct l.
    + destruct IH as (a & Ha). exists (y ++ sep ++ a).
      rewrite Ha. now rewrite !append_assoc.
Qed.

(* ================================================================ *)
(** ** The context message *)

Lemma map_m_sections (st : state) (sections : list (string * string)) :
  (forall title key, In (title, key) sections ->
     exists v, dict_get key (data st) = Some v) ->
  exists contents,
    map_m (fun tk => content <- data_getitem (snd tk) ;; ret (fst tk, content))
          sections st = (Return contents, st) /\
    forall title key, In (title, key) sections ->
      exists v, dict_get key (data st) = Some v /\ In (title, v) contents.
Proof.
  induction sections as [|[title key] sections IH]; intros Hall.
  - exists []. split; [reflexivity | intros ? ? []].
  - destruct IH as (contents & Hrun & Hin).
    { intros t k Htk. apply (Hall t k). now right. }
    destruct (Hall title key) as (v & Hv); [now left|].
    exists ((title, v) :: contents). split.
    + cbn [map_m]. unfold bind at 1. unfold bind at 1, data_getitem at 1.
      cbn [fst snd]. rewrite Hv. unfold ret at 1.
      unfold bind at 1. rewrite Hrun. reflexivity.
    + intros t k [Heq|Htk].
      * inversion Heq; subst. exists v. split; auto. now left.
      * destruct (Hin t k Htk) as (w & Hw & Hwin).
        exists w. split; auto. now right.
Qed.

(* ================================================================ *)
(** ** Bodies that are refused *)

Lemma refuse_run (inputs : list json) (st : state) :
  exists e,
    refuse inputs st = (Raise e, st) /\
    (floats_finite (JArray inputs) = true ->
     strings_encodable (JArray inputs) = true -> e = RequestValidationError).
Proof.
  unfold refuse, bind, render.
  destruct (floats_finite (JArray inputs)); cbn [negb].
  - destruct (strings_encodable (JArray inputs)); cbn [negb].
    + now eexists.
    + eexists. split; [reflexivity|discriminate].
  - eexists. split; [reflexivity|discriminate].
Qed.

Lemma field_error_in (accepts : json -> bool) (name : string)
    (m : pydict json) (v : json) :
  In v (field_error accepts name m) ->
  v = JObject m \/ dict_get name m = Some v.
Proof.
  unfold field_error. destruct (dict_get name m) as [w|].
  - destruct (accepts w); [intros []|]. intros [<-|[]]. now right.
  - intros [<-|[]]. now left.
Qed.

Lemma floats_finite_get (k : string) (v : json) (m : pydict json) :
  floats_finite (JObject m) = true -> dict_get k m = Some v ->
  floats_finite v = true.
Proof.
  cbn [floats_finite].
  induction m as [|[k0 v0] m IH]; cbn [dict_get forallb snd]; [discriminate|].
  rewrite andb_true_iff. intros [H0 Hm].
  destruct (String.eqb k k0); auto. intros E. now inversion E; subst.
Qed.

Lemma strings_encodable_get (k : string) (v : json) (m : pydict json) :
  strings_encodable (JObject m) = true -> dict_get k m = Some v ->
  strings_encodable v = true.
Proof.
  cbn [strings_encodable].
  induction m as [|[k0 v0] m IH]; cbn [dict_get forallb fst snd]; [discriminate|].
  rewrite !andb_true_iff. intros [[_ H0] Hm].
  destruct (String.eqb k k0); auto. intros E. now inversion E; subst.
Qed.

(** The values that the errors of a body quote are parts of the body. *)
Lemma invalid_inputs_rendered (m : pydict json) (inputs : list json) :
  (forall v, In v inputs -> v = JObject m \/ exists k, dict_get k m = Some v) ->
  floats_finite (JObject m) = true -> strings_encodable (JObject m) = true ->
  floats_finite (JArray inputs) = true /\
  strings_encodable (JArray inputs) = true.
Proof.
  intros Hin Hf Hs. cbn [floats_finite strings_encodable].
  split; apply forallb_forall; intros v Hv;
    destruct (Hin v Hv) as [->|(k & Hk)]; auto.
  - eapply floats_finite_get; eauto.
  - eapply strings_encodable_get; eauto.
Qed.

Lemma validate_UpdateRequest_inputs (m : pydict json) (inputs : list json) :
  validate_UpdateRequest (JObject m) = Invalid inputs ->
  forall v, In v inputs -> v = JObject m \/ exists k, dict_get k m = Some v.
Proof.
  intros E v Hv.
  assert (Hin : In v (field_error isinstance_str "file_name" m ++
                      field_error isinstance_dict "new_data" m)%list).
  { unfold validate_UpdateRequest in E.
    destruct (dict_get "file_name" m) as [[]|];
      destruct (dict_get "new_data" m) as [[]|];
      inversion E; subst; exact Hv. }
  apply in_app_or in Hin.
  destruct Hin as [Hin|Hin]; apply field_error_in in Hin;
    destruct Hin as [->|Hin]; eauto.
Qed.

(* ================================================================ *)
(** ** The contract of the store *)

(** C5: startup never aborts, and after it every configured name is bound:
    getting it returns the parsed content of its file when the file is there
    and parses, and the empty object when the file is absent or does not
    parse. *)
Theorem startup_binds_every_name (disk : filesystem) :
  exists st,
    startup disk = Return st /\
    fs st = disk /\
    forall name path, dict_get name DATA_FILES = Some path ->
      (forall text v,
          dict_get path (files disk) = Some text -> json_loads text = Some v ->
          get_data name st = (Return (JObject [("data", v)]), st)) /\
      (dict_get path (files disk) = None \/
       (exists text, dict_get path (files disk) = Some text /\
                     json_loads text = None) ->
       get_data name st = (Return (JObject [("data", JObject [])]), st)).
Proof.
  eexists. split; [apply startup_run|]. split; [reflexivity|].
  intros name path Hpath.
  set (st := {| data := _; fs := disk |}).
  assert (Hget : dict_get name (data st) = Some (loaded disk path)).
  { unfold st, DATA_FILES in *. cbn [data map fst snd dict_get] in *.
    repeat match goal with
    | H : (if String.eqb ?a ?b then _ else _) = _ |- _ =>
        destruct (String.eqb a b); [injection H as <-; reflexivity|]
    end.
    discriminate. }
  assert (Hrun : get_data name st =
                 (Return (JObject [("data", loaded disk path)]), st)).
  { unfold get_data, bind, read_data, dict_contains, data_getitem.
    rewrite Hget. cbn [negb]. rewrite Hget. reflexivity. }
  rewrite Hrun. unfold loaded. split.
  - intros text v Htext Hv. now rewrite Htext, Hv.
  - intros [Hnone|(text & Htext & Hbad)].
    + now rewrite Hnone.
    + now rewrite Htext, Hbad.
Qed.

(** C7: the files endpoint answers the configured names, in the order of the
    configuration, whatever happened before, and the names of the store are
    the configured names after any events. *)
Theorem files_are_the_configured_names
    (disk : filesystem) (st0 : state) (events : list event) :
  startup disk = Return st0 ->
  let st := run events st0 in
  get_available_files st =
    (Return (JObject [("files", JArray (map JStr (dict_keys DATA_FILES)))]), st)
  /\ dict_keys DATA_FILES =
     [ "academic_deadlines"; "course_information"; "student_service_support";
       "library_books_list"; "transport_service"; "paper_recheck" ]
  /\ dict_keys (data st) = dict_keys DATA_FILES.
Proof.
  intros Hstart st. split; [reflexivity|]. split; [reflexivity|].
  unfold st. rewrite run_keys. eapply startup_keys; eauto.
Qed.

(** C8: on a store that binds the configured names, to any contents, the
    context message is built without an error; it holds, for every configured
    dataset, a header followed by the dataset printed with an indent of two,
    and it ends with the block of rules. *)
Theorem context_message_is_built (st : state) :
  dict_keys (data st) = dict_keys DATA_FILES ->
  exists text,
    create_context_message st = (Return text, st) /\
    (forall name, In name (dict_keys DATA_FILES) ->
       exists title v,
         In (title, name) data_sections_keys /\
         dict_get name (data st) = Some v /\
         occurs_in (newline ++ title ++ ":" ++ newline ++ json_dumps 2 v) text) /\
    ends_with text context_rules.
Proof.
  intros Hkeys.
  assert (Hbound : forall title key, In (title, key) data_sections_keys ->
                     exists v, dict_get key (data st) = Some v).
  { intros title key Hin. apply dict_get_in_keys. rewrite Hkeys.
    unfold data_sections_keys in Hin. cbn [In] in Hin.
    repeat (destruct Hin as [Hin|Hin]; [inversion Hin; subst; cbn; tauto|]).
    contradiction. }
  destruct (map_m_sections st data_sections_keys Hbound) as (contents & Hrun & Hin).
  eexists. split; [|split].
  - unfold create_context_message. unfold bind at 1. rewrite Hrun. reflexivity.
  - intros name Hname.
    assert (Htitle : exists title, In (title, name) data_sections_keys).
    { cbn in Hname.
      repeat (destruct Hname as [Hname|Hname];
              [subst; eexists; cbn; eauto 10|]).
      contradiction. }
    destruct Htitle as (title & Htitle).
    destruct (Hin title name Htitle) as (v & Hv & Hvin).
    exists title, v. split; auto. split; auto.
    apply occurs_in_concat. apply in_or_app. right. apply in_or_app. left.
    change (newline ++ title ++ ":" ++ newline ++ json_dumps 2 v)
      with (context_section (title, v)).
    now apply in_map.
  - rewrite app_assoc. apply ends_with_concat.
Qed.

(** C9: a name that is not configured is answered 404, never a value, in
    every state the process reaches, and getting a dataset leaves the state
    as it was. *)
Theorem get_data_unknown_is_not_found
    (disk : filesystem) (st0 : state) (events : list event) (name : string) :
  startup disk = Return st0 ->
  ~ In name (dict_keys DATA_FILES) ->
  let st := run events st0 in
  get_data name st = (Raise (HTTPException 404 "File not found"), st) /\
  http_status (fst (get_data name st)) = 404%Z /\
  (forall (s : state) (known : string), snd (get_data known s) = s).
Proof.
  intros Hstart Hname st.
  assert (Hget : dict_get name (data st) = None).
  { apply dict_get_not_in_keys. unfold st. rewrite run_keys.
    now rewrite (startup_keys _ _ Hstart). }
  assert (Hrun : get_data name st =
                 (Raise (HTTPException 404 "File not found"), st)).
  { unfold get_data, bind, read_data, dict_contains. now rewrite Hget. }
  split; [exact Hrun|]. split; [now rewrite Hrun|].
  intros s known. apply read_only_get_data.
Qed.

(** [update_data] on a dataset that is a sequence: the patch of the request,
    a mapping, is appended as one new element, whatever the write does
    afterwards; and a body whose [new_data] is no mapping does not pass the
    validation of [UpdateRequest], so the handler is not called for it. *)
Theorem update_sequence_appends_the_patch
    (req : UpdateRequest) (st : state) (l : list json) :
  dict_get (file_name req) (data st) = Some (JArray l) ->
  dict_get (file_name req) (data (snd (update_data req st))) =
    Some (JArray (l ++ [JObject (new_data req)])%list) /\
  (forall body members patch,
      json_loads body = Some (JObject members) ->
      dict_get "new_data" members = Some patch ->
      isinstance_dict patch = false ->
      exists e,
        post_admin_update body st = (Raise e, st) /\
        (floats_finite (JObject members) = true ->
         strings_encodable (JObject members) = true ->
         e = RequestValidationError /\ http_status (@Raise json e) = 422%Z)).
Proof.
  intros Hcur. split.
  - destruct (dict_get (file_name req) DATA_FILES) as [path|] eqn:Hpath.
    + rewrite (update_data_known _ _ _ _ Hcur Hpath).
      destruct (condition (fs st) path); cbn [snd data merged];
        apply dict_get_set_same.
    + rewrite (update_data_unconfigured _ _ _ Hcur Hpath).
      cbn [snd data merged]. apply dict_get_set_same.
  - intros body members patch Hbody Hpatch Hkind.
    unfold post_admin_update. rewrite Hbody.
    destruct (validate_UpdateRequest (JObject members)) as [r|inputs] eqn:E.
    + exfalso. unfold validate_UpdateRequest in E. rewrite Hpatch in E.
      destruct (dict_get "file_name" members) as [[]|];
        destruct patch; discriminate.
    + destruct (refuse_run inputs st) as (e & Hrun & He).
      exists e. split; [exact Hrun|]. intros Hf Hs.
      destruct (invalid_inputs_rendered members inputs
                  (validate_UpdateRequest_inputs _ _ E) Hf Hs) as [Hf' Hs'].
      rewrite (He Hf' Hs'). now split.
Qed.

(** C3: on a dataset that is a mapping, after the update every key of the
    patch is bound to the value the patch gives it and every other key to the
    value it had; so [{"midterm": "Oct 10"}] updated with
    [{"final": "Dec 15"}] is [{"midterm": "Oct 10", "final": "Dec 15"}]. *)
Theorem update_mapping_merges
    (req : UpdateRequest) (st : state) (m : pydict json) :
  dict_get (file_name req) (data st) = Some (JObject m) ->
  no_dup_keys (dict_keys (new_data req)) = true ->
  exists m',
    dict_get (file_name req) (data (snd (update_data req st))) =
      Some (JObject m') /\
    (forall k v, dict_get k (new_data req) = Some v -> dict_get k m' = Some v) /\
    (forall k, dict_get k (new_data req) = None ->
               dict_get k m' = dict_get k m) /\
    (m = [("midterm", JStr "Oct 10")] ->
     new_data req = [("final", JStr "Dec 15")] ->
     m' = [("midterm", JStr "Oct 10"); ("final", JStr "Dec 15")]).
Proof.
  intros Hcur Hwf. exists (dict_update m (new_data req)). split; [|split; [|split]].
  - destruct (dict_get (file_name req) DATA_FILES) as [path|] eqn:Hpath.
    + rewrite (update_data_known _ _ _ _ Hcur Hpath).
      destruct (condition (fs st) path); cbn [snd data merged];
        apply dict_get_set_same.
    + rewrite (update_data_unconfigured _ _ _ Hcur Hpath).
      cbn [snd data merged]. apply dict_get_set_same.
  - intros k v Hk. rewrite dict_get_update, dict_get_rev by assumption.
    now rewrite Hk.
  - intros k Hk. rewrite dict_get_update, dict_get_rev by assumption.
    now rewrite Hk.
  - intros -> ->. reflexivity.
Qed.

(** C4: when the value was merged in memory and the write of the file fails,
    the caller gets the update-failed error, a 500, and the store keeps the
    merged value. *)
Theorem failed_write_keeps_merged_value
    (req : UpdateRequest) (st : state) (current : json) (path : string) :
  dict_get (file_name req) (data st) = Some current ->
  dict_get (file_name req) DATA_FILES = Some path ->
  condition (fs st) path <> Writable ->
  (exists msg,
      fst (update_data req st) =
      Raise (HTTPException 500 ("Error updating data: " ++ msg))) /\
  http_status (fst (update_data req st)) = 500%Z /\
  data (snd (update_data req st)) =
    data (snd (update_in_memory (file_name req) current (new_data req) st)) /\
  dict_get (file_name req) (data (snd (update_data req st))) =
    Some (merged current (new_data req)).
Proof.
  intros Hcur Hpath Hfail.
  rewrite (update_data_known _ _ _ _ Hcur Hpath).
  rewrite (update_in_memory_run _ _ _ _ Hcur).
  destruct (condition (fs st) path) as [|msg|written msg]; [congruence| |];
    cbn [fst snd data http_status];
    (split; [now exists msg|]); (split; [reflexivity|]);
    (split; [reflexivity|]); apply dict_get_set_same.
Qed.

(** C10, amended: on a configured dataset that is neither a mapping nor a
    sequence the update leaves the store as it was, whatever the write does;
    when the write goes through, the file is rewritten with the unchanged
    value and success is answered with it; when the write fails, the answer
    is the update-failed error, a 500, and not success. *)
Theorem update_scalar_changes_nothing_in_memory
    (req : UpdateRequest) (st : state) (current : json) (path : string) :
  dict_get (file_name req) (data st) = Some current ->
  dict_get (file_name req) DATA_FILES = Some path ->
  isinstance_dict current = false ->
  isinstance_list current = false ->
  data (snd (update_data req st)) = data st /\
  (condition (fs st) path = Writable ->
   update_data req st =
     (Return (update_success (file_name req) current),
      {| data := data st; fs := put_file path (json_dumps 4 current) (fs st) |})
   /\ dict_get path (files (fs (snd (update_data req st)))) =
      Some (json_dumps 4 current)) /\
  (condition (fs st) path <> Writable ->
   (exists msg,
      fst (update_data req st) =
      Raise (HTTPException 500 ("Error updating data: " ++ msg))) /\
   http_status (fst (update_data req st)) = 500%Z).
Proof.
  intros Hcur Hpath Hd Hl.
  rewrite (update_data_known _ _ _ _ Hcur Hpath).
  assert (Hm : merged current (new_data req) = current)
    by (destruct current; simpl in *; congruence).
  rewrite Hm, (dict_set_same_value _ _ _ Hcur). split; [|split].
  - now destruct (condition (fs st) path).
  - intros ->. split; [reflexivity|]. cbn [snd fs put_file files].
    apply dict_get_set_same.
  - intros Hfail.
    destruct (condition (fs st) path) as [|msg|written msg]; [congruence| |];
      cbn [fst http_status]; (split; [now exists msg|reflexivity]).
Qed.

(* ================================================================ *)
(** ** Decoding what was encoded: numbers *)

(** Linear arithmetic with quotients and remainders by constants. *)
Ltac div_lia := zify; Z.to_euclidean_division_equations; lia.

Lemma delimited_cases (rest : string) :
  delimited rest = true ->
  rest = "" \/ exists r, rest = String LF r \/ rest = String "," r.
Proof.
  destruct rest as [|c r]; cbn [delimited]; auto.
  rewrite orb_true_iff. intros [H|H]; apply Ascii.eqb_eq in H; subst; eauto.
Qed.

Lemma delimited_no_digit (rest : string) :
  delimited rest = true -> digit_head rest = false.
Proof.
  intros H. destruct (delimited_cases rest H) as [->|(r & [->| ->])]; reflexivity.
Qed.

Lemma span_digits_app (d t : string) :
  digit_head t = false ->
  span_digits (d ++ t) = (fst (span_digits d), snd (span_digits d) ++ t).
Proof.
  intros H. induction d as [|c d IH]; cbn [append span_digits fst snd].
  - destruct t as [|c t]; [reflexivity|].
    cbn [digit_head] in H. cbn [span_digits]. now rewrite H.
  - destruct (is_digit c); [|reflexivity].
    rewrite IH. now destruct (span_digits d).
Qed.

Lemma span_digits_consumed (s : string) :
  s = fst (span_digits s) ++ snd (span_digits s).
Proof.
  induction s as [|c s IH]; cbn [span_digits]; [reflexivity|].
  destruct (is_digit c); [|reflexivity].
  destruct (span_digits s); cbn [fst snd append] in *. now f_equal.
Qed.

(** The digits that were read are digits, and no digit follows them. *)
Lemma span_digits_spec (s : string) :
  span_digits (fst (span_digits s)) = (fst (span_digits s), "") /\
  digit_head (snd (span_digits s)) = false.
Proof.
  induction s as [|c s (IH1 & IH2)]; cbn [span_digits]; [now split|].
  destruct (is_digit c) eqn:E.
  - destruct (span_digits s) as [d r]; cbn [fst snd] in *.
    cbn [span_digits]. rewrite E, IH1. now split.
  - cbn [fst snd span_digits digit_head]. now split.
Qed.

Lemma span_digits_again (s t : string) :
  digit_head t = false ->
  span_digits (fst (span_digits s) ++ t) = (fst (span_digits s), t).
Proof.
  intros H. rewrite span_digits_app by assumption.
  now rewrite (proj1 (span_digits_spec s)).
Qed.

Lemma match_natural_app (s t : string) :
  s <> "" -> digit_head t = false ->
  match_natural (s ++ t) = then_rest t (match_natural s).
Proof.
  intros Hs H. destruct s as [|c s]; [congruence|]. cbn [append match_natural].
  destruct (Ascii.eqb c "0"); [reflexivity|].
  destruct (is_digit c); [|reflexivity].
  change (String c (s ++ t)) with (String c s ++ t).
  rewrite span_digits_app by assumption.
  now destruct (span_digits (String c s)).
Qed.

Lemma match_natural_nonempty (s t r : string) :
  match_natural s = Some (t, r) -> t <> "".
Proof.
  destruct s as [|c s]; cbn [match_natural]; [discriminate|].
  destruct (Ascii.eqb c "0"); [intros E; now inversion E|].
  destruct (is_digit c) eqn:Ed; [|discriminate].
  cbn [span_digits]. rewrite Ed. destruct (span_digits s).
  intros E. now inversion E.
Qed.

Lemma match_integer_app (s t : string) :
  match_integer s <> None -> digit_head t = false ->
  match_integer (s ++ t) = then_rest t (match_integer s).
Proof.
  intros Hs H. destruct s as [|c s]; [now destruct Hs|].
  cbn [append match_integer] in *. destruct (Ascii.eqb c "-").
  - destruct s as [|c' s]; [now destruct Hs|].
    rewrite match_natural_app by (assumption || discriminate).
    now destruct (match_natural (String c' s)) as [[a b]|].
  - change (String c (s ++ t)) with (String c s ++ t).
    apply match_natural_app; [discriminate|assumption].
Qed.

Lemma match_natural_consumed (s t r : string) :
  match_natural s = Some (t, r) -> s = t ++ r.
Proof.
  destruct s as [|c s]; cbn [match_natural]; [discriminate|].
  destruct (Ascii.eqb_spec c "0") as [->|_].
  - intros E. now inversion E.
  - destruct (is_digit c); [|discriminate].
    intros E. assert (E' : span_digits (String c s) = (t, r)) by congruence.
    pose proof (span_digits_consumed (String c s)) as H.
    now rewrite E' in H.
Qed.

Lemma match_integer_consumed (s t r : string) :
  match_integer s = Some (t, r) -> s = t ++ r.
Proof.
  destruct s as [|c s]; cbn [match_integer]; [discriminate|].
  destruct (Ascii.eqb_spec c "-") as [->|_].
  - destruct (match_natural s) as [[t' r']|] eqn:E; [|discriminate].
    apply match_natural_consumed in E. intros E'. inversion E'; subst.
    reflexivity.
  - apply match_natural_consumed.
Qed.

Lemma match_fraction_consumed (s : string) :
  s = fst (match_fraction s) ++ snd (match_fraction s).
Proof.
  destruct s as [|c s]; cbn [match_fraction]; [reflexivity|].
  destruct (Ascii.eqb c "."); [|reflexivity].
  pose proof (span_digits_consumed s) as H.
  destruct (span_digits s) as [[|d ds] r']; [reflexivity|].
  cbn [fst snd append] in *. now f_equal.
Qed.

Lemma match_exponent_consumed (s : string) :
  s = fst (match_exponent s) ++ snd (match_exponent s).
Proof.
  destruct s as [|c s]; cbn [match_exponent]; [reflexivity|].
  destruct (Ascii.eqb c "e" || Ascii.eqb c "E"); [|reflexivity].
  destruct s as [|x s].
  - reflexivity.
  - destruct (Ascii.eqb x "-" || Ascii.eqb x "+").
    + pose proof (span_digits_consumed s) as H.
      destruct (span_digits s) as [[|d ds] r']; [reflexivity|].
      cbn [fst snd append] in *. now do 2 f_equal.
    + pose proof (span_digits_consumed (String x s)) as H.
      destruct (span_digits (String x s)) as [[|d ds] r']; [reflexivity|].
      cbn [fst snd append] in *. now f_equal.
Qed.

(** What may follow a fraction, and what may follow an exponent: the text
    that follows does not go on with the number. *)
Lemma match_fraction_app (s t : string) :
  digit_head t = false -> head_is "." t = false ->
  match_fraction (s ++ t) =
  (fst (match_fraction s), snd (match_fraction s) ++ t).
Proof.
  intros Hd Hp. destruct s as [|c s]; cbn [append].
  - destruct t as [|c t]; [reflexivity|].
    cbn [head_is] in Hp. cbn [match_fraction]. now rewrite Hp.
  - cbn [match_fraction]. destruct (Ascii.eqb c "."); [|reflexivity].
    rewrite span_digits_app by assumption.
    destruct (span_digits s) as [[|d ds] r']; reflexivity.
Qed.

Lemma match_exponent_app (s t : string) :
  delimited t = true ->
  match_exponent (s ++ t) =
  (fst (match_exponent s), snd (match_exponent s) ++ t).
Proof.
  intros H. pose proof (delimited_no_digit t H) as Hd.
  destruct s as [|c s]; cbn [append].
  - destruct (delimited_cases t H) as [->|(r & [->| ->])]; reflexivity.
  - cbn [match_exponent]. destruct (Ascii.eqb c "e" || Ascii.eqb c "E");
      [|reflexivity].
    destruct s as [|x s]; cbn [append].
    + destruct (delimited_cases t H) as [->|(r & [->| ->])]; reflexivity.
    + destruct (Ascii.eqb x "-" || Ascii.eqb x "+").
      * rewrite span_digits_app by assumption.
        destruct (span_digits s) as [[|d ds] r']; reflexivity.
      * change (String x (s ++ t)) with (String x s ++ t).
        rewrite span_digits_app by assumption.
        destruct (span_digits (String x s)) as [[|d ds] r']; reflexivity.
Qed.

Lemma delimited_no_point (rest : string) :
  delimited rest = true -> head_is "." rest = false.
Proof.
  intros H. destruct (delimited_cases rest H) as [->|(r & [->| ->])]; reflexivity.
Qed.

(** The number at the head of [s ++ rest] is the number at the head of
    [s]. *)
Lemma scan_number_app (s rest : string) :
  delimited rest = true ->
  scan_number (s ++ rest) =
  match scan_number s with
  | Some (v, r) => Some (v, r ++ rest)
  | None =>
      match s with
      | EmptyString => scan_number rest
      | _ => None
      end
  end.
Proof.
  intros H. pose proof (delimited_no_digit rest H) as Hd.
  pose proof (delimited_no_point rest H) as Hp.
  unfold scan_number at 1 2.
  destruct (match_integer s) as [[integer r]|] eqn:Ei.
  - rewrite match_integer_app, Ei by (assumption || congruence).
    cbn [then_rest]. rewrite match_fraction_app by assumption.
    destruct (match_fraction r) as [frac r1]. cbn [fst snd].
    rewrite match_exponent_app by assumption.
    destruct (match_exponent r1) as [exp r2]. cbn [fst snd].
    destruct (frac ++ exp); reflexivity.
  - destruct s as [|c s]; [reflexivity|].
    cbn [append match_integer] in *.
    destruct (Ascii.eqb c "-").
    + destruct s as [|c' s].
      * cbn [append].
        destruct (delimited_cases rest H) as [->|(r & [->| ->])]; reflexivity.
      * rewrite match_natural_app by (assumption || discriminate).
        destruct (match_natural (String c' s)) as [[a b]|];
          [discriminate|reflexivity].
    + change (String c (s ++ rest)) with (String c s ++ rest).
      rewrite match_natural_app by (assumption || discriminate).
      now rewrite Ei.
Qed.

(** A float literal is read as the float it writes. *)
Lemma scan_number_float (s : string) :
  is_float_literal s = true ->
  scan_number s = Some (JFloat (parse_float s), "").
Proof.
  unfold is_float_literal, scan_number.
  destruct (match_integer s) as [[integer r]|] eqn:Ei; [|discriminate].
  apply match_integer_consumed in Ei.
  pose proof (match_fraction_consumed r) as Ef.
  destruct (match_fraction r) as [frac r1]. cbn [fst snd] in Ef.
  pose proof (match_exponent_consumed r1) as Ee.
  destruct (match_exponent r1) as [exp r2]. cbn [fst snd] in Ee.
  rewrite andb_true_iff, negb_true_iff. intros [Htail Hend].
  apply String.eqb_eq in Hend. subst r2. rewrite append_nil_r in Ee. subst r1 r s.
  destruct (frac ++ exp) eqn:E; [now rewrite String.eqb_refl in Htail|].
  reflexivity.
Qed.

Lemma scan_number_float_literal (s rest : string) :
  is_float_literal s = true -> delimited rest = true ->
  scan_number (s ++ rest) = Some (JFloat (parse_float s), rest).
Proof.
  intros Hs H. rewrite scan_number_app by assumption.
  now rewrite scan_number_float.
Qed.

Lemma span_digits_string_of_uint (u : uint) :
  span_digits (NilEmpty.string_of_uint u) = (NilEmpty.string_of_uint u, "").
Proof.
  induction u; cbn [NilEmpty.string_of_uint]; [reflexivity| ..];
    cbn [span_digits]; rewrite IHu; reflexivity.
Qed.

Lemma unorm_leading_zero (d d' : uint) : unorm d = D0 d' -> d' = Nil.
Proof.
  induction d; cbn [unorm]; intros H; try discriminate; auto.
  now inversion H.
Qed.

(** The decimal writing of a positive number starts with a digit that is
    not zero. *)
Lemma to_uint_leading (p : positive) :
  match Pos.to_uint p with
  | Nil | D0 _ => False
  | _ => True
  end.
Proof.
  pose proof (Unsigned.to_of (Pos.to_uint p)) as Hnorm.
  rewrite Unsigned.of_to in Hnorm. cbn [N.to_uint] in Hnorm.
  pose proof (Unsigned.to_uint_nonzero p) as Hnz.
  pose proof (Unsigned.to_uint_nonnil p) as Hnn.
  destruct (Pos.to_uint p) eqn:E; auto.
  cbn [unorm] in Hnorm. symmetry in Hnorm.
  apply unorm_leading_zero in Hnorm. subst. now apply Hnz.
Qed.

Lemma match_natural_pos (p : positive) :
  match_natural (NilEmpty.string_of_uint (Pos.to_uint p)) =
  Some (NilEmpty.string_of_uint (Pos.to_uint p), "").
Proof.
  pose proof (to_uint_leading p) as Hlead.
  pose proof (span_digits_string_of_uint (Pos.to_uint p)) as Hspan.
  destruct (Pos.to_uint p) eqn:E; try contradiction;
    cbn [NilEmpty.string_of_uint] in *; unfold match_natural;
    cbn [Ascii.eqb Bool.eqb]; rewrite Hspan; reflexivity.
Qed.

Lemma str_of_int_pos (p : positive) :
  str_of_int (Z.pos p) = NilEmpty.string_of_uint (Pos.to_uint p).
Proof.
  unfold str_of_int. cbn [Z.to_int NilZero.string_of_int].
  unfold NilZero.string_of_uint.
  pose proof (to_uint_leading p). now destruct (Pos.to_uint p).
Qed.

Lemma str_of_int_neg (p : positive) :
  str_of_int (Z.neg p) = String "-" (NilEmpty.string_of_uint (Pos.to_uint p)).
Proof.
  unfold str_of_int. cbn [Z.to_int NilZero.string_of_int].
  unfold NilZero.string_of_uint.
  pose proof (to_uint_leading p). now destruct (Pos.to_uint p).
Qed.

Lemma match_integer_str_of_int (n : Z) :
  match_integer (str_of_int n) = Some (str_of_int n, "").
Proof.
  destruct n as [|p|p].
  - reflexivity.
  - rewrite str_of_int_pos.
    pose proof (match_natural_pos p) as Hnat.
    pose proof (to_uint_leading p) as Hlead.
    destruct (Pos.to_uint p) eqn:E; try contradiction;
      cbn [NilEmpty.string_of_uint] in *; unfold match_integer;
      cbn [Ascii.eqb Bool.eqb]; exact Hnat.
  - rewrite str_of_int_neg. cbn [match_integer Ascii.eqb Bool.eqb].
    now rewrite match_natural_pos.
Qed.

Lemma int_of_str_of_int (n : Z) : int_of_str (str_of_int n) = n.
Proof.
  unfold int_of_str, str_of_int. rewrite NilZero.isi.
  - apply DecimalZ.of_to.
  - destruct n as [|p|p]; cbn [Z.to_int]; try discriminate.
    intros E. inversion E as [E']. now apply Unsigned.to_uint_nonnil in E'.
  - destruct n as [|p|p]; cbn [Z.to_int]; try discriminate.
    intros E. inversion E as [E']. now apply Unsigned.to_uint_nonnil in E'.
Qed.

Lemma scan_number_str_of_int (n : Z) (rest : string) :
  delimited rest = true ->
  scan_number (str_of_int n ++ rest) = Some (JInt n, rest).
Proof.
  intros H. rewrite scan_number_app by assumption.
  unfold scan_number. rewrite match_integer_str_of_int.
  cbn [match_fraction match_exponent append]. now rewrite int_of_str_of_int.
Qed.

Lemma match_integer_head (s t r rest : string) :
  match_integer s = Some (t, r) -> number_head (s ++ rest) = true.
Proof.
  destruct s as [|c s]; cbn [match_integer append number_head]; [discriminate|].
  destruct (Ascii.eqb c "-"); [now rewrite orb_true_r|].
  cbn [match_natural]. destruct (Ascii.eqb_spec c "0") as [->|_]; [reflexivity|].
  destruct (is_digit c); [reflexivity|discriminate].
Qed.

Lemma str_of_int_head (n : Z) (rest : string) :
  number_head (str_of_int n ++ rest) = true.
Proof.
  eapply match_integer_head. apply match_integer_str_of_int.
Qed.

Lemma float_literal_head (s rest : string) :
  is_float_literal s = true -> number_head (s ++ rest) = true.
Proof.
  unfold is_float_literal.
  destruct (match_integer s) as [[t r]|] eqn:E; [|discriminate].
  intros _. eapply match_integer_head; eauto.
Qed.

(* ================================================================ *)
(** ** Reading a float: the text that was read is a literal *)

Lemma match_natural_again (s t r tail : string) :
  match_natural s = Some (t, r) -> digit_head tail = false ->
  match_natural (t ++ tail) = Some (t, tail).
Proof.
  destruct s as [|c s]; cbn [match_natural]; [discriminate|].
  destruct (Ascii.eqb_spec c "0") as [->|Hc].
  - intros E _. inversion E; subst. reflexivity.
  - destruct (is_digit c) eqn:Ed; [|discriminate].
    intros E Htail.
    assert (E' : span_digits (String c s) = (t, r)) by congruence.
    pose proof (span_digits_again (String c s) tail Htail) as Hagain.
    rewrite E' in Hagain. cbn [fst] in Hagain.
    cbn [span_digits] in E'. rewrite Ed in E'.
    destruct (span_digits s) as [d r']. inversion E'; subst.
    cbn [append match_natural].
    destruct (Ascii.eqb_spec c "0") as [->|_]; [congruence|].
    rewrite Ed. now rewrite <- Hagain.
Qed.

Lemma match_integer_again (s t r tail : string) :
  match_integer s = Some (t, r) -> digit_head tail = false ->
  match_integer (t ++ tail) = Some (t, tail).
Proof.
  destruct s as [|c s]; cbn [match_integer]; [discriminate|].
  destruct (Ascii.eqb_spec c "-") as [->|Hc].
  - destruct (match_natural s) as [[t' r']|] eqn:E; [|discriminate].
    intros E' Htail. inversion E'; subst. cbn [append match_integer].
    cbn [Ascii.eqb Bool.eqb].
    now rewrite (match_natural_again _ _ _ _ E Htail).
  - intros E Htail.
    pose proof (match_natural_again _ _ _ _ E Htail) as Hagain.
    pose proof (match_natural_nonempty _ _ _ E) as Hne.
    cbn [match_natural] in E.
    destruct t as [|c' t]; [congruence|].
    assert (Hc' : c' = c).
    { destruct (Ascii.eqb_spec c "0") as [->|_]; [now inversion E|].
      destruct (is_digit c) eqn:Ed; [|discriminate].
      cbn [span_digits] in E. rewrite Ed in E.
      destruct (span_digits s). now inversion E. }
    subst c'. cbn [append match_integer].
    destruct (Ascii.eqb_spec c "-"); [congruence|]. exact Hagain.
Qed.

(** The first character of a fraction and of an exponent is no digit. *)
Lemma match_fraction_head (s : string) :
  digit_head (fst (match_fraction s)) = false.
Proof.
  destruct s as [|c s]; cbn [match_fraction]; [reflexivity|].
  destruct (Ascii.eqb_spec c ".") as [->|_]; [|reflexivity].
  destruct (span_digits s) as [[|d ds] r']; reflexivity.
Qed.

Lemma match_exponent_head (s : string) :
  digit_head (fst (match_exponent s)) = false /\
  head_is "." (fst (match_exponent s)) = false.
Proof.
  destruct s as [|c s]; cbn [match_exponent]; [now split|].
  destruct (Ascii.eqb c "e" || Ascii.eqb c "E") eqn:Ec; [|now split].
  assert (Hc : is_digit c = false /\ Ascii.eqb c "." = false).
  { apply orb_true_iff in Ec.
    destruct Ec as [Ec|Ec]; apply Ascii.eqb_eq in Ec; subst; now split. }
  destruct s as [|x s]; [now split|].
  destruct (Ascii.eqb x "-" || Ascii.eqb x "+").
  - destruct (span_digits s) as [[|d ds] r']; [now split|].
    cbn [fst digit_head head_is]. tauto.
  - destruct (span_digits (String x s)) as [[|d ds] r']; [now split|].
    cbn [fst digit_head head_is]. tauto.
Qed.

Lemma match_fraction_again (s tail : string) :
  digit_head tail = false -> head_is "." tail = false ->
  match_fraction (fst (match_fraction s) ++ tail) =
  (fst (match_fraction s), tail).
Proof.
  intros Hd Hp. destruct s as [|c s]; cbn [match_fraction].
  - cbn [fst append]. destruct tail as [|c t]; [reflexivity|].
    cbn [head_is] in Hp. cbn [match_fraction]. now rewrite Hp.
  - destruct (Ascii.eqb_spec c ".") as [->|Hc].
    + pose proof (span_digits_again s tail Hd) as Hagain.
      destruct (span_digits s) as [[|d ds] r'] eqn:E; cbn [fst] in *.
      * cbn [append]. destruct tail as [|c t]; [reflexivity|].
        cbn [head_is] in Hp. cbn [match_fraction]. now rewrite Hp.
      * cbn [append match_fraction Ascii.eqb Bool.eqb].
        cbn [append] in Hagain. now rewrite Hagain.
    + cbn [fst append]. destruct tail as [|c' t]; [reflexivity|].
      cbn [head_is] in Hp. cbn [match_fraction]. now rewrite Hp.
Qed.

Lemma match_exponent_again (s : string) :
  match_exponent (fst (match_exponent s)) = (fst (match_exponent s), "").
Proof.
  destruct s as [|c s]; cbn [match_exponent]; [reflexivity|].
  destruct (Ascii.eqb c "e" || Ascii.eqb c "E") eqn:Ec; [|reflexivity].
  destruct s as [|x s]; [reflexivity|].
  destruct (Ascii.eqb x "-" || Ascii.eqb x "+") eqn:Ex.
  - pose proof (span_digits_spec s) as [Hagain _].
    destruct (span_digits s) as [[|d ds] r'] eqn:E; [reflexivity|].
    cbn [fst append] in *. cbn [match_exponent]. rewrite Ec, Ex.
    now rewrite Hagain.
  - pose proof (span_digits_spec (String x s)) as [Hagain _].
    destruct (span_digits (String x s)) as [[|d ds] r'] eqn:E; [reflexivity|].
    cbn [fst append] in *. cbn [match_exponent]. rewrite Ec.
    assert (Hx : d = x).
    { cbn [span_digits] in E. destruct (is_digit x); [|discriminate].
      destruct (span_digits s). now inversion E. }
    subst d. rewrite Ex. now rewrite Hagain.
Qed.

(** What [scan_number] hands to [parse_float] is a float literal. *)
Lemma scan_number_reads_literal (s : string) (x : string) (r : string) :
  scan_number s = Some (JFloat x, r) ->
  exists literal, is_float_literal literal = true /\ x = parse_float literal.
Proof.
  unfold scan_number.
  destruct (match_integer s) as [[integer r0]|] eqn:Ei; [|discriminate].
  pose proof (match_fraction_again r0) as Hf.
  pose proof (match_fraction_head r0) as Hfh.
  destruct (match_fraction r0) as [frac r1]. cbn [fst] in Hf, Hfh.
  pose proof (match_exponent_again r1) as He.
  pose proof (match_exponent_head r1) as [Hed Hep].
  destruct (match_exponent r1) as [exp r2]. cbn [fst] in He, Hed, Hep.
  destruct (frac ++ exp) as [|c tail] eqn:Etail; [discriminate|].
  intros E. inversion E; subst. exists (integer ++ String c tail).
  split; [|reflexivity]. rewrite <- Etail. unfold is_float_literal.
  assert (Hhead : digit_head (frac ++ exp) = false).
  { destruct frac; [exact Hed|exact Hfh]. }
  rewrite (match_integer_again _ _ _ _ Ei Hhead).
  rewrite (Hf exp Hed Hep), He, Etail. reflexivity.
Qed.

(* ================================================================ *)
(** ** Decoding what was encoded: strings *)

Lemma continuation_inv (s : string) (x : N) (r : string) :
  continuation s = Some (x, r) ->
  exists b, s = String b r /\ N_of_ascii b = (128 + x)%N /\ (x < 64)%N.
Proof.
  destruct s as [|b s]; cbn [continuation]; [discriminate|].
  destruct (N.leb_spec 128 (N_of_ascii b)); cbn [andb]; [|discriminate].
  destruct (N.ltb_spec (N_of_ascii b) 192); [|discriminate].
  intros Heq. inversion Heq; subst. exists b. repeat split; lia.
Qed.

Lemma ascii_of_byte (b : ascii) (n : N) : N_of_ascii b = n -> ascii_of_N n = b.
Proof. intros <-. apply ascii_N_embedding. Qed.

(** A code point that was read off a text is written there in UTF-8. *)
Lemma utf8_head_encode (s : string) (cp : N) (rest : string) :
  utf8_head s = Some (cp, rest) ->
  s = utf8_encode cp ++ rest /\ (cp < 1114112)%N.
Proof.
  destruct s as [|b r]; cbn [utf8_head]; [discriminate|].
  set (n := N_of_ascii b). assert (Hn : N_of_ascii b = n) by reflexivity.
  clearbody n.
  destruct (N.ltb_spec n 128) as [L1|L1].
  { intros E. injection E as <- <-. unfold utf8_encode.
    destruct (N.ltb_spec n 128); [|div_lia].
    rewrite <- Hn, ascii_N_embedding. split; [reflexivity|div_lia]. }
  destruct (N.ltb_spec n 194) as [L2|L2]; [discriminate|].
  destruct (N.ltb_spec n 224) as [L3|L3].
  { destruct (continuation r) as [[x r1]|] eqn:E1; [|discriminate].
    apply continuation_inv in E1. destruct E1 as (b1 & -> & B1 & Hx).
    intros E. injection E as <- <-. unfold utf8_encode.
    destruct (N.ltb_spec ((n - 192) * 64 + x) 128); [div_lia|].
    destruct (N.ltb_spec ((n - 192) * 64 + x) 2048); [|div_lia].
    cbn [append]. split; [|div_lia].
    f_equal; [|f_equal]; symmetry; apply ascii_of_byte; div_lia. }
  destruct (N.ltb_spec n 240) as [L4|L4].
  { destruct (continuation r) as [[x r1]|] eqn:E1; [|discriminate].
    apply continuation_inv in E1. destruct E1 as (b1 & -> & B1 & Hx).
    destruct (continuation r1) as [[y r2]|] eqn:E2; [|discriminate].
    apply continuation_inv in E2. destruct E2 as (b2 & -> & B2 & Hy).
    cbv zeta.
    destruct (N.leb_spec 2048 ((n - 224) * 4096 + x * 64 + y)) as [L5|L5];
      [|discriminate].
    intros E. injection E as <- <-. unfold utf8_encode.
    destruct (N.ltb_spec ((n - 224) * 4096 + x * 64 + y) 128); [div_lia|].
    destruct (N.ltb_spec ((n - 224) * 4096 + x * 64 + y) 2048); [div_lia|].
    destruct (N.ltb_spec ((n - 224) * 4096 + x * 64 + y) 65536); [|div_lia].
    cbn [append]. split; [|div_lia].
    f_equal; [|f_equal; [|f_equal]]; symmetry; apply ascii_of_byte; div_lia. }
  destruct (N.ltb_spec n 245) as [L5|L5]; [|discriminate].
  destruct (continuation r) as [[x r1]|] eqn:E1; [|discriminate].
  apply continuation_inv in E1. destruct E1 as (b1 & -> & B1 & Hx).
  destruct (continuation r1) as [[y r2]|] eqn:E2; [|discriminate].
  apply continuation_inv in E2. destruct E2 as (b2 & -> & B2 & Hy).
  destruct (continuation r2) as [[z r3]|] eqn:E3; [|discriminate].
  apply continuation_inv in E3. destruct E3 as (b3 & -> & B3 & Hz).
  cbv zeta.
  destruct (N.leb_spec 65536 ((n - 240) * 262144 + x * 4096 + y * 64 + z))
    as [L6|L6]; cbn [andb]; [|discriminate].
  destruct (N.ltb_spec ((n - 240) * 262144 + x * 4096 + y * 64 + z) 1114112)
    as [L7|L7]; [|discriminate].
  intros E. injection E as <- <-. unfold utf8_encode.
  destruct (N.ltb_spec ((n - 240) * 262144 + x * 4096 + y * 64 + z) 128);
    [div_lia|].
  destruct (N.ltb_spec ((n - 240) * 262144 + x * 4096 + y * 64 + z) 2048);
    [div_lia|].
  destruct (N.ltb_spec ((n - 240) * 262144 + x * 4096 + y * 64 + z) 65536);
    [div_lia|].
  cbn [append]. split; [|div_lia].
  f_equal; [|f_equal; [|f_equal; [|f_equal]]]; symmetry; apply ascii_of_byte;
    div_lia.
Qed.

Lemma hex_value_digit (n : N) :
  (n < 16)%N -> hex_value (hex_digit n) = Some n.
Proof.
  intros H.
  assert (Hn : In n [0; 1; 2; 3; 4; 5; 6; 7; 8; 9; 10; 11; 12; 13; 14; 15]%N)
    by (cbn [In]; lia).
  cbn [In] in Hn.
  repeat (destruct Hn as [<-|Hn]; [reflexivity|]). contradiction.
Qed.

Lemma decode_hex4 (n : N) (t : string) :
  (n < 65536)%N ->
  exists h1 h2 h3 h4,
    hex4 n ++ t = String h1 (String h2 (String h3 (String h4 t))) /\
    decode_uXXXX h1 h2 h3 h4 = Some n.
Proof.
  intros H. unfold hex4, hex2. do 4 eexists. split; [reflexivity|].
  unfold decode_uXXXX. rewrite !hex_value_digit by div_lia.
  f_equal. div_lia.
Qed.

Lemma scan_string_escape (h1 h2 h3 h4 : ascii) (uni : N) (t : string) :
  decode_uXXXX h1 h2 h3 h4 = Some uni ->
  is_high_surrogate uni = false ->
  scan_string (String "\" (String "u" (String h1 (String h2 (String h3
                 (String h4 t)))))) =
  prepend (utf8_encode uni) (scan_string t).
Proof.
  intros Hd Hh. cbn [scan_string Ascii.eqb Bool.eqb DQUOTE].
  rewrite Hd, Hh. cbn [andb].
  destruct t as [|a [|b [|k1 [|k2 [|k3 [|k4 r3]]]]]]; reflexivity.
Qed.

Lemma scan_string_pair (h1 h2 h3 h4 k1 k2 k3 k4 : ascii) (high low : N)
    (t : string) :
  decode_uXXXX h1 h2 h3 h4 = Some high ->
  decode_uXXXX k1 k2 k3 k4 = Some low ->
  is_high_surrogate high = true ->
  is_low_surrogate low = true ->
  scan_string (String "\" (String "u" (String h1 (String h2 (String h3
                 (String h4 (String "\" (String "u" (String k1 (String k2
                    (String k3 (String k4 t)))))))))))) =
  prepend (utf8_encode (join_surrogates high low)) (scan_string t).
Proof.
  intros Hh Hl Hhigh Hlow. cbn [scan_string Ascii.eqb Bool.eqb DQUOTE].
  rewrite Hh, Hhigh. cbn [andb Ascii.eqb Bool.eqb]. now rewrite Hl, Hlow.
Qed.

Lemma scan_string_ascii (b : ascii) (t : string) :
  (N_of_ascii b < 128)%N ->
  scan_string (escape_code_point (N_of_ascii b) ++ t) =
  prepend (String b "") (scan_string t).
Proof.
  destruct b as [[] [] [] [] [] [] [] []]; intros H;
    try (vm_compute in H; discriminate);
    match goal with
    | |- scan_string ?a = _ =>
        let a' := eval vm_compute in a in change a with a'
    end;
    first [ reflexivity
          | etransitivity; [apply scan_string_escape; reflexivity|reflexivity] ].
Qed.

Lemma scan_string_stray (b : ascii) (t : string) :
  (128 <= N_of_ascii b)%N ->
  scan_string (String b t) = prepend (String b "") (scan_string t).
Proof.
  destruct b as [[] [] [] [] [] [] [] []]; intros H;
    try (vm_compute in H; exfalso; apply H; reflexivity); reflexivity.
Qed.

Lemma escape_code_point_wide (cp : N) :
  (128 <= cp)%N -> (cp < 65536)%N -> escape_code_point cp = "\u" ++ hex4 cp.
Proof.
  intros Hlo Hhi. unfold escape_code_point.
  repeat match goal with
  | |- context [(?a =? ?b)%N] => destruct (N.eqb_spec a b); [lia|]
  end.
  destruct (N.leb_spec cp 126); [lia|]. rewrite andb_false_r.
  destruct (N.ltb_spec cp 65536); [reflexivity|lia].
Qed.

Lemma escape_code_point_pair (cp : N) :
  (65536 <= cp)%N ->
  escape_code_point cp =
  "\u" ++ hex4 (55296 + (cp - 65536) / 1024) ++
  "\u" ++ hex4 (56320 + (cp - 65536) mod 1024).
Proof.
  intros Hlo. unfold escape_code_point.
  repeat match goal with
  | |- context [(?a =? ?b)%N] => destruct (N.eqb_spec a b); [lia|]
  end.
  destruct (N.leb_spec cp 126); [lia|]. rewrite andb_false_r.
  destruct (N.ltb_spec cp 65536); [lia|reflexivity].
Qed.

(** The escape of a code point that is no surrogate is read as the code
    point. *)
Lemma scan_string_code_point (cp : N) (t : string) :
  (cp < 1114112)%N -> is_surrogate (Chr cp) = false ->
  scan_string (escape_code_point cp ++ t) =
  prepend (utf8_encode cp) (scan_string t).
Proof.
  intros Hcp Hs. cbn [is_surrogate] in Hs. apply orb_false_iff in Hs.
  destruct Hs as [Hhigh Hlow].
  destruct (N.ltb_spec cp 128) as [L1|L1].
  - rewrite <- (N_ascii_embedding cp) by lia.
    rewrite scan_string_ascii by (rewrite N_ascii_embedding; lia).
    rewrite N_ascii_embedding by lia. unfold utf8_encode.
    now destruct (N.ltb_spec cp 128); [|lia].
  - destruct (N.ltb_spec cp 65536) as [L2|L2].
    + rewrite escape_code_point_wide by assumption.
      rewrite append_assoc.
      destruct (decode_hex4 cp t L2) as (h1 & h2 & h3 & h4 & -> & Hd).
      now apply scan_string_escape.
    + rewrite escape_code_point_pair by assumption.
      rewrite !append_assoc.
      assert (H1 : (55296 + (cp - 65536) / 1024 < 65536)%N) by div_lia.
      assert (H2 : (56320 + (cp - 65536) mod 1024 < 65536)%N) by div_lia.
      destruct (decode_hex4 _ t H2) as (k1 & k2 & k3 & k4 & Ek & Hk).
      rewrite Ek.
      destruct (decode_hex4 _
                  ("\u" ++ String k1 (String k2 (String k3 (String k4 t)))) H1)
        as (h1 & h2 & h3 & h4 & Eh & Hh).
      cbn [append] in *. rewrite Eh.
      rewrite (scan_string_pair _ _ _ _ _ _ _ _ _ _ t Hh Hk).
      * f_equal. f_equal. unfold join_surrogates. div_lia.
      * unfold is_high_surrogate.
        apply andb_true_iff. split; apply N.leb_le; div_lia.
      * unfold is_low_surrogate.
        apply andb_true_iff. split; apply N.leb_le; div_lia.
Qed.

Lemma utf8_encode_length (cp : N) : 1 <= String.length (utf8_encode cp).
Proof.
  unfold utf8_encode.
  repeat match goal with
  | |- context [(?a <? ?b)%N] => destruct (a <? b)%N
  end; cbn; lia.
Qed.

Lemma utf8_head_shorter (s : string) (cp : N) (rest : string) :
  utf8_head s = Some (cp, rest) -> String.length rest < String.length s.
Proof.
  intros H. apply utf8_head_encode in H. destruct H as [-> _].
  rewrite length_append. pose proof (utf8_encode_length cp). lia.
Qed.

Lemma utf8_head_none (b : ascii) (r : string) :
  utf8_head (String b r) = None -> (128 <= N_of_ascii b)%N.
Proof.
  cbn [utf8_head]. destruct (N.ltb_spec (N_of_ascii b) 128); [discriminate|auto].
Qed.

Lemma scan_string_escape_all (fuel : nat) (s rest : string) :
  String.length s <= fuel ->
  forallb (fun c => negb (is_surrogate c)) (characters_at fuel s) = true ->
  scan_string (escape_all (characters_at fuel s) ++ String DQUOTE rest) =
  Some (s, rest).
Proof.
  revert s. induction fuel as [|fuel IH]; intros s Hlen Hok.
  - destruct s; [reflexivity|cbn in Hlen; lia].
  - destruct s as [|b r]; [reflexivity|].
    cbn [characters_at] in *.
    destruct (utf8_head (String b r)) as [[cp tl]|] eqn:E.
    + cbn [forallb escape_all escape_character] in *.
      apply andb_true_iff in Hok. destruct Hok as [Hc Hok].
      apply negb_true_iff in Hc.
      pose proof (utf8_head_shorter _ _ _ E) as Hshort.
      apply utf8_head_encode in E. destruct E as [E Hcp].
      rewrite append_assoc, scan_string_code_point by assumption.
      rewrite IH; [|cbn [String.length] in *; lia|assumption].
      cbn [prepend]. now rewrite E.
    + cbn [forallb escape_all escape_character] in *.
      apply utf8_head_none in E.
      cbn [append]. rewrite scan_string_stray by assumption.
      rewrite IH; [reflexivity|cbn [String.length] in Hlen; lia|].
      now apply andb_true_iff in Hok.
Qed.

Lemma scan_string_escape_chars (s rest : string) :
  encodable s = true ->
  scan_string (escape_chars s ++ String DQUOTE rest) = Some (s, rest).
Proof. intros H. now apply scan_string_escape_all. Qed.

Lemma scan_string_encoded (s rest : string) :
  encodable s = true ->
  scan_string (tail (encode_basestring_ascii s ++ rest)) = Some (s, rest).
Proof.
  intros H. unfold encode_basestring_ascii. cbn [append tail].
  rewrite append_assoc. now apply scan_string_escape_chars.
Qed.

(* ================================================================ *)
(** ** Decoding what was encoded: whitespace and first characters *)

Lemma skip_ws_value (s : string) : value_head s = true -> skip_ws s = s.
Proof.
  destruct s as [|c r]; cbn [value_head skip_ws]; auto.
  rewrite andb_true_iff, negb_true_iff. now intros [-> _].
Qed.

Lemma skip_ws_spaces (n : nat) (s : string) :
  skip_ws (spaces n ++ s) = skip_ws s.
Proof. induction n as [|n IH]; cbn [spaces append skip_ws is_ws]; auto. Qed.

Lemma skip_ws_newline_indent (indent level : nat) (s : string) :
  skip_ws (newline_indent indent level ++ s) = skip_ws s.
Proof.
  unfold newline_indent. cbn [append]. unfold LF. cbn [skip_ws is_ws].
  apply skip_ws_spaces.
Qed.

Lemma delimited_newline_indent (indent level : nat) (s : string) :
  delimited (newline_indent indent level ++ s) = true.
Proof. reflexivity. Qed.

Lemma number_head_dispatch (s : string) :
  number_head s = true ->
  head_is DQUOTE s = false /\ head_is "{" s = false /\ head_is "[" s = false /\
  head_is "n" s = false /\ head_is "t" s = false /\ head_is "f" s = false.
Proof.
  destruct s as [|c r]; [discriminate|].
  destruct c as [[] [] [] [] [] [] [] []]; cbn; intros H;
    try discriminate; repeat split.
Qed.

(** What the decoder read a value from starts the value: it is no
    whitespace and no closing bracket. *)
Lemma scan_once_value_head (fuel : nat) (s : string) (v : json) (r : string) :
  scan_once fuel s = Some (v, r) -> value_head s = true.
Proof.
  destruct fuel as [|fuel]; [discriminate|].
  destruct s as [|c s]; [discriminate|].
  destruct (value_head (String c s)) eqn:E; [reflexivity|].
  cbn [value_head] in E.
  destruct c as [[] [] [] [] [] [] [] []]; try discriminate; discriminate.
Qed.

Lemma parses_back_head (indent level : nat) (v : json) (rest : string) :
  parses_back indent v -> delimited rest = true ->
  value_head (json_dumps_at indent level v ++ rest) = true.
Proof.
  intros H Hrest. eapply scan_once_value_head.
  apply (H (json_size v) level rest); auto.
Qed.

(* ================================================================ *)
(** ** Decoding what was encoded: the equations of the decoder *)

Lemma scan_once_string (fuel : nat) (r : string) :
  scan_once (S fuel) (String DQUOTE r) =
  match scan_string r with
  | Some (x, r') => Some (JStr x, r')
  | None => None
  end.
Proof. reflexivity. Qed.

Lemma scan_once_array (fuel : nat) (r : string) :
  scan_once (S fuel) (String "[" r) =
  if head_is "]" (skip_ws r) then Some (JArray [], tail (skip_ws r))
  else
    match scan_items fuel (skip_ws r) with
    | Some (items, r') => Some (JArray items, r')
    | None => None
    end.
Proof. reflexivity. Qed.

Lemma scan_once_object (fuel : nat) (r : string) :
  scan_once (S fuel) (String "{" r) =
  if head_is "}" (skip_ws r) then Some (JObject [], tail (skip_ws r))
  else
    match scan_pairs fuel (skip_ws r) with
    | Some (pairs, r') => Some (JObject (dict_of_pairs pairs), r')
    | None => None
    end.
Proof. reflexivity. Qed.

Lemma scan_once_number (fuel : nat) (s : string) (found : json * string) :
  number_head s = true -> scan_number s = Some found ->
  scan_once (S fuel) s = Some found.
Proof.
  intros H Hfound. apply number_head_dispatch in H.
  destruct H as (H1 & H2 & H3 & H4 & H5 & H6).
  cbn [scan_once]. now rewrite H1, H2, H3, H4, H5, H6, Hfound.
Qed.

Lemma scan_items_S (fuel : nat) (s : string) :
  scan_items (S fuel) s =
  match scan_once fuel s with
  | Some (v, r) =>
      if head_is "]" (skip_ws r) then Some ([v], tail (skip_ws r))
      else if head_is "," (skip_ws r) then
        match scan_items fuel (skip_ws (tail (skip_ws r))) with
        | Some (vs, r') => Some (v :: vs, r')
        | None => None
        end
      else None
  | None => None
  end.
Proof. reflexivity. Qed.

Lemma scan_pairs_S (fuel : nat) (r : string) :
  scan_pairs (S fuel) (String DQUOTE r) =
  match scan_string r with
  | Some (k, r1) =>
      if head_is ":" (skip_ws r1) then
        match scan_once fuel (skip_ws (tail (skip_ws r1))) with
        | Some (v, r3) =>
            if head_is "}" (skip_ws r3) then Some ([(k, v)], tail (skip_ws r3))
            else if head_is "," (skip_ws r3) then
              match scan_pairs fuel (skip_ws (tail (skip_ws r3))) with
              | Some (kvs, r5) => Some ((k, v) :: kvs, r5)
              | None => None
              end
            else None
        | None => None
        end
      else None
  | None => None
  end.
Proof. reflexivity. Qed.

(* ================================================================ *)
(** ** Decoding what was encoded: dictionaries from pairs *)

Lemma dict_set_absent {V} (k : string) (v : V) (d : pydict V) :
  ~ In k (dict_keys d) -> dict_set k v d = (d ++ [(k, v)])%list.
Proof.
  induction d as [|[k0 v0] d IH]; cbn [dict_set dict_keys map fst In app]; auto.
  intros H. destruct (String.eqb_spec k k0) as [->|Hne].
  - exfalso. apply H. now left.
  - rewrite IH; auto.
Qed.

Lemma dict_update_disjoint {V} (m d : pydict V) :
  NoDup (dict_keys d ++ dict_keys m) -> dict_update d m = (d ++ m)%list.
Proof.
  unfold dict_update. revert d.
  induction m as [|[k v] m IH]; intros d H; cbn [fold_left fst snd].
  - now rewrite app_nil_r.
  - assert (Hk : ~ In k (dict_keys d)).
    { apply NoDup_remove_2 in H. intros Hin. apply H, in_or_app. now left. }
    rewrite (dict_set_absent _ _ _ Hk), IH.
    + now rewrite <- app_assoc.
    + unfold dict_keys in *. rewrite map_app. cbn [map fst].
      now rewrite <- app_assoc.
Qed.

Lemma dict_of_pairs_no_dup {V} (m : pydict V) :
  no_dup_keys (dict_keys m) = true -> dict_of_pairs m = m.
Proof.
  intros H. unfold dict_of_pairs. rewrite dict_update_disjoint; auto.
  now apply no_dup_keys_NoDup.
Qed.

(* ================================================================ *)
(** ** Decoding what was encoded: values *)

Lemma concat_cons_head (sep a : string) (l : list string) (t : string) :
  exists t', String.concat sep (a :: l) ++ t = a ++ t' /\ delimited_or sep t t'.
Proof.
  destruct l as [|b l]; cbn [String.concat].
  - exists t. split; [reflexivity|now left].
  - exists (sep ++ String.concat sep (b :: l) ++ t).
    split; [now rewrite !append_assoc|right; eauto].
Qed.

Lemma concat_cons2 (sep a b : string) (l : list string) :
  String.concat sep (a :: b :: l) = a ++ sep ++ String.concat sep (b :: l).
Proof. reflexivity. Qed.

Lemma separator_append (indent level : nat) (s : string) :
  separator indent level ++ s = String "," (newline_indent indent level ++ s).
Proof. reflexivity. Qed.

(** What follows the first of the items of a level is a separator or the
    text after the items. *)
Lemma delimited_after_item (indent lv : nat) (t t' : string) :
  delimited t = true -> delimited_or (separator indent lv) t t' ->
  delimited t' = true.
Proof.
  intros Ht [->|(u & ->)]; [exact Ht|reflexivity].
Qed.

Lemma scan_items_dumps (indent : nat) (l : list json) :
  Forall (parses_back indent) l ->
  forall x fuel lv lv' rest,
    parses_back indent x ->
    list_sum (map (fun y => S (json_size y)) (x :: l)) <= fuel ->
    scan_items fuel
      (String.concat (separator indent lv)
         (map (json_dumps_at indent lv) (x :: l)) ++
       newline_indent indent lv' ++ String "]" rest) = Some (x :: l, rest).
Proof.
  induction 1 as [|y l Hy Hl IH]; intros x fuel lv lv' rest Hx Hfuel;
    unfold list_sum in *; cbn [map fold_right] in Hfuel;
    (destruct fuel as [|f]; [lia|]); rewrite scan_items_S.
  - cbn [map String.concat].
    rewrite Hx; [|lia|apply delimited_newline_indent].
    rewrite skip_ws_newline_indent. reflexivity.
  - cbn [map]. rewrite concat_cons2, !append_assoc, separator_append.
    rewrite Hx; [|lia|reflexivity].
    cbn [skip_ws is_ws head_is tail Ascii.eqb Bool.eqb].
    rewrite skip_ws_newline_indent.
    change (json_dumps_at indent lv y :: map (json_dumps_at indent lv) l)
      with (map (json_dumps_at indent lv) (y :: l)).
    rewrite skip_ws_value.
    + rewrite IH; auto. cbn [map fold_right]. lia.
    + cbn [map].
      destruct (concat_cons_head (separator indent lv)
                  (json_dumps_at indent lv y) (map (json_dumps_at indent lv) l)
                  (newline_indent indent lv' ++ String "]" rest))
        as (t' & Ht & Hd).
      rewrite Ht. apply parses_back_head; [assumption|].
      eapply delimited_after_item; [|exact Hd]. reflexivity.
Qed.

Lemma append_single (c : ascii) (s : string) : String c "" ++ s = String c s.
Proof. reflexivity. Qed.

Lemma encoded_text (k t : string) :
  encode_basestring_ascii k ++ t =
  String DQUOTE (escape_chars k ++ String DQUOTE t).
Proof.
  unfold encode_basestring_ascii. cbn [append]. now rewrite append_assoc.
Qed.

Lemma value_head_not_closing (s : string) :
  value_head s = true -> head_is "]" s = false.
Proof.
  destruct s as [|c r]; cbn [value_head head_is]; auto.
  rewrite andb_true_iff, !negb_true_iff. now intros [_ ->].
Qed.

Lemma scan_pairs_dumps (indent : nat) (m : list (string * json)) :
  Forall (fun kv => encodable (fst kv) = true /\
                    parses_back indent (snd kv)) m ->
  forall kv fuel lv lv' rest,
    encodable (fst kv) = true -> parses_back indent (snd kv) ->
    list_sum (map (fun kv => S (json_size (snd kv))) (kv :: m)) <= fuel ->
    scan_pairs fuel
      (String.concat (separator indent lv)
         (map (fun kv => encode_basestring_ascii (fst kv) ++ ": " ++
                         json_dumps_at indent lv (snd kv)) (kv :: m)) ++
       newline_indent indent lv' ++ String "}" rest) = Some (kv :: m, rest).
Proof.
  induction 1 as [|kv' m [Hk' Hkv'] Hm IH];
    intros [k v] fuel lv lv' rest Hk Hx Hfuel;
    unfold list_sum in *; cbn [map fold_right fst snd] in Hfuel, Hx, Hk;
    (destruct fuel as [|f]; [lia|]).
  - cbn [map String.concat fst snd].
    rewrite !append_assoc, encoded_text, scan_pairs_S.
    rewrite scan_string_escape_chars by assumption.
    cbn [append skip_ws is_ws head_is tail Ascii.eqb Bool.eqb].
    rewrite skip_ws_value
      by (apply parses_back_head; [assumption|apply delimited_newline_indent]).
    rewrite Hx; [|lia|apply delimited_newline_indent].
    rewrite skip_ws_newline_indent. reflexivity.
  - cbn [map]. rewrite concat_cons2. cbn [fst snd].
    rewrite !append_assoc, encoded_text, scan_pairs_S.
    rewrite scan_string_escape_chars by assumption.
    cbn [append skip_ws is_ws head_is tail Ascii.eqb Bool.eqb].
    rewrite separator_append.
    rewrite skip_ws_value by (apply parses_back_head; [assumption|reflexivity]).
    rewrite Hx; [|lia|reflexivity].
    cbn [skip_ws is_ws head_is tail Ascii.eqb Bool.eqb].
    rewrite skip_ws_newline_indent.
    match goal with
    | |- context [String.concat ?sep (?a :: ?l) ++ ?t] =>
        destruct (concat_cons_head sep a l t) as (t' & Ht & _)
    end.
    rewrite skip_ws_value.
    + assert (Hnext := IH kv' f lv lv' rest Hk' Hkv').
      cbn [map append] in Hnext. rewrite Hnext; [reflexivity|].
      cbn [map fold_right]. lia.
    + rewrite Ht. cbn [fst snd]. rewrite encoded_text. reflexivity.
Qed.

Lemma scan_once_float (fuel : nat) (r rest : string) :
  float_canonical r = true -> delimited rest = true ->
  scan_once (S fuel) (floatstr r ++ rest) = Some (JFloat r, rest).
Proof.
  unfold float_canonical, floatstr. intros Hr Hrest.
  destruct (String.eqb_spec r "nan") as [->|_]; [reflexivity|].
  destruct (String.eqb_spec r "inf") as [->|_]; [reflexivity|].
  destruct (String.eqb_spec r "-inf") as [->|_]; [reflexivity|].
  cbn [orb] in Hr. apply andb_true_iff in Hr. destruct Hr as [Hlit Hsame].
  apply String.eqb_eq in Hsame.
  apply scan_once_number; [now apply float_literal_head|].
  rewrite scan_number_float_literal by assumption. now rewrite Hsame.
Qed.

(** Every value as the decoder makes them, without a surrogate in its
    strings, is read back from its printed form, at any level of any
    indent. *)
Lemma scan_once_dumps (indent : nat) (v : json) :
  wf_json v = true -> strings_encodable v = true -> parses_back indent v.
Proof.
  induction v as [|b|n|r|s|l IH|m IH] using json_ind;
    intros Hwf Henc fuel level rest Hfuel Hrest;
    (destruct fuel as [|f]; [cbn in Hfuel; lia|]).
  - reflexivity.
  - destruct b; reflexivity.
  - cbn [json_dumps_at].
    apply scan_once_number; [apply str_of_int_head|].
    now apply scan_number_str_of_int.
  - cbn [json_dumps_at]. now apply scan_once_float.
  - cbn [json_dumps_at].
    rewrite encoded_text, scan_once_string.
    now rewrite scan_string_escape_chars.
  - destruct l as [|x l]; [reflexivity|].
    assert (Hall : Forall (parses_back indent) (x :: l)).
    { cbn [wf_json strings_encodable] in Hwf, Henc.
      rewrite forallb_forall in Hwf, Henc.
      rewrite Forall_forall in *. intros y Hy. apply IH; auto. }
    inversion Hall as [|? ? Hx Hl]; subst.
    cbn [json_dumps_at]. rewrite !append_assoc. cbn [append].
    rewrite scan_once_array, skip_ws_newline_indent.
    match goal with
    | |- context [String.concat ?sep (map ?g (x :: l)) ++ ?t] =>
        destruct (concat_cons_head sep (g x) (map g l) t) as (t' & Ht & Hd)
    end.
    cbn [map] in Ht.
    assert (Hhead : value_head
              (String.concat (separator indent (S level))
                 (map (json_dumps_at indent (S level)) (x :: l)) ++
               newline_indent indent level ++ String "]" rest) = true).
    { cbn [map]. rewrite Ht. apply parses_back_head; [assumption|].
      eapply delimited_after_item; [|exact Hd]. reflexivity. }
    rewrite (skip_ws_value _ Hhead), (value_head_not_closing _ Hhead).
    rewrite scan_items_dumps; auto.
    cbn [json_size] in Hfuel. lia.
  - destruct m as [|kv m]; [reflexivity|].
    cbn [wf_json] in Hwf. apply andb_true_iff in Hwf. destruct Hwf as [Hnd Hwf].
    cbn [strings_encodable] in Henc.
    assert (Hall : Forall (fun kv => encodable (fst kv) = true /\
                                     parses_back indent (snd kv)) (kv :: m)).
    { rewrite forallb_forall in Hwf, Henc.
      rewrite Forall_forall in *. intros y Hy.
      specialize (Henc y Hy). apply andb_true_iff in Henc.
      destruct Henc as [Hkey Hval]. split; [exact Hkey|]. apply IH; auto. }
    inversion Hall as [|? ? [Hk Hx] Hl]; subst.
    cbn [json_dumps_at]. rewrite !append_assoc, !append_single.
    rewrite scan_once_object, skip_ws_newline_indent.
    set (text := String.concat _ _ ++ _).
    assert (Hr : exists r, text = String DQUOTE r).
    { unfold text. cbn [map].
      match goal with
      | |- context [String.concat ?sep (?a :: ?l) ++ ?t] =>
          destruct (concat_cons_head sep a l t) as (t' & Ht & _)
      end.
      rewrite Ht, append_assoc, encoded_text. eauto. }
    destruct Hr as (r & Hr).
    assert (Hskip : skip_ws text = text) by (rewrite Hr; reflexivity).
    assert (Hopen : head_is "}" text = false) by (rewrite Hr; reflexivity).
    rewrite Hskip, Hopen. unfold text.
    rewrite scan_pairs_dumps; auto.
    + now rewrite dict_of_pairs_no_dup.
    + cbn [json_size] in Hfuel. lia.
Qed.

Lemma json_size_le_length (indent : nat) (v : json) (level : nat) :
  json_size v <= S (String.length (json_dumps_at indent level v)).
Proof.
  revert level.
  induction v as [|b|n|r|s|l IH|m IH] using json_ind; intros level;
    try (cbn [json_size]; lia).
  - destruct l as [|x l]; [cbn; lia|].
    cbn [json_size json_dumps_at].
    rewrite !length_append. cbn [String.length newline_indent].
    assert (Hsum : forall l', Forall (fun v => forall level,
                      json_size v <=
                      S (String.length (json_dumps_at indent level v))) l' ->
              list_sum (map (fun x => S (json_size x)) l') <=
              String.length
                (String.concat (separator indent (S level))
                   (map (json_dumps_at indent (S level)) l')) + 2).
    { induction 1 as [|y l' Hy Hl' IHl']; [cbn; lia|].
      destruct l' as [|z l'].
      - cbn [map list_sum fold_right String.concat]. specialize (Hy (S level)). lia.
      - cbn [map]. rewrite concat_cons2, !length_append.
        cbn [map list_sum fold_right String.length separator newline_indent] in *.
        specialize (Hy (S level)). lia. }
    specialize (Hsum _ IH). lia.
  - destruct m as [|kv m]; [cbn; lia|].
    cbn [json_size json_dumps_at].
    rewrite !length_append. cbn [String.length newline_indent].
    assert (Hsum : forall m', Forall (fun kv => forall level,
                      json_size (snd kv) <=
                      S (String.length (json_dumps_at indent level (snd kv)))) m' ->
              list_sum (map (fun kv => S (json_size (snd kv))) m') <=
              String.length
                (String.concat (separator indent (S level))
                   (map (fun kv => encode_basestring_ascii (fst kv) ++ ": " ++
                                   json_dumps_at indent (S level) (snd kv)) m')) + 2).
    { induction 1 as [|y m' Hy Hm' IHm']; [cbn; lia|].
      destruct m' as [|z m'].
      - cbn [map list_sum fold_right String.concat]. rewrite !length_append.
        specialize (Hy (S level)). lia.
      - cbn [map]. rewrite concat_cons2, !length_append.
        cbn [map list_sum fold_right String.length separator newline_indent] in *.
        specialize (Hy (S level)). lia. }
    specialize (Hsum _ IH). lia.
Qed.

(** [json.loads(json.dumps(v, indent=n)) == v] *)
Lemma json_loads_dumps (indent : nat) (v : json) :
  wf_json v = true -> strings_encodable v = true ->
  json_loads (json_dumps indent v) = Some v.
Proof.
  intros Hwf Henc. unfold json_loads, json_dumps.
  pose proof (scan_once_dumps indent v Hwf Henc) as Hback.
  pose proof (parses_back_head indent 0 v "" Hback eq_refl) as Hhead.
  rewrite append_nil_r in Hhead. rewrite (skip_ws_value _ Hhead).
  pose proof (Hback (S (String.length (json_dumps_at indent 0 v))) 0 "") as H.
  rewrite append_nil_r in H. rewrite H; auto.
  apply json_size_le_length.
Qed.

(* ================================================================ *)
(** ** Decoded values hold no key twice *)

Lemma values_wf_set (k : string) (v : json) (d : pydict json) :
  wf_json v = true -> values_wf d = true -> values_wf (dict_set k v d) = true.
Proof.
  unfold values_wf. intros Hv.
  induction d as [|[k0 v0] d IH]; cbn [dict_set forallb snd].
  - now rewrite Hv.
  - rewrite andb_true_iff. intros [H0 Hd].
    destruct (String.eqb k k0); cbn [forallb snd].
    + now rewrite Hv, Hd.
    + now rewrite H0, IH.
Qed.

Lemma values_wf_update (d p : pydict json) :
  values_wf d = true -> values_wf p = true ->
  values_wf (dict_update d p) = true.
Proof.
  unfold dict_update. revert d.
  induction p as [|[k v] p IH]; intros d Hd Hp; cbn [fold_left fst snd]; auto.
  unfold values_wf in Hp. cbn [forallb snd] in Hp.
  apply andb_true_iff in Hp. destruct Hp as [Hv Hp].
  apply IH; auto. now apply values_wf_set.
Qed.

Lemma values_wf_get (k : string) (v : json) (d : pydict json) :
  values_wf d = true -> dict_get k d = Some v -> wf_json v = true.
Proof.
  unfold values_wf.
  induction d as [|[k0 v0] d IH]; cbn [dict_get forallb snd]; [discriminate|].
  rewrite andb_true_iff. intros [H0 Hd].
  destruct (String.eqb k k0); auto. intros H. now inversion H; subst.
Qed.

Lemma wf_json_object (m : pydict json) :
  wf_json (JObject m) = no_dup_keys (dict_keys m) && values_wf m.
Proof. reflexivity. Qed.

Lemma wf_dict_of_pairs (pairs : list (string * json)) :
  values_wf pairs = true -> wf_json (JObject (dict_of_pairs pairs)) = true.
Proof.
  intros H. rewrite wf_json_object. apply andb_true_iff. split.
  - now apply dict_update_no_dup.
  - now apply values_wf_update.
Qed.

Lemma scan_number_kind (s : string) (w : json) (r : string) :
  scan_number s = Some (w, r) ->
  (exists n, w = JInt n) \/ (exists x, w = JFloat x).
Proof.
  unfold scan_number.
  destruct (match_integer s) as [[integer r0]|]; [|discriminate].
  destruct (match_fraction r0) as [frac r1].
  destruct (match_exponent r1) as [exp r2].
  destruct (frac ++ exp); intros E; inversion E; eauto.
Qed.

Section FloatLaw.
Hypothesis float_law : float_repr_law.

Lemma scan_number_wf (s : string) (w : json) (r : string) :
  scan_number s = Some (w, r) -> wf_json w = true.
Proof.
  intros E. destruct (scan_number_kind _ _ _ E) as [(n & ->)|(x & ->)];
    [reflexivity|].
  apply scan_number_reads_literal in E. destruct E as (literal & Hlit & ->).
  cbn [wf_json]. now apply float_law.
Qed.

Lemma scan_wf (fuel : nat) :
  (forall s v r, scan_once fuel s = Some (v, r) -> wf_json v = true) /\
  (forall s vs r, scan_items fuel s = Some (vs, r) -> forallb wf_json vs = true) /\
  (forall s kvs r, scan_pairs fuel s = Some (kvs, r) -> values_wf kvs = true).
Proof.
  induction fuel as [|f (IHv & IHi & IHp)].
  - repeat split; intros; discriminate.
  - split; [|split].
    + intros s v r. cbn [scan_once].
      destruct (head_is DQUOTE s).
      { destruct (scan_string (tail s)) as [[x r']|]; [|discriminate].
        intros H. now inversion H. }
      destruct (head_is "{" s).
      { destruct (head_is "}" (skip_ws (tail s))).
        - intros H. now inversion H.
        - destruct (scan_pairs f (skip_ws (tail s))) as [[pairs r']|] eqn:E;
            [|discriminate].
          intros H. inversion H; subst.
          apply wf_dict_of_pairs. eapply IHp; eauto. }
      destruct (head_is "[" s).
      { destruct (head_is "]" (skip_ws (tail s))).
        - intros H. now inversion H.
        - destruct (scan_items f (skip_ws (tail s))) as [[items r']|] eqn:E;
            [|discriminate].
          intros H. inversion H; subst. cbn [wf_json]. eapply IHi; eauto. }
      unfold scan_literal.
      destruct (head_is "n" s).
      { destruct (expect "null" s); [|discriminate]. intros H. now inversion H. }
      destruct (head_is "t" s).
      { destruct (expect "true" s); [|discriminate]. intros H. now inversion H. }
      destruct (head_is "f" s).
      { destruct (expect "false" s); [|discriminate]. intros H. now inversion H. }
      destruct (scan_number s) as [[w r']|] eqn:En.
      { intros H. inversion H; subst. eapply scan_number_wf; eauto. }
      destruct (head_is "N" s).
      { destruct (expect "NaN" s); [|discriminate]. intros H. now inversion H. }
      destruct (head_is "I" s).
      { destruct (expect "Infinity" s); [|discriminate].
        intros H. now inversion H. }
      destruct (head_is "-" s); [|discriminate].
      destruct (expect "-Infinity" s); [|discriminate].
      intros H. now inversion H.
    + intros s vs r. cbn [scan_items].
      destruct (scan_once f s) as [[v r0]|] eqn:Ev; [|discriminate].
      apply IHv in Ev.
      destruct (head_is "]" (skip_ws r0)).
      * intros H. inversion H; subst. cbn [forallb]. now rewrite Ev.
      * destruct (head_is "," (skip_ws r0)); [|discriminate].
        destruct (scan_items f (skip_ws (tail (skip_ws r0)))) as [[vs' r']|] eqn:Ei;
          [|discriminate].
        apply IHi in Ei. intros H. inversion H; subst.
        cbn [forallb]. now rewrite Ev, Ei.
    + intros s kvs r. cbn [scan_pairs].
      destruct (head_is DQUOTE s); [|discriminate].
      destruct (scan_string (tail s)) as [[k r1]|]; [|discriminate].
      destruct (head_is ":" (skip_ws r1)); [|discriminate].
      destruct (scan_once f (skip_ws (tail (skip_ws r1)))) as [[v r3]|] eqn:Ev;
        [|discriminate].
      apply IHv in Ev.
      destruct (head_is "}" (skip_ws r3)).
      * intros H. inversion H; subst. unfold values_wf. cbn [forallb snd].
        now rewrite Ev.
      * destruct (head_is "," (skip_ws r3)); [|discriminate].
        destruct (scan_pairs f (skip_ws (tail (skip_ws r3)))) as [[kvs' r5]|] eqn:Ep;
          [|discriminate].
        apply IHp in Ep. intros H. inversion H; subst.
        unfold values_wf in *. cbn [forallb snd]. now rewrite Ev, Ep.
Qed.

Lemma json_loads_wf (text : string) (v : json) :
  json_loads text = Some v -> wf_json v = true.
Proof.
  unfold json_loads.
  destruct (scan_once (S (String.length text)) (skip_ws text)) as [[w r]|] eqn:E;
    [|discriminate].
  destruct (skip_ws r); [|discriminate].
  intros H. inversion H; subst. eapply (proj1 (scan_wf _)); eauto.
Qed.

(* ================================================================ *)
(** ** The store holds decoded values only *)

Lemma loaded_wf (disk : filesystem) (path : string) :
  wf_json (loaded disk path) = true.
Proof.
  unfold loaded. destruct (dict_get path (files disk)) as [text|]; auto.
  destruct (json_loads text) as [v|] eqn:E; auto.
  now apply json_loads_wf in E.
Qed.

Lemma startup_wf (disk : filesystem) (st0 : state) :
  startup disk = Return st0 -> values_wf (data st0) = true.
Proof.
  rewrite startup_run. intros H. inversion H.
  unfold values_wf, DATA_FILES. cbn [data map forallb fst snd].
  now rewrite !loaded_wf.
Qed.

Lemma merged_wf (current : json) (patch : pydict json) :
  wf_json current = true -> wf_json (JObject patch) = true ->
  wf_json (merged current patch) = true.
Proof.
  intros Hc Hp. destruct current as [|b|n|r|s|l|m]; cbn [merged]; auto.
  - cbn [wf_json]. rewrite forallb_app. cbn [wf_json] in Hc. rewrite Hc.
    cbn [forallb]. now rewrite Hp.
  - rewrite wf_json_object in *.
    apply andb_true_iff in Hc. destruct Hc as [Hnd Hv].
    apply andb_true_iff in Hp. destruct Hp as [_ Hpv].
    apply andb_true_iff. split.
    + now apply dict_update_no_dup.
    + now apply values_wf_update.
Qed.

Lemma update_data_wf (req : UpdateRequest) (st : state) :
  values_wf (data st) = true -> wf_json (JObject (new_data req)) = true ->
  values_wf (data (snd (update_data req st))) = true.
Proof.
  intros Hst Hreq.
  destruct (dict_get (file_name req) (data st)) as [current|] eqn:Hcur.
  - assert (Hm : wf_json (merged current (new_data req)) = true).
    { apply merged_wf; auto. eapply values_wf_get; eauto. }
    destruct (dict_get (file_name req) DATA_FILES) as [path|] eqn:Hpath.
    + rewrite (update_data_known _ _ _ _ Hcur Hpath).
      destruct (condition (fs st) path); cbn [snd data];
        now apply values_wf_set.
    + rewrite (update_data_unconfigured _ _ _ Hcur Hpath). cbn [snd data].
      now apply values_wf_set.
  - now rewrite (update_data_unknown _ _ Hcur).
Qed.

(** The request that validates: its fields are the members of the body. *)
Lemma validate_UpdateRequest_valid (body : json) (req : UpdateRequest) :
  validate_UpdateRequest body = Valid req ->
  exists m,
    body = JObject m /\
    dict_get "file_name" m = Some (JStr (file_name req)) /\
    dict_get "new_data" m = Some (JObject (new_data req)).
Proof.
  unfold validate_UpdateRequest.
  destruct body as [| | | | | |m]; try discriminate.
  destruct (dict_get "file_name" m) as [[| | | |f| |]|] eqn:Hf;
    try discriminate;
    destruct (dict_get "new_data" m) as [[| | | | | |d]|] eqn:Hd;
    try discriminate.
  intros H. inversion H; subst. exists m. auto.
Qed.

Lemma validate_UpdateRequest_wf (body : json) (req : UpdateRequest) :
  wf_json body = true -> validate_UpdateRequest body = Valid req ->
  wf_json (JObject (new_data req)) = true.
Proof.
  intros Hwf Hreq.
  destruct (validate_UpdateRequest_valid _ _ Hreq) as (m & -> & _ & Hd).
  rewrite wf_json_object in Hwf. apply andb_true_iff in Hwf.
  eapply values_wf_get; [apply Hwf|apply Hd].
Qed.

Lemma post_admin_update_wf (body : string) (st : state) :
  values_wf (data st) = true ->
  values_wf (data (snd (post_admin_update body st))) = true.
Proof.
  intros Hst.
  destruct (post_admin_update_state body st)
    as [->|(decoded & req & Hbody & Hreq & ->)]; auto.
  apply update_data_wf; auto.
  eapply validate_UpdateRequest_wf; eauto. eapply json_loads_wf; eauto.
Qed.

Lemma step_wf (st : state) (ev : event) :
  values_wf (data st) = true -> values_wf (data (step st ev)) = true.
Proof.
  intros Hst.
  destruct ev as [[ |name|body upstream|body| ]|disk]; cbn [step]; auto;
    try (rewrite serve_reads by discriminate; assumption).
  now apply post_admin_update_wf.
Qed.

Lemma run_wf (events : list event) (st : state) :
  values_wf (data st) = true -> values_wf (data (run events st)) = true.
Proof.
  unfold run. revert st.
  induction events as [|ev events IH]; intros st Hst; cbn [fold_left]; auto.
  apply IH. now apply step_wf.
Qed.

(** A response that was rendered is what the handler returned, and holds no
    float that is not a number and no surrogate. *)
Lemma respond_returns (handler : M json) (st st' : state) (resp : json) :
  respond handler st = (Return resp, st') ->
  handler st = (Return resp, st') /\
  floats_finite resp = true /\ strings_encodable resp = true.
Proof.
  unfold respond, bind, render.
  destruct (handler st) as [[content|e] st1]; [|discriminate].
  destruct (floats_finite content) eqn:Hfinite; cbn [negb]; [|discriminate].
  destruct (strings_encodable content) eqn:Henc; cbn [negb]; [|discriminate].
  unfold ret. intros H. inversion H; subst. auto.
Qed.

(** An update that returns leaves in the file the printed form of the value
    it leaves in the store, and returns that value. *)
Lemma update_data_persists (req : UpdateRequest) (st st' : state) (resp : json) :
  update_data req st = (Return resp, st') ->
  exists path current,
    dict_get (file_name req) (data st) = Some current /\
    dict_get (file_name req) DATA_FILES = Some path /\
    dict_get (file_name req) (data st') =
      Some (merged current (new_data req)) /\
    dict_get path (files (fs st')) =
      Some (json_dumps 4 (merged current (new_data req))) /\
    resp = update_success (file_name req) (merged current (new_data req)).
Proof.
  intros Hrun.
  destruct (dict_get (file_name req) (data st)) as [current|] eqn:Hcur.
  - destruct (dict_get (file_name req) DATA_FILES) as [path|] eqn:Hpath.
    + rewrite (update_data_known _ _ _ _ Hcur Hpath) in Hrun.
      destruct (condition (fs st) path); try discriminate.
      inversion Hrun; subst. cbn [data fs files put_file].
      exists path, current. split; auto. split; auto.
      split; [apply dict_get_set_same|].
      split; [apply dict_get_set_same|reflexivity].
    + rewrite (update_data_unconfigured _ _ _ Hcur Hpath) in Hrun. discriminate.
  - rewrite (update_data_unknown _ _ Hcur) in Hrun. discriminate.
Qed.

(** What the endpoint does when it answers an update with success. *)
Lemma post_admin_update_returns (disk : filesystem) (st0 : state)
    (events : list event) (body : string) (resp : json) (st' : state) :
  startup disk = Return st0 ->
  post_admin_update body (run events st0) = (Return resp, st') ->
  exists decoded req path v,
    json_loads body = Some decoded /\
    validate_UpdateRequest decoded = Valid req /\
    dict_get (file_name req) DATA_FILES = Some path /\
    dict_get path (files (fs st')) = Some (json_dumps 4 v) /\
    dict_get (file_name req) (data st') = Some v /\
    json_loads (json_dumps 4 v) = Some v /\
    floats_finite v = true.
Proof.
  intros Hstart Hrun.
  assert (Hwf : values_wf (data (run events st0)) = true)
    by (apply run_wf; eapply startup_wf; eauto).
  unfold post_admin_update in Hrun.
  destruct (json_loads body) as [decoded|] eqn:Hbody; [|discriminate].
  destruct (validate_UpdateRequest decoded) as [req|inputs] eqn:Hreq.
  - apply respond_returns in Hrun. destruct Hrun as (Hrun & Hfinite & Henc).
    assert (Hpatch : wf_json (JObject (new_data req)) = true).
    { eapply validate_UpdateRequest_wf; eauto. eapply json_loads_wf; eauto. }
    destruct (update_data_persists req _ _ _ Hrun)
      as (path & current & Hcur & Hpath & Hv & Hfile & ->).
    assert (Hm : wf_json (merged current (new_data req)) = true).
    { apply merged_wf; auto. eapply values_wf_get; eauto. }
    unfold update_success in Hfinite, Henc.
    cbn [floats_finite strings_encodable forallb fst snd] in Hfinite, Henc.
    rewrite !andb_true_iff in Hfinite. rewrite !andb_true_iff in Henc.
    exists decoded, req, path, (merged current (new_data req)).
    repeat split; auto; try tauto.
    apply json_loads_dumps; tauto.
  - destruct (refuse_run inputs (run events st0)) as (e & He & _).
    rewrite He in Hrun. discriminate.
Qed.


End FloatLaw.

(* ================================================================ *)
(** ** Further properties of the handlers *)

(** A handler whose [except Exception] raises a 500 answers 200 or 500. *)
Lemma try_except_500 {A} (body : M A) (detail : exn -> string) (st : state) :
  let r := try_except body
             (fun e => raise (HTTPException 500 (detail e))) st in
  http_status (fst r) = 200%Z \/ http_status (fst r) = 500%Z.
Proof.
  unfold try_except, raise. destruct (body st) as [[a|e] st']; cbn; auto.
Qed.

(** [get_data]: in every state the process reaches, a configured name is
    answered with the value the store holds for it. *)
Theorem get_data_configured_succeeds
    (disk : filesystem) (st0 : state) (events : list event) (name : string) :
  startup disk = Return st0 ->
  In name (dict_keys DATA_FILES) ->
  let st := run events st0 in
  exists v,
    dict_get name (data st) = Some v /\
    get_data name st = (Return (JObject [("data", v)]), st).
Proof.
  intros Hstart Hname st.
  assert (Hin : In name (dict_keys (data st))).
  { unfold st. rewrite run_keys, (startup_keys _ _ Hstart). exact Hname. }
  apply dict_get_in_keys in Hin. destruct Hin as (v & Hv).
  exists v. split; auto.
  unfold get_data, bind, read_data, dict_contains, data_getitem.
  rewrite Hv. cbn [negb]. rewrite Hv. reflexivity.
Qed.

(** [update_data] then [get_data]: after an update that succeeded, getting
    the dataset answers the value the update returned as [updated_data]. *)
Theorem get_after_update_reads_the_update
    (req : UpdateRequest) (st st' : state) (resp : json) :
  update_data req st = (Return resp, st') ->
  exists v,
    resp = update_success (file_name req) v /\
    get_data (file_name req) st' = (Return (JObject [("data", v)]), st').
Proof.
  intros Hrun.
  destruct (dict_get (file_name req) (data st)) as [current|] eqn:Hcur.
  - destruct (dict_get (file_name req) DATA_FILES) as [path|] eqn:Hpath.
    + rewrite (update_data_known _ _ _ _ Hcur Hpath) in Hrun.
      destruct (condition (fs st) path); try discriminate.
      inversion Hrun; subst. eexists. split; [reflexivity|].
      unfold get_data, bind, read_data, dict_contains, data_getitem.
      cbn [data]. rewrite dict_get_set_same. cbn [negb data].
      rewrite ?dict_get_set_same. reflexivity.
    + rewrite (update_data_unconfigured _ _ _ Hcur Hpath) in Hrun. discriminate.
  - rewrite (update_data_unknown _ _ Hcur) in Hrun. discriminate.
Qed.

Lemma update_data_other (req : UpdateRequest) (st : state) (other : string) :
  other <> file_name req ->
  dict_get other (data (snd (update_data req st))) = dict_get other (data st).
Proof.
  intros Hother.
  destruct (dict_get (file_name req) (data st)) as [current|] eqn:Hcur.
  - destruct (dict_get (file_name req) DATA_FILES) as [path|] eqn:Hpath.
    + rewrite (update_data_known _ _ _ _ Hcur Hpath).
      destruct (condition (fs st) path); cbn [snd data];
        apply dict_get_set_other; congruence.
    + rewrite (update_data_unconfigured _ _ _ Hcur Hpath). cbn [snd data].
      apply dict_get_set_other; congruence.
  - now rewrite (update_data_unknown _ _ Hcur).
Qed.

(** [update_data] touches one dataset: every other name is bound after the
    update to what it was bound to before, whatever the outcome. *)
Theorem update_leaves_other_datasets
    (req : UpdateRequest) (st : state) (other : string) :
  other <> file_name req ->
  dict_get other (data (snd (update_data req st))) = dict_get other (data st).
Proof. apply update_data_other. Qed.

(** [update_data] never answers 404: its [except Exception] turns every
    exception raised in its [try], the 404 for an unknown name included, into
    a 500; and an unknown name leaves the state as it was. *)
Theorem update_data_answers_200_or_500 (req : UpdateRequest) (st : state) :
  (http_status (fst (update_data req st)) = 200%Z \/
   http_status (fst (update_data req st)) = 500%Z) /\
  (dict_get (file_name req) (data st) = None ->
   update_data req st =
   (Raise (HTTPException 500 "Error updating data: 404: File not found"), st)).
Proof.
  split.
  - unfold update_data. apply try_except_500.
  - apply update_data_unknown.
Qed.

(** [chat] only reads the state, and answers 200 or 500: whatever is raised
    while the request is processed leaves as a 500. *)
Theorem chat_reads_only_and_answers_200_or_500
    (req : ChatRequest) (upstream : outcome (list (option string)))
    (st : state) :
  snd (chat req upstream st) = st /\
  (http_status (fst (chat req upstream st)) = 200%Z \/
   http_status (fst (chat req upstream st)) = 500%Z).
Proof.
  split.
  - apply read_only_chat.
  - unfold chat. apply try_except_500.
Qed.

(* ================================================================ *)
(** ** The files of the datasets *)

Lemma append_inv_head (a x y : string) : a ++ x = a ++ y -> x = y.
Proof. induction a as [|c a IH]; cbn [append]; intros H; auto. inversion H; auto. Qed.

Lemma path_join_relative (a b : string) :
  head_is "/" b = false ->
  path_join a b =
  match a with
  | EmptyString => b
  | _ => if ends_with_slash a then a ++ b else a ++ "/" ++ b
  end.
Proof.
  destruct b as [|c r]; [reflexivity|]. cbn [head_is].
  destruct c as [[] [] [] [] [] [] [] []]; intros H;
    try discriminate; reflexivity.
Qed.

Lemma path_join_inj (a b1 b2 : string) :
  head_is "/" b1 = false -> head_is "/" b2 = false ->
  path_join a b1 = path_join a b2 -> b1 = b2.
Proof.
  intros H1 H2. rewrite !path_join_relative by assumption.
  destruct a as [|c a]; auto.
  destruct (ends_with_slash (String c a)); intros H;
    apply append_inv_head in H; auto.
  now inversion H.
Qed.

(** No two datasets share a file, wherever the application is installed. *)
Lemma DATA_FILES_injective (n1 n2 p : string) :
  dict_get n1 DATA_FILES = Some p -> dict_get n2 DATA_FILES = Some p -> n1 = n2.
Proof.
  pose proof (path_join_inj JSON_DIR) as Hinj.
  unfold DATA_FILES. cbn [dict_get].
  generalize dependent (path_join JSON_DIR). intros join Hinj H1 H2.
  repeat match type of H1 with
  | context [String.eqb ?a ?b] => destruct (String.eqb_spec a b)
  end; try discriminate;
  repeat match type of H2 with
  | context [String.eqb ?a ?b] => destruct (String.eqb_spec a b)
  end; try discriminate; subst; try reflexivity;
  rewrite <- H2 in H1; injection H1 as H1;
  apply Hinj in H1; try reflexivity; discriminate.
Qed.

(** [update_data] writes one file: the file of every other configured
    dataset holds after the update what it held before, whatever the
    outcome. *)
Theorem update_leaves_other_files
    (req : UpdateRequest) (st : state) (other path : string) :
  other <> file_name req ->
  dict_get other DATA_FILES = Some path ->
  dict_get path (files (fs (snd (update_data req st)))) =
  dict_get path (files (fs st)).
Proof.
  intros Hother Hpath.
  destruct (dict_get (file_name req) (data st)) as [current|] eqn:Hcur.
  - destruct (dict_get (file_name req) DATA_FILES) as [own|] eqn:Hown.
    + assert (Hne : own <> path).
      { intros ->. apply Hother. eapply DATA_FILES_injective; eauto. }
      rewrite (update_data_known _ _ _ _ Hcur Hown).
      destruct (condition (fs st) own); cbn [snd fs files put_file]; auto;
        now apply dict_get_set_other.
    + now rewrite (update_data_unconfigured _ _ _ Hcur Hown).
  - now rewrite (update_data_unknown _ _ Hcur).
Qed.

Lemma dict_get_map_values {V W} (g : V -> W) (k : string) (d : pydict V) :
  dict_get k (map (fun entry => (fst entry, g (snd entry))) d) =
  option_map g (dict_get k d).
Proof.
  induction d as [|[k0 v0] d IH]; cbn [map dict_get fst snd]; auto.
  destruct (String.eqb k k0); auto.
Qed.

(** [update_data] then [load_data]: when an update is answered with success,
    starting the process again on the disk it left binds the dataset to the
    updated value. *)
Theorem restart_after_update_restores_the_value
    (float_law : float_repr_law)
    (disk : filesystem) (st0 : state) (events : list event)
    (body : string) (resp : json) (st' : state) :
  startup disk = Return st0 ->
  post_admin_update body (run events st0) = (Return resp, st') ->
  exists decoded req st2 v,
    json_loads body = Some decoded /\
    validate_UpdateRequest decoded = Valid req /\
    startup (fs st') = Return st2 /\
    dict_get (file_name req) (data st') = Some v /\
    dict_get (file_name req) (data st2) = Some v /\
    floats_finite v = true.
Proof.
  intros Hstart Hrun.
  destruct (post_admin_update_returns float_law _ _ _ _ _ _ Hstart Hrun)
    as (decoded & req & path & v & Hbody & Hreq & Hpath & Hfile & Hv & Hback
        & Hfinite).
  exists decoded, req. eexists. exists v.
  split; auto. split; auto. split; [apply startup_run|]. split; auto.
  split; auto.
  cbn [data]. rewrite dict_get_map_values, Hpath. cbn [option_map].
  unfold loaded. now rewrite Hfile, Hback.
Qed.

(* ================================================================ *)
(** ** Updating twice *)

Lemma dict_set_twice {V} (k : string) (v w : V) (d : pydict V) :
  dict_set k v (dict_set k w d) = dict_set k v d.
Proof.
  induction d as [|[k0 v0] d IH]; cbn [dict_set].
  - now rewrite String.eqb_refl.
  - destruct (String.eqb k k0) eqn:E; cbn [dict_set]; rewrite E; congruence.
Qed.

Lemma dict_ext {V} (d d' : pydict V) :
  NoDup (dict_keys d) -> dict_keys d = dict_keys d' ->
  (forall k, dict_get k d = dict_get k d') -> d = d'.
Proof.
  revert d'. induction d as [|[k v] d IH]; intros [|[k' v'] d'] Hnd Hkeys Hget;
    try discriminate; auto.
  cbn [dict_keys map fst] in Hkeys. injection Hkeys as <- Hkeys.
  inversion Hnd as [|? ? Hk Hnd']; subst.
  pose proof (Hget k) as Hhead. cbn [dict_get] in Hhead.
  rewrite String.eqb_refl in Hhead. injection Hhead as <-.
  f_equal. apply IH; [assumption|exact Hkeys|].
  intros k0. specialize (Hget k0). cbn [dict_get] in Hget.
  destruct (String.eqb_spec k0 k) as [Heq|Hne]; auto.
  subst k0. rewrite !dict_get_not_in_keys; auto.
  unfold dict_keys in *. now rewrite <- Hkeys.
Qed.

Lemma dict_keys_update_present {V} (p d : pydict V) :
  (forall k, In k (dict_keys p) -> In k (dict_keys d)) ->
  dict_keys (dict_update d p) = dict_keys d.
Proof.
  unfold dict_update. revert d.
  induction p as [|[k v] p IH]; intros d H; cbn [fold_left fst snd]; auto.
  assert (Hk : dict_keys (dict_set k v d) = dict_keys d).
  { rewrite dict_keys_set.
    assert (Hin : In k (dict_keys d)) by (apply H; now left).
    apply dict_get_in_keys, dict_contains_get in Hin. now rewrite Hin. }
  rewrite IH; auto.
  intros k0 Hk0. rewrite Hk. apply H. now right.
Qed.

Lemma dict_update_has_patch_keys {V} (p d : pydict V) (k : string) :
  In k (dict_keys p) -> In k (dict_keys (dict_update d p)).
Proof.
  intros Hin. apply dict_get_in_keys. rewrite dict_get_update.
  assert (Hrev : In k (dict_keys (List.rev p))).
  { unfold dict_keys in *. rewrite map_rev. now apply in_rev in Hin. }
  apply dict_get_in_keys in Hrev. destruct Hrev as (v & ->). eauto.
Qed.

Lemma dict_update_idempotent {V} (m p : pydict V) :
  no_dup_keys (dict_keys m) = true ->
  dict_update (dict_update m p) p = dict_update m p.
Proof.
  intros Hnd. apply dict_ext.
  - apply no_dup_keys_NoDup. now repeat apply dict_update_no_dup.
  - apply dict_keys_update_present. intros k. apply dict_update_has_patch_keys.
  - intros k. rewrite (dict_get_update k p (dict_update m p)).
    rewrite (dict_get_update k p m). now destruct (dict_get k (List.rev p)).
Qed.

Lemma put_file_twice (path t : string) (f : filesystem) :
  put_file path t (put_file path t f) = put_file path t f.
Proof. unfold put_file. cbn [files condition]. now rewrite dict_set_twice. Qed.

(** [update_data] on a mapping is idempotent: the same request a second
    time gets the same answer and leaves the store and the disk as the first
    left them. *)
Theorem repeated_mapping_update_changes_nothing
    (req : UpdateRequest) (st : state) (m : pydict json) :
  dict_get (file_name req) (data st) = Some (JObject m) ->
  no_dup_keys (dict_keys m) = true ->
  update_data req (snd (update_data req st)) = update_data req st.
Proof.
  intros Hcur Hnd.
  set (v := JObject (dict_update m (new_data req))).
  assert (Hv : merged v (new_data req) = v).
  { unfold v. cbn [merged]. now rewrite dict_update_idempotent. }
  destruct (dict_get (file_name req) DATA_FILES) as [path|] eqn:Hpath.
  - rewrite (update_data_known _ _ _ _ Hcur Hpath). cbn [merged]. fold v.
    destruct (condition (fs st) path) as [|msg|written msg] eqn:Hcond; cbn [snd].
    + rewrite (update_data_known _ _ v path); cbn [data fs];
        [|apply dict_get_set_same|assumption].
      cbn [put_file condition]. rewrite Hcond, Hv, dict_set_twice.
      now rewrite put_file_twice.
    + rewrite (update_data_known _ _ v path); cbn [data fs];
        [|apply dict_get_set_same|assumption].
      now rewrite Hcond, Hv, dict_set_twice.
    + rewrite (update_data_known _ _ v path); cbn [data fs];
        [|apply dict_get_set_same|assumption].
      cbn [put_file condition]. rewrite Hcond, Hv, dict_set_twice.
      now rewrite put_file_twice.
  - rewrite (update_data_unconfigured _ _ _ Hcur Hpath). cbn [merged snd]. fold v.
    rewrite (update_data_unconfigured _ _ v); cbn [data fs];
      [|apply dict_get_set_same|assumption].
    now rewrite Hv, dict_set_twice.
Qed.

(* ================================================================ *)
(** ** Datasets only grow *)

Lemma grows_refl (v : json) : grows v v.
Proof.
  destruct v; cbn; auto. exists []. now rewrite app_nil_r.
Qed.

Lemma grows_trans (a b c : json) : grows a b -> grows b c -> grows a c.
Proof.
  destruct a, b; cbn; intros H1; try discriminate; try (now subst);
    destruct c; cbn; intros H2; try discriminate; auto; try congruence.
  - destruct H1 as (t1 & ->). destruct H2 as (t2 & ->).
    exists (t1 ++ t2)%list. now rewrite app_assoc.
Qed.

Lemma grows_type_name (a b : json) : grows a b -> type_name a = type_name b.
Proof.
  destruct a, b; cbn; intros H; try discriminate; try congruence; auto;
    try (destruct H; discriminate).
Qed.

Lemma grows_merged (current : json) (patch : pydict json) :
  grows current (merged current patch).
Proof.
  destruct current; cbn [merged]; try apply grows_refl.
  - cbn. now exists [JObject patch].
  - cbn. intros k. unfold dict_contains. rewrite dict_get_update.
    destruct (dict_get k (List.rev patch)); auto.
Qed.

Lemma update_data_grows (req : UpdateRequest) (st : state)
    (name : string) (v : json) :
  dict_get name (data st) = Some v ->
  exists v', dict_get name (data (snd (update_data req st))) = Some v' /\
             grows v v'.
Proof.
  intros Hv.
  destruct (String.eqb_spec name (file_name req)) as [->|Hne].
  - exists (merged v (new_data req)). split; [|apply grows_merged].
    destruct (dict_get (file_name req) DATA_FILES) as [path|] eqn:Hpath.
    + rewrite (update_data_known _ _ _ _ Hv Hpath).
      destruct (condition (fs st) path); cbn [snd data];
        apply dict_get_set_same.
    + rewrite (update_data_unconfigured _ _ _ Hv Hpath). cbn [snd data].
      apply dict_get_set_same.
  - exists v. split; [|apply grows_refl].
    now rewrite update_data_other.
Qed.

Lemma step_grows (st : state) (ev : event) (name : string) (v : json) :
  dict_get name (data st) = Some v ->
  exists v', dict_get name (data (step st ev)) = Some v' /\ grows v v'.
Proof.
  intros Hv.
  destruct ev as [[ |file|body upstream|body| ]|disk]; cbn [step];
    try (rewrite serve_reads by discriminate);
    try (exists v; split; [assumption|apply grows_refl]).
  cbn [serve].
  destruct (post_admin_update_state body st)
    as [->|(decoded & req & _ & _ & ->)].
  - exists v. split; auto using grows_refl.
  - now apply update_data_grows.
Qed.

(** No event shrinks a dataset or changes its type: after any events a
    mapping has kept all its keys, a sequence all its elements in front, and
    a scalar its value. *)
Theorem datasets_only_grow
    (events : list event) (st : state) (name : string) (v : json) :
  dict_get name (data st) = Some v ->
  exists v',
    dict_get name (data (run events st)) = Some v' /\
    grows v v' /\ type_name v' = type_name v.
Proof.
  unfold run. revert st v.
  induction events as [|ev events IH]; intros st v Hv; cbn [fold_left].
  - exists v. split; auto. split; [apply grows_refl|reflexivity].
  - destruct (step_grows st ev name v Hv) as (v1 & Hv1 & Hg1).
    destruct (IH _ _ Hv1) as (v' & Hv' & Hg & Ht).
    exists v'. split; auto. split; [eapply grows_trans; eauto|].
    rewrite Ht. symmetry. now apply grows_type_name.
Qed.

(* ================================================================ *)
(** ** The chat handler *)

Lemma create_context_message_runs (st : state) :
  dict_keys (data st) = dict_keys DATA_FILES ->
  exists text, create_context_message st = (Return text, st).
Proof.
  intros Hkeys.
  assert (Hbound : forall title key, In (title, key) data_sections_keys ->
                     exists v, dict_get key (data st) = Some v).
  { intros title key Hin. apply dict_get_in_keys. rewrite Hkeys.
    unfold data_sections_keys in Hin. cbn [In] in Hin.
    repeat (destruct Hin as [Hin|Hin]; [inversion Hin; subst; cbn; tauto|]).
    contradiction. }
  destruct (map_m_sections st data_sections_keys Hbound) as (contents & Hrun & _).
  eexists. unfold create_context_message. unfold bind at 1. rewrite Hrun.
  reflexivity.
Qed.

Lemma chat_run (req : ChatRequest) (chunks : list (option string))
    (st : state) (key : string) :
  XAI_API_KEY = Some key -> key <> "" ->
  dict_keys (data st) = dict_keys DATA_FILES ->
  chat req (Return chunks) st = chat_postprocess req (drain chunks) st.
Proof.
  intros Hkey Hne Hkeys.
  destruct (create_context_message_runs st Hkeys) as (text & Hctx).
  unfold chat, chat_postprocess. rewrite Hkey.
  destruct key as [|c k]; [congruence|].
  unfold try_except. unfold bind at 1. rewrite Hctx.
  unfold bind at 1. reflexivity.
Qed.

(** [chat] without an API key: the 500 raised for it is caught by the
    handler's own [except] and leaves with its text wrapped once more; the
    store and the completion API are not consulted. *)
Theorem chat_without_api_key
    (req : ChatRequest) (upstream : outcome (list (option string)))
    (st : state) :
  XAI_API_KEY = None \/ XAI_API_KEY = Some "" ->
  chat req upstream st =
  (Raise (HTTPException 500
            "Error processing request: 500: API key not configured"), st).
Proof.
  intros [H|H]; unfold chat; rewrite H; reflexivity.
Qed.

(** [chat] on a question that holds none of the words "exam", "deadline"
    and "date", in any case of letters: the answer is the text of the stream,
    unchanged. *)
Theorem chat_without_keyword_returns_the_stream
    (req : ChatRequest) (chunks : list (option string))
    (st : state) (key : string) :
  XAI_API_KEY = Some key -> key <> "" ->
  dict_keys (data st) = dict_keys DATA_FILES ->
  existsb (fun keyword => str_contains keyword (str_lower (message req)))
          ["exam"; "deadline"; "date"] = false ->
  chat req (Return chunks) st =
  (Return (JObject [ ("response", JStr (drain chunks));
                     ("status", JStr "success");
                     ("source", JStr APP_NAME) ]), st).
Proof.
  intros Hkey Hne Hkeys Hwords.
  rewrite (chat_run _ _ _ _ Hkey Hne Hkeys).
  unfold chat_postprocess. rewrite Hwords. reflexivity.
Qed.

(** [chat] on a question about a date when the academic deadlines are not a
    mapping (the file held a list, say): [relevant_data.items()] fails and
    the request is answered 500, although the completion API answered. *)
Theorem chat_on_deadlines_that_are_no_mapping
    (req : ChatRequest) (chunks : list (option string))
    (st : state) (key : string) (deadlines : json) :
  XAI_API_KEY = Some key -> key <> "" ->
  dict_keys (data st) = dict_keys DATA_FILES ->
  existsb (fun keyword => str_contains keyword (str_lower (message req)))
          ["exam"; "deadline"; "date"] = true ->
  dict_get "academic_deadlines" (data st) = Some deadlines ->
  isinstance_dict deadlines = false ->
  chat req (Return chunks) st =
  (Raise (HTTPException 500
            ("Error processing request: '" ++ type_name deadlines ++
             "' object has no attribute 'items'")), st).
Proof.
  intros Hkey Hne Hkeys Hwords Hdead Hkind.
  rewrite (chat_run _ _ _ _ Hkey Hne Hkeys).
  unfold chat_postprocess. rewrite Hwords.
  unfold try_except, bind, data_getitem. rewrite Hdead.
  destruct deadlines; try discriminate; reflexivity.
Qed.

Lemma quote_deadline_suffix (lowered response : string) (item : string * json)
    (st st' : state) (r : string) :
  quote_deadline lowered response item st = (Return r, st') ->
  st' = st /\ ends_with r response.
Proof.
  unfold quote_deadline.
  destruct (str_contains (fst item) lowered).
  - destruct (snd item) as [| | | |value| |]; try discriminate.
    destruct (negb (str_contains value response)); intros H; inversion H; subst.
    + split; auto.
      exists ("According to our academic calendar, the " ++
              str_replace_char "_" " " (fst item) ++ " is " ++ value ++ ". ").
      now rewrite !append_assoc.
    + split; auto. now exists "".
  - intros H. inversion H; subst. split; auto. now exists "".
Qed.

Lemma ends_with_trans (a b c : string) :
  ends_with a b -> ends_with b c -> ends_with a c.
Proof.
  intros (x & ->) (y & ->). exists (x ++ y). now rewrite append_assoc.
Qed.

Lemma for_each_quote_deadline_suffix (lowered : string)
    (items : list (string * json)) (response : string)
    (st st' : state) (r : string) :
  for_each items (quote_deadline lowered) response st = (Return r, st') ->
  st' = st /\ ends_with r response.
Proof.
  revert response st.
  induction items as [|item items IH]; intros response st; cbn [for_each].
  - intros H. inversion H; subst. split; auto. now exists "".
  - unfold bind at 1.
    destruct (quote_deadline lowered response item st) as [[r1|e] st1] eqn:E;
      [|discriminate].
    apply quote_deadline_suffix in E. destruct E as (-> & Hr1).
    intros H. apply IH in H. destruct H as (-> & Hr).
    split; auto. eapply ends_with_trans; eauto.
Qed.

(** The post-processing of [chat] only prepends: whenever [chat] succeeds,
    the completion API had answered and the response ends with the text of
    its stream. *)
Theorem chat_answer_ends_with_the_stream
    (req : ChatRequest) (upstream : outcome (list (option string)))
    (st st' : state) (resp : json) :
  chat req upstream st = (Return resp, st') ->
  exists chunks r,
    upstream = Return chunks /\
    resp = JObject [ ("response", JStr r);
                     ("status", JStr "success");
                     ("source", JStr APP_NAME) ] /\
    ends_with r (drain chunks).
Proof.
  unfold chat, try_except.
  destruct XAI_API_KEY as [[|c k]|]; try discriminate.
  unfold bind at 1.
  destruct (create_context_message st) as [[text|e] st1]; [|discriminate].
  unfold bind at 1.
  destruct upstream as [chunks|e]; [|discriminate].
  unfold bind at 1.
  destruct (existsb _ _).
  - unfold bind at 1, data_getitem.
    destruct (dict_get "academic_deadlines" (data st1)) as [deadlines|];
      [|discriminate].
    destruct deadlines as [| | | | | |items]; try discriminate.
    destruct (for_each items _ (drain chunks) st1) as [[r|e] st2] eqn:E;
      [|discriminate].
    apply for_each_quote_deadline_suffix in E. destruct E as (_ & Hr).
    intros H. inversion H; subst. eauto.
  - intros H. inversion H; subst. exists chunks, (drain chunks).
    split; auto. split; auto. now exists "".
Qed.

Lemma ascii_lower_char_idempotent (c : ascii) :
  ascii_lower_char (ascii_lower_char c) = ascii_lower_char c.
Proof. destruct c as [[] [] [] [] [] [] [] []]; reflexivity. Qed.

Lemma ascii_lower_char_ascii (c : ascii) :
  (N_of_ascii (ascii_lower_char c) <? 128)%N = (N_of_ascii c <? 128)%N.
Proof. destruct c as [[] [] [] [] [] [] [] []]; reflexivity. Qed.

Lemma is_ascii_lower (t : string) : is_ascii (ascii_lower t) = is_ascii t.
Proof.
  induction t as [|b t IH]; cbn [is_ascii ascii_lower]; auto.
  now rewrite ascii_lower_char_ascii, IH.
Qed.

(** What occurs in an ASCII text is ASCII. *)
Lemma prefix_of_ascii (s t : string) :
  is_ascii t = true -> String.prefix s t = true -> is_ascii s = true.
Proof.
  revert t. induction s as [|a s IH]; intros t Ht; [reflexivity|].
  destruct t as [|b t]; cbn [String.prefix]; [discriminate|].
  cbn [is_ascii] in Ht. apply andb_true_iff in Ht. destruct Ht as [Hb Ht].
  destruct (ascii_dec a b) as [->|]; [|discriminate].
  intros H. cbn [is_ascii]. now rewrite Hb, (IH t Ht H).
Qed.

Lemma contained_in_ascii (s t : string) :
  is_ascii t = true -> str_contains s t = true -> is_ascii s = true.
Proof.
  induction t as [|b t IH]; intros Ht; cbn [str_contains].
  - rewrite orb_false_r. now apply prefix_of_ascii.
  - rewrite orb_true_iff. intros [H|H].
    + now apply (prefix_of_ascii s (String b t)).
    + apply IH; auto. cbn [is_ascii] in Ht. apply andb_true_iff in Ht. tauto.
Qed.

(** What occurs in a text lowered letter by letter is lowered. *)
Lemma prefix_of_lowered (s t : string) :
  String.prefix s (ascii_lower t) = true -> ascii_lower s = s.
Proof.
  revert t. induction s as [|a s IH]; intros t; [reflexivity|].
  destruct t as [|b t]; cbn [ascii_lower String.prefix]; [discriminate|].
  destruct (ascii_dec a (ascii_lower_char b)) as [->|]; [|discriminate].
  intros H. rewrite ascii_lower_char_idempotent. f_equal. eauto.
Qed.

Lemma contained_in_lowered (s t : string) :
  str_contains s (ascii_lower t) = true -> ascii_lower s = s.
Proof.
  induction t as [|b t IH]; cbn [ascii_lower str_contains].
  - rewrite orb_false_r. apply (prefix_of_lowered s "").
  - rewrite orb_true_iff. intros [H|H]; auto.
    apply (prefix_of_lowered s (String b t)). exact H.
Qed.

(** The keys of the deadlines are looked up in the lowered question as they
    are written: a key that holds a capital letter is never found, and its
    deadline is never quoted, whatever the question and its value.  For a
    question that is not ASCII this is the law of the case tables. *)
Theorem deadline_with_capital_key_is_never_quoted
    (case_law : lower_law)
    (question response key : string) (value : json) (st : state) :
  str_lower key <> key ->
  quote_deadline (str_lower question) response (key, value) st =
  (Return response, st).
Proof.
  intros Hkey. unfold quote_deadline. cbn [fst snd].
  destruct (str_contains key (str_lower question)) eqn:E; [|reflexivity].
  destruct Hkey. unfold str_lower in E.
  destruct (is_ascii question) eqn:Hq.
  - unfold str_lower.
    rewrite (contained_in_ascii key (ascii_lower question))
      by (rewrite ?is_ascii_lower; assumption).
    now apply contained_in_lowered with question.
  - apply (case_law _ _ E).
Qed.

(* ================================================================ *)
(** ** The context after an update *)

Lemma update_data_merged (req : UpdateRequest) (st : state) (current : json) :
  dict_get (file_name req) (data st) = Some current ->
  dict_get (file_name req) (data (snd (update_data req st))) =
  Some (merged current (new_data req)).
Proof.
  intros Hcur.
  destruct (dict_get (file_name req) DATA_FILES) as [path|] eqn:Hpath.
  - rewrite (update_data_known _ _ _ _ Hcur Hpath).
    destruct (condition (fs st) path); cbn [snd data]; apply dict_get_set_same.
  - rewrite (update_data_unconfigured _ _ _ Hcur Hpath). cbn [snd data].
    apply dict_get_set_same.
Qed.

Lemma context_message_shows (st : state) (name : string) (v : json) :
  dict_keys (data st) = dict_keys DATA_FILES ->
  dict_get name (data st) = Some v ->
  exists text title,
    create_context_message st = (Return text, st) /\
    In (title, name) data_sections_keys /\
    occurs_in (newline ++ title ++ ":" ++ newline ++ json_dumps 2 v) text.
Proof.
  intros Hkeys Hv.
  assert (Hbound : forall title key, In (title, key) data_sections_keys ->
                     exists w, dict_get key (data st) = Some w).
  { intros title key Hin. apply dict_get_in_keys. rewrite Hkeys.
    unfold data_sections_keys in Hin. cbn [In] in Hin.
    repeat (destruct Hin as [Hin|Hin]; [inversion Hin; subst; cbn; tauto|]).
    contradiction. }
  destruct (map_m_sections st data_sections_keys Hbound) as (contents & Hrun & Hin).
  assert (Hname : In name (dict_keys DATA_FILES)).
  { rewrite <- Hkeys. apply dict_get_in_keys. eauto. }
  assert (Htitle : exists title, In (title, name) data_sections_keys).
  { cbn in Hname.
    repeat (destruct Hname as [Hname|Hname];
            [subst; eexists; cbn; eauto 10|]).
    contradiction. }
  destruct Htitle as (title & Htitle).
  destruct (Hin title name Htitle) as (w & Hw & Hwin).
  assert (w = v) by congruence. subst w.
  eexists. exists title. split; [|split; [exact Htitle|]].
  - unfold create_context_message. unfold bind at 1. rewrite Hrun. reflexivity.
  - apply occurs_in_concat. apply in_or_app. right. apply in_or_app. left.
    change (newline ++ title ++ ":" ++ newline ++ json_dumps 2 v)
      with (context_section (title, v)).
    now apply in_map.
Qed.

(** [update_data] then [create_context_message]: the context is built from
    the store as it is, so right after an update, failed write or not, it
    shows the dataset with the patch merged in. *)
Theorem context_after_update_shows_the_merge
    (req : UpdateRequest) (st : state) (current : json) :
  dict_keys (data st) = dict_keys DATA_FILES ->
  dict_get (file_name req) (data st) = Some current ->
  let st' := snd (update_data req st) in
  exists text title,
    create_context_message st' = (Return text, st') /\
    In (title, file_name req) data_sections_keys /\
    occurs_in (newline ++ title ++ ":" ++ newline ++
               json_dumps 2 (merged current (new_data req))) text.
Proof.
  intros Hkeys Hcur st'.
  apply context_message_shows.
  - unfold st'. now rewrite update_data_keys.
  - now apply update_data_merged.
Qed.

End Properties.

(* ================================================================== *)
(** ** The theorems at work on the sample deployment *)

#[local] Existing Instance sample_python.

(** The sample interpreter obeys the two laws. *)
Lemma sample_float_law : float_repr_law.
Proof.
  intros text Hlit. unfold float_canonical. cbn [parse_float sample_python].
  rewrite Hlit, String.eqb_refl. now rewrite !orb_true_r.
Qed.

Lemma sample_lower_law : lower_law.
Proof.
  intros s t H. cbn [unicode_lower sample_python] in H.
  apply contained_in_lowered in H. unfold str_lower.
  cbn [unicode_lower sample_python]. now destruct (is_ascii s).
Qed.

(** The printer writes what Python's [json.dumps(..., indent=2)] writes. *)
Example json_dumps_nested :
  let q := String DQUOTE "" in
  json_dumps 2 (JObject [("a", JArray [JInt 1; JInt (-20)]); ("b", JObject []);
                         ("c", JStr (String LF "x"))]) =
  "{" ++ newline ++
  "  " ++ q ++ "a" ++ q ++ ": [" ++ newline ++
  "    1," ++ newline ++
  "    -20" ++ newline ++
  "  ]," ++ newline ++
  "  " ++ q ++ "b" ++ q ++ ": {}," ++ newline ++
  "  " ++ q ++ "c" ++ q ++ ": " ++ q ++ "\nx" ++ q ++ newline ++
  "}".
Proof. reflexivity. Qed.

(** The decoder keeps the last value of a repeated key, at the place of the
    first, reads a number with a fraction or an exponent as a float, and
    refuses leading zeros and trailing commas. *)
Example json_loads_samples (py : Python) :
  let q := String DQUOTE "" in
  json_loads (" {" ++ q ++ "k" ++ q ++ ": 1, " ++ q ++ "j" ++ q ++ ": [true, null], "
              ++ q ++ "k" ++ q ++ ": -2} ") =
    Some (JObject [("k", JInt (-2)); ("j", JArray [JBool true; JNull])]) /\
  json_loads "[1.5, -2e3, 7]" =
    Some (JArray [JFloat (parse_float "1.5"); JFloat (parse_float "-2e3");
                  JInt 7]) /\
  json_loads "[NaN, Infinity, -Infinity]" =
    Some (JArray [JFloat "nan"; JFloat "inf"; JFloat "-inf"]) /\
  json_loads "01" = None /\
  json_loads "1." = None /\
  json_loads "[1,]" = None /\
  json_loads "-0" = Some (JInt 0).
Proof. vm_compute. repeat split. Qed.

(** A [str] is held as its UTF-8 text: U+0141 takes two bytes and U+1F600
    four; the printer escapes them, the second as a surrogate pair, and the
    decoder puts the pair together again. *)
Example unicode_samples (py : Python) :
  let q := String DQUOTE "" in
  let stroke := String (ascii_of_N 197) (String (ascii_of_N 129) "") in
  let grin := String (ascii_of_N 240) (String (ascii_of_N 159)
               (String (ascii_of_N 152) (String (ascii_of_N 128) ""))) in
  utf8_encode 321 = stroke /\
  utf8_encode 128512 = grin /\
  json_dumps 4 (JStr (stroke ++ grin)) = q ++ "\u0141\ud83d\ude00" ++ q /\
  json_loads (q ++ "\u0141\ud83d\ude00" ++ q) = Some (JStr (stroke ++ grin)) /\
  json_loads (q ++ stroke ++ grin ++ q) = Some (JStr (stroke ++ grin)).
Proof. vm_compute. repeat split. Qed.

(** A file of numbers with fractions is loaded as it is written. *)
Example loaded_floats (py : Python) :
  let q := String DQUOTE "" in
  let text := "{" ++ q ++ "gpa" ++ q ++ ": 3.5, " ++ q ++ "room" ++ q ++ ": "
              ++ q ++ "B2" ++ q ++ "}" in
  loaded {| files := [("/srv/app/data/json/paper_recheck.json", text)];
            condition := fun _ => Writable |}
         "/srv/app/data/json/paper_recheck.json" =
  JObject [("gpa", JFloat (parse_float "3.5")); ("room", JStr "B2")].
Proof. vm_compute. reflexivity. Qed.

(** Lines 170 to 173 of [main.py] taken alone: a list argument is
    concatenated, any other is appended as one element.  Through
    [update_data] the argument is always a mapping. *)
Lemma extend_or_append_cases (l p : list json) (x : json) :
  extend_or_append l (JArray p) = (l ++ p)%list /\
  (isinstance_list x = false -> extend_or_append l x = (l ++ [x])%list).
Proof.
  split; [reflexivity|]. now destruct x.
Qed.

Lemma sample_startup : startup sample_base sample_disk = Return sample_state.
Proof. vm_compute. reflexivity. Qed.

(** C1: an update that names no configured dataset is answered 500, not 404:
    the 404 is raised inside the handler's own [try] and caught by its
    [except Exception]; the store is left as it was. *)
Theorem update_unknown_name_is_answered_500 :
  let request := {| file_name := "nonexistent_dataset"; new_data := [] |} in
  startup sample_base sample_disk = Return sample_state /\
  dict_get "nonexistent_dataset" (DATA_FILES sample_base) = None /\
  update_data sample_base request sample_state =
    (Raise (HTTPException 500 "Error updating data: 404: File not found"),
     sample_state) /\
  http_status (fst (update_data sample_base request sample_state)) = 500%Z /\
  get_data "nonexistent_dataset" sample_state =
    (Raise (HTTPException 404 "File not found"), sample_state).
Proof. vm_compute. repeat split. Qed.


(** C10 as stated fails: on a disk that refuses the write, the update of a
    dataset that is a bare number is not answered success but 500, and no
    file is written; the store is left as it was. *)
Lemma scalar_update_on_locked_disk_fails :
  let req := {| file_name := "paper_recheck"; new_data := [("fee", JInt 500)] |} in
  let r := update_data sample_base req sample_locked_state in
  dict_get "paper_recheck" (data sample_locked_state) = Some (JInt 42) /\
  dict_get "paper_recheck" (DATA_FILES sample_base) =
    Some (sample_path "paper_recheck.json") /\
  fst r = Raise (HTTPException 500
                   "Error updating data: [Errno 13] Permission denied") /\
  http_status (fst r) = 500%Z /\
  fst r <> Return (update_success "paper_recheck" (JInt 42)) /\
  snd r = sample_locked_state.
Proof. vm_compute. repeat split. discriminate. Qed.

Lemma update_sequence_appends_the_patch_witness :
  let req := {| file_name := "library_books_list";
                new_data := [("title", JStr "Emma")] |} in
  dict_get "library_books_list"
    (data (snd (update_data sample_base req sample_state))) =
  Some (JArray [JStr "Dune"; JObject [("title", JStr "Emma")]]).
Proof.
  exact (proj1 (update_sequence_appends_the_patch sample_base
                  {| file_name := "library_books_list";
                     new_data := [("title", JStr "Emma")] |}
                  sample_state [JStr "Dune"] eq_refl)).
Defined.

Lemma update_mapping_merges_witness :
  let req := {| file_name := "academic_deadlines";
                new_data := [("final", JStr "Dec 15")] |} in
  dict_get "academic_deadlines"
    (data (snd (update_data sample_base req sample_state))) =
  Some (JObject [("midterm", JStr "Oct 10"); ("final", JStr "Dec 15")]).
Proof.
  destruct (update_mapping_merges sample_base
              {| file_name := "academic_deadlines";
                 new_data := [("final", JStr "Dec 15")] |}
              sample_state [("midterm", JStr "Oct 10")] eq_refl eq_refl)
    as (m' & Hget & _ & _ & Hexample).
  cbn [file_name new_data] in Hget, Hexample.
  rewrite (Hexample eq_refl eq_refl) in Hget. exact Hget.
Defined.

Lemma failed_write_keeps_merged_value_witness :
  let req := {| file_name := "academic_deadlines";
                new_data := [("final", JStr "Dec 15")] |} in
  http_status (fst (update_data sample_base req sample_locked_state)) = 500%Z /\
  dict_get "academic_deadlines"
    (data (snd (update_data sample_base req sample_locked_state))) =
  Some (JObject [("midterm", JStr "Oct 10"); ("final", JStr "Dec 15")]).
Proof.
  assert (Hfail : condition (fs sample_locked_state)
                    (sample_path "academic_deadlines.json") <> Writable)
    by (vm_compute; discriminate).
  destruct (failed_write_keeps_merged_value sample_base
              {| file_name := "academic_deadlines";
                 new_data := [("final", JStr "Dec 15")] |}
              sample_locked_state (JObject [("midterm", JStr "Oct 10")])
              (sample_path "academic_deadlines.json") eq_refl eq_refl Hfail)
    as (_ & Hstatus & _ & Hget).
  split; [exact Hstatus | exact Hget].
Defined.

Lemma update_scalar_changes_nothing_in_memory_witness :
  let req := {| file_name := "paper_recheck";
                new_data := [("fee", JInt 500)] |} in
  data (snd (update_data sample_base req sample_state)) = data sample_state /\
  fst (update_data sample_base req sample_state) =
    Return (update_success "paper_recheck" (JInt 42)).
Proof.
  destruct (update_scalar_changes_nothing_in_memory sample_base
              {| file_name := "paper_recheck"; new_data := [("fee", JInt 500)] |}
              sample_state (JInt 42) (sample_path "paper_recheck.json")
              eq_refl eq_refl eq_refl eq_refl)
    as (Hsame & Hwrite & _).
  destruct (Hwrite eq_refl) as (Hrun & _).
  split; [exact Hsame | now rewrite Hrun].
Defined.

Lemma files_are_the_configured_names_witness :
  dict_keys (data sample_run) =
  [ "academic_deadlines"; "course_information"; "student_service_support";
    "library_books_list"; "transport_service"; "paper_recheck" ].
Proof.
  destruct (files_are_the_configured_names sample_base None
              "University Assistant API" "1.0.0" sample_disk sample_state
              sample_events sample_startup)
    as (_ & Hnames & Hkeys).
  unfold sample_run. now rewrite Hkeys.
Defined.

Lemma context_message_is_built_witness :
  exists text,
    fst (create_context_message sample_state) = Return text /\
    ends_with text context_rules.
Proof.
  destruct (context_message_is_built sample_base sample_state eq_refl)
    as (text & Hrun & _ & Hend).
  exists text. now rewrite Hrun.
Defined.

Lemma get_data_unknown_is_not_found_witness :
  http_status (fst (get_data "nonexistent_dataset" sample_run)) = 404%Z.
Proof.
  assert (Hname : ~ In "nonexistent_dataset" (dict_keys (DATA_FILES sample_base)))
    by (vm_compute; intuition discriminate).
  exact (proj1 (proj2 (get_data_unknown_is_not_found sample_base None
                         "University Assistant API" "1.0.0" sample_disk
                         sample_state sample_events "nonexistent_dataset"
                         sample_startup Hname))).
Defined.


Lemma get_data_configured_succeeds_witness :
  exists v,
    dict_get "library_books_list" (data sample_run) = Some v /\
    fst (get_data "library_books_list" sample_run) =
    Return (JObject [("data", v)]).
Proof.
  assert (Hname : In "library_books_list" (dict_keys (DATA_FILES sample_base)))
    by (vm_compute; tauto).
  destruct (get_data_configured_succeeds sample_base None
              "University Assistant API" "1.0.0" sample_disk sample_state
              sample_events "library_books_list" sample_startup Hname)
    as (v & Hv & Hget).
  exists v. split; [exact Hv|]. fold sample_run in Hget. now rewrite Hget.
Defined.

Lemma get_after_update_reads_the_update_witness :
  exists v,
    fst (get_data "academic_deadlines"
           (snd (update_data sample_base sample_patch sample_state))) =
    Return (JObject [("data", v)]).
Proof.
  destruct (update_data sample_base sample_patch sample_state)
    as [r st'] eqn:Hrun.
  assert (Hok : exists body, r = Return body)
    by (vm_compute in Hrun; inversion Hrun; eauto).
  destruct Hok as (body & ->).
  destruct (get_after_update_reads_the_update sample_base sample_patch
              sample_state st' body Hrun) as (v & _ & Hget).
  exists v. cbn [snd]. cbn [file_name sample_patch] in Hget. now rewrite Hget.
Defined.

Lemma update_leaves_other_datasets_witness :
  dict_get "library_books_list"
    (data (snd (update_data sample_base sample_patch sample_state))) =
  Some (JArray [JStr "Dune"]).
Proof.
  assert (Hne : "library_books_list" <> file_name sample_patch)
    by (vm_compute; discriminate).
  rewrite (update_leaves_other_datasets sample_base sample_patch sample_state
             "library_books_list" Hne).
  reflexivity.
Defined.

Lemma update_leaves_other_files_witness :
  dict_get (sample_path "library_books.json")
    (files (fs (snd (update_data sample_base sample_patch sample_state)))) =
  Some (json_dumps 4 (JArray [JStr "Dune"])).
Proof.
  assert (Hne : "library_books_list" <> file_name sample_patch)
    by (vm_compute; discriminate).
  rewrite (update_leaves_other_files sample_base sample_patch sample_state
             "library_books_list" (sample_path "library_books.json")
             Hne eq_refl).
  reflexivity.
Defined.

Lemma restart_after_update_restores_the_value_witness :
  let body := sample_update "academic_deadlines"
                (JObject [("final", JStr "Dec 15")]) in
  exists st2 v,
    startup sample_base
      (fs (snd (post_admin_update sample_base body sample_run))) = Return st2 /\
    dict_get "academic_deadlines" (data st2) = Some v /\
    dict_get "academic_deadlines"
      (data (snd (post_admin_update sample_base body sample_run))) = Some v.
Proof.
  cbn zeta.
  destruct (post_admin_update sample_base
              (sample_update "academic_deadlines"
                 (JObject [("final", JStr "Dec 15")])) sample_run)
    as [r st'] eqn:Hrun.
  assert (Hok : exists body, r = Return body)
    by (vm_compute in Hrun; inversion Hrun; eauto).
  destruct Hok as (resp & ->).
  destruct (restart_after_update_restores_the_value sample_base None
              "University Assistant API" "1.0.0" sample_float_law
              sample_disk sample_state sample_events _ resp st'
              sample_startup Hrun)
    as (decoded & req & st2 & v & Hbody & Hreq & Hstart & Hv & Hv2 & _).
  assert (Hname : file_name req = "academic_deadlines").
  { vm_compute in Hbody. inversion Hbody; subst.
    vm_compute in Hreq. now inversion Hreq. }
  rewrite Hname in *. exists st2, v. auto.
Defined.

Lemma repeated_mapping_update_changes_nothing_witness :
  update_data sample_base sample_patch
    (snd (update_data sample_base sample_patch sample_state)) =
  update_data sample_base sample_patch sample_state.
Proof.
  exact (repeated_mapping_update_changes_nothing sample_base sample_patch
           sample_state [("midterm", JStr "Oct 10")] eq_refl eq_refl).
Defined.

Lemma datasets_only_grow_witness :
  exists v',
    dict_get "library_books_list" (data sample_run) = Some v' /\
    grows (JArray [JStr "Dune"]) v' /\ type_name v' = "list".
Proof.
  exact (datasets_only_grow sample_base None "University Assistant API" "1.0.0"
           sample_events sample_state "library_books_list"
           (JArray [JStr "Dune"]) eq_refl).
Defined.

Lemma chat_without_api_key_witness :
  chat None "University Assistant API"
    {| message := "When is the midterm exam?" |} (Return sample_stream)
    sample_state =
  (Raise (HTTPException 500
            "Error processing request: 500: API key not configured"),
   sample_state).
Proof.
  exact (chat_without_api_key None "University Assistant API"
           {| message := "When is the midterm exam?" |} (Return sample_stream)
           sample_state (or_introl eq_refl)).
Defined.

Lemma chat_without_keyword_returns_the_stream_witness :
  chat sample_key "University Assistant API"
    {| message := "Where is the Library?" |} (Return sample_stream)
    sample_state =
  (Return (JObject [ ("response", JStr "Soon. Ask your advisor.");
                     ("status", JStr "success");
                     ("source", JStr "University Assistant API") ]),
   sample_state).
Proof.
  assert (Hne : "xai-key" <> "") by discriminate.
  exact (chat_without_keyword_returns_the_stream sample_base sample_key
           "University Assistant API" {| message := "Where is the Library?" |}
           sample_stream sample_state "xai-key" eq_refl Hne eq_refl eq_refl).
Defined.

Lemma chat_on_deadlines_that_are_no_mapping_witness :
  chat sample_key "University Assistant API"
    {| message := "When is the midterm EXAM?" |} (Return sample_stream)
    sample_list_state =
  (Raise (HTTPException 500
            "Error processing request: 'list' object has no attribute 'items'"),
   sample_list_state).
Proof.
  assert (Hne : "xai-key" <> "") by discriminate.
  exact (chat_on_deadlines_that_are_no_mapping sample_base sample_key
           "University Assistant API"
           {| message := "When is the midterm EXAM?" |}
           sample_stream sample_list_state "xai-key" (JArray [JStr "Oct 10"])
           eq_refl Hne eq_refl eq_refl eq_refl eq_refl).
Defined.

Lemma chat_answer_ends_with_the_stream_witness :
  exists r,
    fst (chat sample_key "University Assistant API"
           {| message := "When is the midterm exam?" |} (Return sample_stream)
           sample_state) =
    Return (JObject [ ("response", JStr r);
                      ("status", JStr "success");
                      ("source", JStr "University Assistant API") ]) /\
    ends_with r "Soon. Ask your advisor.".
Proof.
  destruct (chat sample_key "University Assistant API"
              {| message := "When is the midterm exam?" |} (Return sample_stream)
              sample_state) as [r st'] eqn:Hrun.
  assert (Hok : exists body, r = Return body)
    by (vm_compute in Hrun; inversion Hrun; eauto).
  destruct Hok as (body & ->).
  destruct (chat_answer_ends_with_the_stream sample_key
              "University Assistant API" _ _ _ _ _ Hrun)
    as (chunks & text & Hup & -> & Hend).
  inversion Hup; subst. exists text. split; [reflexivity|exact Hend].
Defined.

Lemma deadline_with_capital_key_is_never_quoted_witness :
  quote_deadline (str_lower "When is the Midterm?") "Soon."
    ("Midterm", JInt 10) sample_state = (Return "Soon.", sample_state).
Proof.
  assert (Hkey : str_lower "Midterm" <> "Midterm") by (vm_compute; discriminate).
  exact (deadline_with_capital_key_is_never_quoted sample_lower_law
           "When is the Midterm?" "Soon." "Midterm" (JInt 10) sample_state
           Hkey).
Defined.

Lemma context_after_update_shows_the_merge_witness :
  exists text,
    fst (create_context_message
           (snd (update_data sample_base sample_patch sample_locked_state))) =
    Return text /\
    occurs_in
      (newline ++ "Academic Deadlines:" ++ newline ++
       json_dumps 2 (JObject [("midterm", JStr "Oct 10");
                              ("final", JStr "Dec 15")])) text.
Proof.
  destruct (context_after_update_shows_the_merge sample_base sample_patch
              sample_locked_state (JObject [("midterm", JStr "Oct 10")])
              eq_refl eq_refl)
    as (text & title & Hrun & Htitle & Hocc).
  assert (Ht : title = "Academic Deadlines").
  { cbn in Htitle.
    repeat (destruct Htitle as [Htitle|Htitle];
            [inversion Htitle; try reflexivity|]).
    contradiction. }
  subst title. exists text. split; [now rewrite Hrun|exact Hocc].
Defined.
